(** * Transcript acquisition pipeline: a shallow embedding and its properties

    This development embeds [src/02_get_transcripts.py] (the tier selection
    [pick_transcript], the per-video [fetch_one] and the resumable driver
    [main]) and the per-video body of [src/02b_whisper_transcribe.py]; further
    on, the driver of that script and, of [src/01_pull_youtube.py], the
    parser of durations, the paging of a playlist and the batches of
    [fetch_video_details].

    Conventions of the embedding.
    - A Python [dict] literal is an association list from keys to values,
      in the order the literal is written.
    - Strings are sequences of Latin-1 characters.
    - A [DataFrame] built from a list of such dicts is the list of its rows,
      and its columns are the keys of its rows (a frame without rows has no
      column); [pd.concat([a, b], ignore_index=True)] is list concatenation.
      A file on disk holds the frame last written to it.
    - Python exceptions are values: a computation returns [Ok v] or
      [Raised e], and [try ... except] is a case analysis on that result.
      Only instances of [Exception] are modelled ([KeyboardInterrupt] and
      other [BaseException]s are signals of the operator, not failures of a
      video).
    - The outside world (clock, YouTube, the file system of the audio
      directory, the Whisper model) is an abstract state [Env] with the
      operations of [Platform]; the calls the program makes to YouTube, to
      [time.sleep], to yt-dlp, to the model and to [to_parquet] are also
      appended to a trace of events, so that statements about pauses, network
      attempts and checkpoint writes can be made.
    - The columns of a checkpoint file have the types of the rows the
      program writes, so that writing a frame to a parquet file succeeds, and
      so do the totals printed at the end of a run, which are computed from
      the frame just written.  Console output ([print]) is left out. *)

From Stdlib Require Import String List ZArith QArith Qround Bool Lia Sorted.
From Stdlib Require Import DecimalString.
Import ListNotations.
Close Scope Q_scope.
Open Scope string_scope.
Open Scope list_scope.

Set Implicit Arguments.

(** ** Python values, dicts and exceptions *)

Module Py.

(** The exception classes the program names, and every other subclass of
    [Exception] by its class name. *)
Inductive exn_class : Type :=
| TooManyRequests
| TranscriptsDisabled
| NoTranscriptFound
| VideoUnavailable
| OtherException (name : string).

(** An exception instance: its class and [str(e)]. *)
Record exn : Type := Exn { exn_type : exn_class; exn_str : string }.

(** [type(e).__name__] *)
Definition type_name (e : exn) : string :=
  match exn_type e with
  | TooManyRequests => "TooManyRequests"
  | TranscriptsDisabled => "TranscriptsDisabled"
  | NoTranscriptFound => "NoTranscriptFound"
  | VideoUnavailable => "VideoUnavailable"
  | OtherException name => name
  end.

Inductive result (A : Type) : Type :=
| Ok (a : A)
| Raised (e : exn).
Arguments Ok {A} a.
Arguments Raised {A} e.

(** [datetime] values, as microseconds since the epoch. *)
Definition datetime := Z.

Inductive value : Type :=
| VNone
| VBool (b : bool)
| VStr (s : string)
| VTime (t : datetime).

Definition dict := list (string * value).

(** [d[k]]; [None] stands for [KeyError]. *)
Fixpoint get (d : dict) (k : string) : option value :=
  match d with
  | [] => None
  | (k', v) :: d' => if String.eqb k' k then Some v else get d' k
  end.

Definition keys (d : dict) : list string := map fst d.

(** Truthiness of a string: [bool(s)]. *)
Definition truthy (s : string) : bool :=
  match s with
  | EmptyString => false
  | String _ _ => true
  end.

Definition DataFrame := list dict.

(** [pd.concat([existing, out_df], ignore_index=True)] under
    [if existing is not None]. *)
Definition concat_existing (existing : option DataFrame) (out_df : DataFrame)
  : DataFrame :=
  match existing with
  | Some df => df ++ out_df
  | None => out_df
  end.

(** A frame made from a list of dicts has the keys of its rows as columns:
    [key in df.columns]. *)
Definition has_column (df : DataFrame) (key : string) : bool :=
  existsb (fun row => match get row key with Some _ => true | None => false end)
    df.

(** The video a row is about: the string under [video_id], which every row
    this program writes has. *)
Definition video_id_of (row : dict) : option string :=
  match get row "video_id" with
  | Some (VStr s) => Some s
  | _ => None
  end.

(** The videos the rows of a frame are about, row by row. *)
Fixpoint video_id_column (df : DataFrame) : list string :=
  match df with
  | [] => []
  | row :: df' =>
      match video_id_of row with
      | Some s => s :: video_id_column df'
      | None => video_id_column df'
      end
  end.

(** [x in s] for a set of strings. *)
Definition mem (x : string) (s : list string) : bool :=
  existsb (String.eqb x) s.

(** [Series.dropna()] on a column with missing entries. *)
Fixpoint dropna (col : list (option string)) : list string :=
  match col with
  | [] => []
  | Some s :: col' => s :: dropna col'
  | None :: col' => dropna col'
  end.

(** [Series.unique()]: the distinct values in order of first appearance. *)
Fixpoint unique_from (seen : list string) (l : list string) : list string :=
  match l with
  | [] => []
  | x :: l' =>
      if mem x seen then unique_from seen l'
      else x :: unique_from (x :: seen) l'
  end.

Definition unique (l : list string) : list string := unique_from [] l.

(** Two built-in exceptions; [str(KeyError(key))] is the [repr] of the key. *)
Definition ValueError (msg : string) : exn :=
  Exn (OtherException "ValueError") msg.

Definition KeyError (key : string) : exn :=
  Exn (OtherException "KeyError") ("'" ++ key ++ "'").

End Py.
Import Py.

(** ** Transcripts, as the program sees the objects of youtube_transcript_api *)

Record segment : Type := Segment {
  seg_text : string;
  seg_start : Q;
  seg_duration : Q
}.

(** A [Transcript] object: two attributes and the network call [fetch()]. *)
Record transcript (Env : Type) : Type := Transcript {
  language_code : string;
  is_generated : bool;
  fetch : Env -> result (list segment) * Env
}.

(** A [TranscriptList] object, by the three ways [pick_transcript] uses it:
    the two lookups, which raise when nothing is found, and iteration. *)
Record transcript_list (Env : Type) : Type := {
  find_manually_created_transcript : list string -> result (transcript Env);
  find_generated_transcript : list string -> result (transcript Env);
  iter_transcripts : result (list (transcript Env))
}.

Section Selector.

Variable Env : Type.

(** [for lang in preferred_langs: try: return find([lang]) except: pass] *)
Fixpoint first_found (find : list string -> result (transcript Env))
  (preferred_langs : list string) : option (transcript Env) :=
  match preferred_langs with
  | [] => None
  | lang :: rest =>
      match find [lang] with
      | Ok t => Some t
      | Raised _ => first_found find rest
      end
  end.

(** [try: xs = [t for t in transcript_list if keep(t)]; if xs: return xs[0]
    except Exception: pass] *)
Definition first_listed (tl : transcript_list Env)
  (keep : transcript Env -> bool) : option (transcript Env) :=
  match iter_transcripts tl with
  | Ok ts =>
      match filter keep ts with
      | t :: _ => Some t
      | [] => None
      end
  | Raised _ => None
  end.

Definition pick_transcript (tl : transcript_list Env)
  (preferred_langs : list string)
  : result (option (transcript Env) * option string) :=
  match first_found (find_manually_created_transcript tl) preferred_langs with
  | Some t => Ok (Some t, Some "manual")
  | None =>
  match first_found (find_generated_transcript tl) preferred_langs with
  | Some t => Ok (Some t, Some "auto")
  | None =>
  match first_listed tl (fun t => negb (is_generated t)) with
  | Some t => Ok (Some t, Some "manual")
  | None =>
  match first_listed tl (fun t => is_generated t) with
  | Some t => Ok (Some t, Some "auto")
  | None => Ok (None, None)
  end end end end.

End Selector.

Arguments pick_transcript {Env} tl preferred_langs.
Arguments first_found {Env} find preferred_langs.
Arguments first_listed {Env} tl keep.

(** ** The outside world *)

(** What [model.transcribe] returns, by the two keys the program reads with
    [result.get]. *)
Record whisper_result : Type := {
  wr_text : option string;
  wr_language : option string
}.

Class Platform (Env : Type) : Type := {
  (** [datetime.utcnow()] / [datetime.now(timezone.utc)] *)
  utcnow : Env -> datetime;
  (** [time.sleep(seconds)] *)
  time_sleep : Q -> Env -> Env;
  (** [YouTubeTranscriptApi.list_transcripts(video_id)] *)
  list_transcripts : string -> Env -> result (transcript_list Env) * Env;
  (** [TextFormatter().format_transcript(segments)] *)
  format_transcript : list segment -> string;
  (** [subprocess.run(cmd, check=True, ...)] *)
  subprocess_run : list string -> Env -> result unit * Env;
  (** [Path.exists()] *)
  path_exists : string -> Env -> bool;
  (** [model.transcribe(path)] *)
  whisper_transcribe : string -> Env -> result whisper_result * Env;
  (** [Path.mkdir(parents=True, exist_ok=True)] *)
  make_dirs : string -> Env -> result unit * Env;
  (** [str(t)] for a timestamp [t], as [astype(str)] writes it *)
  str_of_datetime : datetime -> string
}.

Inductive event : Type :=
| EvListTranscripts (video_id : string)
| EvFetch (language_code : string) (is_generated : bool)
| EvSleep (seconds : Q)
| EvToParquet (df : DataFrame)
| EvSubprocess (cmd : list string)
| EvTranscribe (path : string).

(** The state of one process run: the world, the two parquet files
    ([None] when the file does not exist) and the calls made so far. *)
Record State (Env : Type) : Type := mkState {
  env : Env;
  videos_file : option (list (option string));
  out_file : option DataFrame;
  trace : list event
}.
Arguments mkState {Env} env videos_file out_file trace.

Definition with_env {Env} (s : State Env) (e : Env) (evs : list event)
  : State Env :=
  mkState e (videos_file s) (out_file s) (trace s ++ evs).

(** ** A state and exception monad for the program's statements *)

Definition M (Env A : Type) : Type := State Env -> result A * State Env.

Definition ret {Env A} (a : A) : M Env A := fun s => (Ok a, s).

Definition raise {Env A} (e : exn) : M Env A := fun s => (Raised e, s).

Definition bind {Env A B} (m : M Env A) (k : A -> M Env B) : M Env B :=
  fun s =>
    match m s with
    | (Ok a, s') => k a s'
    | (Raised e, s') => (Raised e, s')
    end.

Notation "x <- m ;; k" := (bind m (fun x => k))
  (at level 61, m at next level, right associativity).
Notation "m ;;; k" := (bind m (fun _ => k))
  (at level 61, right associativity).

(** One [except] clause: the handler when the clause matches the exception. *)
Definition except_clause (Env A : Type) : Type := exn -> option (M Env A).

(** The clauses are tried in the order written; an exception no clause
    matches propagates. *)
Fixpoint dispatch {Env A} (clauses : list (except_clause Env A)) (e : exn)
  : M Env A :=
  match clauses with
  | [] => raise e
  | clause :: rest =>
      match clause e with
      | Some handler => handler
      | None => dispatch rest e
      end
  end.

Definition try_except {Env A} (body : M Env A)
  (clauses : list (except_clause Env A)) : M Env A :=
  fun s =>
    match body s with
    | (Ok a, s') => (Ok a, s')
    | (Raised e, s') => dispatch clauses e s'
    end.

(** A pure computation that may raise, run as a statement. *)
Definition lift {Env A} (r : result A) : M Env A := fun s => (r, s).

(** ** src/02_get_transcripts.py *)

Section GetTranscripts.

Context {Env : Type} {P : Platform Env}.

(** *** Statements that touch the world *)

Definition now : M Env datetime := fun s => (Ok (utcnow (env s)), s).

(** [time.sleep(seconds)], which refuses a negative length. *)
Definition sleep (seconds : Q) : M Env unit :=
  fun s =>
    if Qle_bool 0 seconds
    then (Ok tt, with_env s (time_sleep seconds (env s)) [EvSleep seconds])
    else (Raised (ValueError "sleep length must be non-negative"), s).

Definition api_list_transcripts (video_id : string)
  : M Env (transcript_list Env) :=
  fun s =>
    let '(r, e) := list_transcripts video_id (env s) in
    (r, with_env s e [EvListTranscripts video_id]).

Definition transcript_fetch (t : transcript Env) : M Env (list segment) :=
  fun s =>
    let '(r, e) := fetch t (env s) in
    (r, with_env s e [EvFetch (language_code t) (is_generated t)]).

(** [out_df.to_parquet(OUT_PATH, index=False)]: the file is overwritten. *)
Definition to_parquet (df : DataFrame) : M Env unit :=
  fun s =>
    (Ok tt, mkState (env s) (videos_file s) (Some df)
              (trace s ++ [EvToParquet df])).

(** *** fetch_one *)

Definition value_of_source (source : option string) : value :=
  match source with
  | Some name => VStr name
  | None => VNone
  end.

(** The dict every failing path of [fetch_one] returns; the paths differ in
    [error_type] and [error_message] only. *)
Definition failure_row (video_id error_type error_message : string)
  (fetched_at : datetime) : dict :=
  [ ("video_id", VStr video_id);
    ("has_transcript", VBool false);
    ("language_code", VNone);
    ("is_generated", VNone);
    ("source", VNone);
    ("transcript_text", VNone);
    ("error_type", VStr error_type);
    ("error_message", VStr error_message);
    ("fetched_at_utc", VTime fetched_at) ].

Definition success_row (video_id : string) (chosen : transcript Env)
  (source : option string) (text : string) (fetched_at : datetime) : dict :=
  [ ("video_id", VStr video_id);
    ("has_transcript", VBool true);
    ("language_code", VStr (language_code chosen));
    ("is_generated", VBool (is_generated chosen));
    ("source", value_of_source source);
    ("transcript_text", VStr text);
    ("error_type", VNone);
    ("error_message", VNone);
    ("fetched_at_utc", VTime fetched_at) ].

(** The body of the [try] block. *)
Definition fetch_one_try (video_id : string) (preferred_langs : list string)
  (sleep_s : Q) (fetched_at : datetime) : M Env dict :=
  tlist <- api_list_transcripts video_id ;;
  picked <- lift (pick_transcript tlist preferred_langs) ;;
  match picked with
  | (None, _) =>
      ret (failure_row video_id "NoTranscriptFound"
             "No usable transcript found" fetched_at)
  | (Some chosen, source) =>
      segments <- transcript_fetch chosen ;;
      let text := format_transcript segments in
      sleep sleep_s ;;;
      ret (success_row video_id chosen source text fetched_at)
  end.

(** [except TooManyRequests as e] *)
Definition except_TooManyRequests (video_id : string) (fetched_at : datetime)
  : except_clause Env dict :=
  fun e =>
    match exn_type e with
    | TooManyRequests =>
        Some (ret (failure_row video_id "TooManyRequests" (exn_str e)
                     fetched_at))
    | _ => None
    end.

(** [except (TranscriptsDisabled, NoTranscriptFound, VideoUnavailable) as e] *)
Definition except_known (video_id : string) (fetched_at : datetime)
  : except_clause Env dict :=
  fun e =>
    match exn_type e with
    | TranscriptsDisabled | NoTranscriptFound | VideoUnavailable =>
        Some (ret (failure_row video_id (type_name e) (exn_str e) fetched_at))
    | _ => None
    end.

(** [except Exception as e] *)
Definition except_Exception (video_id : string) (fetched_at : datetime)
  : except_clause Env dict :=
  fun e =>
    Some (ret (failure_row video_id (type_name e) (exn_str e) fetched_at)).

Definition fetch_one (video_id : string) (preferred_langs : list string)
  (sleep_s : Q) : M Env dict :=
  fetched_at <- now ;;
  try_except (fetch_one_try video_id preferred_langs sleep_s fetched_at)
    [ except_TooManyRequests video_id fetched_at;
      except_known video_id fetched_at;
      except_Exception video_id fetched_at ].

(** *** main *)

(** [rec["error_type"] == "TooManyRequests"] *)
Definition is_rate_limited (rec : dict) : bool :=
  match get rec "error_type" with
  | Some (VStr name) => String.eqb name "TooManyRequests"
  | _ => false
  end.

(** [len(rows) > 0 and len(rows) % 100 == 0] *)
Definition checkpoint_due (rows : list dict) : bool :=
  ((0 <? length rows) && (length rows mod 100 =? 0))%nat.

(** What one iteration does with a video that is not in [done_ids]; the
    result is [rows] after the append. *)
Definition process_video (existing : option DataFrame) (rows : list dict)
  (vid : string) : M Env (list dict) :=
  rec <- fetch_one vid ["en"] (15 # 100)%Q ;;
  let rows := rows ++ [rec] in
  (if is_rate_limited rec then sleep (60 # 1)%Q else ret tt) ;;;
  (if checkpoint_due rows then to_parquet (concat_existing existing rows)
   else ret tt) ;;;
  ret rows.

(** [for idx, vid in enumerate(video_ids, start=1): ...]; [idx] is used for
    the progress message only. *)
Fixpoint main_loop (existing : option DataFrame) (done_ids : list string)
  (video_ids : list string) (rows : list dict) : M Env (list dict) :=
  match video_ids with
  | [] => ret rows
  | vid :: rest =>
      if mem vid done_ids then main_loop existing done_ids rest rows
      else
        rows' <- process_video existing rows vid ;;
        main_loop existing done_ids rest rows'
  end.

Definition RuntimeError (msg : string) : exn :=
  Exn (OtherException "RuntimeError") msg.

(** [str(x)] for a cell of a frame read from a parquet file; a row without
    the key holds the missing value of the column, which reads back as
    [None]. *)
Definition str_of_cell (cell : option value) : string :=
  match cell with
  | Some (VStr s) => s
  | Some (VBool true) => "True"
  | Some (VBool false) => "False"
  | Some (VTime t) => str_of_datetime t
  | Some VNone | None => "None"
  end.

Definition cell_strings (df : DataFrame) (key : string) : list string :=
  map (fun row => str_of_cell (get row key)) df.

(** [df[key].astype(str).tolist()]: [df[key]] raises [KeyError] on a frame
    without the column, such as the frame without any row that a run with no
    result writes. *)
Definition column_strings (df : DataFrame) (key : string)
  : result (list string) :=
  if has_column df key then Ok (cell_strings df key)
  else Raised (KeyError key).

(** [done_ids] as lines 144-148 compute it from the checkpoint file. *)
Definition load_done_ids (existing : option DataFrame)
  : result (list string) :=
  match existing with
  | Some df => column_strings df "video_id"
  | None => Ok []
  end.

(** The directory of [os.makedirs("data/raw", exist_ok=True)] is the one the
    list of videos was read from, so the call finds it. *)
Definition main : M Env unit :=
  fun s =>
    match videos_file s with
    | None =>
        raise (RuntimeError
          "Missing data/raw/youtube_videos.parquet. Run src/01_pull_youtube.py first.")
          s
    | Some column =>
        let video_ids := unique (dropna column) in
        let existing := out_file s in
        (done_ids <- lift (load_done_ids existing) ;;
         rows <- main_loop existing done_ids video_ids [] ;;
         to_parquet (concat_existing existing rows)) s
    end.

(** A process started in world [e] on the two files. *)
Definition run (e : Env) (videos : option (list (option string)))
  (checkpoint : option DataFrame) : result unit * State Env :=
  main (mkState e videos checkpoint []).

End GetTranscripts.

(** ** src/02b_whisper_transcribe.py *)

Module Whisper.

Import Ascii.

Definition AUDIO_DIR : string := "data/audio".

Definition WHISPER_MODEL : string := "base".

(** [str.isspace] on a Latin-1 character: tab to carriage return, the four
    separators 0x1c-0x1f, the space, the next-line control U+0085 and the
    no-break space U+00A0. *)
Definition isspace (c : Ascii.ascii) : bool :=
  let n := Ascii.nat_of_ascii c in
  (((9 <=? n) && (n <=? 13)) || ((28 <=? n) && (n <=? 32))
   || (n =? 133) || (n =? 160))%nat.

Fixpoint lstrip (s : string) : string :=
  match s with
  | EmptyString => EmptyString
  | String c s' => if isspace c then lstrip s' else s
  end.

Fixpoint reverse (s acc : string) : string :=
  match s with
  | EmptyString => acc
  | String c s' => reverse s' (String c acc)
  end.

(** [s.strip()] *)
Definition strip (s : string) : string :=
  reverse (lstrip (reverse (lstrip s) EmptyString)) EmptyString.

(** [x or ""] for an optional string [x]. *)
Definition or_empty (x : option string) : string :=
  match x with
  | Some s => if truthy s then s else ""
  | None => ""
  end.

(** *** Paths, as [pathlib] builds them on POSIX *)

(** The pieces of [s] between its slashes. *)
Fixpoint split_slash (s : string) : list string :=
  match s with
  | EmptyString => [EmptyString]
  | String c s' =>
      if Ascii.eqb c "/"%char then EmptyString :: split_slash s'
      else
        match split_slash s' with
        | piece :: pieces => String c piece :: pieces
        | [] => [String c EmptyString]
        end
  end.

(** The root of a path: one slash when the path starts with a slash, but two
    when it starts with exactly two; none for a relative path. *)
Definition path_root (s : string) : string :=
  match s with
  | String c1 rest1 =>
      if Ascii.eqb c1 "/"%char then
        match rest1 with
        | String c2 rest2 =>
            if Ascii.eqb c2 "/"%char then
              match rest2 with
              | String c3 _ => if Ascii.eqb c3 "/"%char then "/" else "//"
              | EmptyString => "//"
              end
            else "/"
        | EmptyString => "/"
        end
      else ""
  | EmptyString => ""
  end.

(** The parts of a path below its root: empty pieces and [.] are dropped,
    [..] is kept. *)
Definition path_parts (s : string) : list string :=
  filter (fun piece => negb (String.eqb piece "") && negb (String.eqb piece "."))
    (split_slash s).

(** [str(PurePosixPath(s))] *)
Definition posix_path (s : string) : string :=
  match path_root s, path_parts s with
  | EmptyString, [] => "."
  | root, parts => (root ++ String.concat "/" parts)%string
  end.

(** [str(Path(dir) / name)] for a relative [dir] that is not empty: an
    absolute [name] replaces [dir]. *)
Definition path_join (dir name : string) : string :=
  match path_root name with
  | EmptyString => posix_path (dir ++ "/" ++ name)
  | _ => posix_path name
  end.

(** [AUDIO_DIR / f"{video_id}.{ext}"] *)
Definition audio_file (video_id ext : string) : string :=
  path_join AUDIO_DIR (video_id ++ "." ++ ext).

(** A string without any slash. *)
Definition slash_free (s : string) : Prop :=
  Forall (fun c => Ascii.eqb c "/"%char = false) (list_ascii_of_string s).

Section Body.

Context {Env : Type} {P : Platform Env}.

Definition run_subprocess (cmd : list string) : M Env unit :=
  fun s =>
    let '(r, e) := subprocess_run cmd (env s) in
    (r, with_env s e [EvSubprocess cmd]).

Definition exists_ (path : string) : M Env bool :=
  fun s => (Ok (path_exists path (env s)), s).

Definition FileNotFoundError (msg : string) : exn :=
  Exn (OtherException "FileNotFoundError") msg.

(** [for ext in exts: p = ...; if p.exists(): return p] followed by the
    [raise] after the loop. *)
Fixpoint first_existing (video_id : string) (exts : list string)
  : M Env string :=
  match exts with
  | [] =>
      raise (FileNotFoundError
               ("Audio not found for " ++ video_id ++ " after download.")%string)
  | ext :: rest =>
      found <- exists_ (audio_file video_id ext) ;;
      if found then ret (audio_file video_id ext)
      else first_existing video_id rest
  end.

(** [path.mkdir(parents=True, exist_ok=True)] *)
Definition mkdir (path : string) : M Env unit :=
  fun s =>
    let '(r, e) := make_dirs path (env s) in
    (r, mkState e (videos_file s) (out_file s) (trace s)).

Definition download_audio (video_id : string) : M Env string :=
  mkdir AUDIO_DIR ;;;
  let outtmpl := audio_file video_id "%(ext)s" in
  let url := ("https://www.youtube.com/watch?v=" ++ video_id)%string in
  run_subprocess ["yt-dlp"; "-x"; "--audio-format"; "mp3"; "-o"; outtmpl; url] ;;;
  let mp3_path := audio_file video_id "mp3" in
  found <- exists_ mp3_path ;;
  if negb found then first_existing video_id ["m4a"; "webm"; "opus"]
  else ret mp3_path.

Definition model_transcribe (path : string) : M Env whisper_result :=
  fun s =>
    let '(r, e) := whisper_transcribe path (env s) in
    (r, with_env s e [EvTranscribe path]).

Definition value_of_option (x : option string) : value :=
  match x with
  | Some s => VStr s
  | None => VNone
  end.

(** The dict appended in the [try] block. *)
Definition transcribed_row (vid text : string) (lang : option string)
  (fetched_at : datetime) : dict :=
  [ ("video_id", VStr vid);
    ("has_transcript", VBool (if truthy text then true else false));
    ("language_code", value_of_option lang);
    ("source", VStr ("whisper_" ++ WHISPER_MODEL)%string);
    ("transcript_text", if truthy text then VStr text else VNone);
    ("error_type", VNone);
    ("error_message", VNone);
    ("fetched_at_utc", VTime fetched_at) ].

(** The dict appended in the [except Exception as e] block. *)
Definition failed_row (vid : string) (e : exn) (fetched_at : datetime)
  : dict :=
  [ ("video_id", VStr vid);
    ("has_transcript", VBool false);
    ("language_code", VNone);
    ("source", VStr ("whisper_" ++ WHISPER_MODEL)%string);
    ("transcript_text", VNone);
    ("error_type", VStr (type_name e));
    ("error_message", VStr (exn_str e));
    ("fetched_at_utc", VTime fetched_at) ].

(** One iteration of the loop of [main] for a video that is not in [done]:
    the row it appends to [rows]. *)
Definition transcribe_video (vid : string) : M Env dict :=
  fetched_at <- now ;;
  try_except
    (audio_path <- download_audio vid ;;
     result <- model_transcribe audio_path ;;
     let text := strip (or_empty (wr_text result)) in
     let lang := wr_language result in
     ret (transcribed_row vid text lang fetched_at))
    [ fun e => Some (ret (failed_row vid e fetched_at)) ].

End Body.

End Whisper.

(** ** A simulated world, for running the program on concrete inputs *)

Module Sim.

(** The clock and the videos whose transcripts were listed so far (latest
    first). *)
Record world : Type := World { clock : Z; listed : list string }.

Definition advance (us : Z) (w : world) : world :=
  World (clock w + us) (listed w).

(** youtube_transcript_api's [TranscriptList]: a lookup takes the first of
    [language_codes] that one of the transcripts has, and raises
    [NoTranscriptFound] when there is none; iteration gives the manually
    created transcripts, then the generated ones. *)
Fixpoint find_transcript {Env} (language_codes : list string)
  (transcripts : list (transcript Env)) : result (transcript Env) :=
  match language_codes with
  | [] => Raised (Exn NoTranscriptFound "No transcripts were found")
  | code :: rest =>
      match find (fun t => String.eqb (language_code t) code) transcripts with
      | Some t => Ok t
      | None => find_transcript rest transcripts
      end
  end.

Definition TranscriptList {Env} (manually_created generated
  : list (transcript Env)) : transcript_list Env :=
  {| find_manually_created_transcript :=
       fun codes => find_transcript codes manually_created;
     find_generated_transcript :=
       fun codes => find_transcript codes generated;
     iter_transcripts := Ok (manually_created ++ generated) |}.

(** [TextFormatter.format_transcript]: the segments' texts, one per line. *)
Definition newline : string := String (Ascii.ascii_of_nat 10) EmptyString.

Definition join_lines (segments : list segment) : string :=
  String.concat newline (map seg_text segments).

(** What is simulated: the answer of YouTube to the n-th listing of a video
    (n counts the earlier listings of that video), the exit of yt-dlp, the
    audio files found afterwards, and the Whisper model. *)
Record simulation : Type := {
  catalogue : string -> nat -> result (transcript_list world);
  ytdlp : list string -> result unit;
  audio_files : list string;
  whisper : string -> result whisper_result;
  mkdir : string -> result unit
}.

Definition attempts (vid : string) (w : world) : nat :=
  count_occ string_dec (listed w) vid.

(** Two decimal digits, and six. *)
Definition digit (n : Z) : string :=
  String (Ascii.ascii_of_nat (48 + Z.to_nat (n mod 10))) EmptyString.

Definition two_digits (n : Z) : string := (digit (n / 10) ++ digit n)%string.

Definition six_digits (n : Z) : string :=
  (two_digits (n / 10000) ++ two_digits (n / 100) ++ two_digits n)%string.

(** [str(t)] for a timestamp of the first day of the epoch, where the
    simulated clock stays. *)
Definition str_of_time (t : Z) : string :=
  let seconds := (t / 1000000)%Z in
  let micros := (t mod 1000000)%Z in
  ("1970-01-01 " ++ two_digits (seconds / 3600) ++ ":"
     ++ two_digits (seconds / 60 mod 60) ++ ":" ++ two_digits (seconds mod 60)
     ++ (if (micros =? 0)%Z then "" else "." ++ six_digits micros))%string.

(** A listing takes 0.2 s, a fetch 0.3 s, a download 5 s, a transcription
    20 s; a sleep takes the time asked for. *)
Definition platform (sim : simulation) : Platform world :=
  {| utcnow := clock;
     time_sleep := fun seconds w =>
       advance (Qfloor (Qmult seconds (1000000 # 1))) w;
     list_transcripts := fun vid w =>
       (catalogue sim vid (attempts vid w),
        World (clock w + 200000) (vid :: listed w));
     format_transcript := join_lines;
     subprocess_run := fun cmd w => (ytdlp sim cmd, advance 5000000 w);
     path_exists := fun path _ => mem path (audio_files sim);
     whisper_transcribe := fun path w =>
       (whisper sim path, advance 20000000 w);
     make_dirs := fun path w => (mkdir sim path, w);
     str_of_datetime := str_of_time |}.

(** A transcript whose [fetch()] answers [segments]. *)
Definition transcript_of (language : string) (generated : bool)
  (segments : result (list segment)) : transcript world :=
  Transcript language generated (fun w => (segments, advance 300000 w)).

Definition said (text : string) : result (list segment) :=
  Ok [Segment text (0 # 1) (2 # 1)].

Definition manual_en := transcript_of "en" false (said "hello world").
Definition auto_en := transcript_of "en" true (said "hello there").
Definition manual_es := transcript_of "es" false (said "hola mundo").
Definition auto_es := transcript_of "es" true (said "hola a todos").
Definition manual_fr := transcript_of "fr" false (said "bonjour").

(** A manual English transcript without any segment. *)
Definition silent_en := transcript_of "en" false (Ok []).

Definition rate_limit : exn :=
  Exn TooManyRequests "YouTube is receiving too many requests".

(** The videos of the simulated channel:
    - A has a manual English transcript ("hello world");
    - B has only an auto Spanish transcript;
    - C is rate limited at its first listing and has an auto English
      transcript from the second listing on;
    - D has manual and auto transcripts in English, Spanish and French;
    - E has a manual English transcript with no segment;
    - F and G fail with two exceptions the program does not name;
    - H is rate limited at every listing;
    - every other video is unavailable. *)
Definition channel (vid : string) (earlier : nat)
  : result (transcript_list world) :=
  if String.eqb vid "A" then Ok (TranscriptList [manual_en] [])
  else if String.eqb vid "B" then Ok (TranscriptList [] [auto_es])
  else if String.eqb vid "C" then
    match earlier with
    | O => Raised rate_limit
    | S _ => Ok (TranscriptList [] [auto_en])
    end
  else if String.eqb vid "D" then
    Ok (TranscriptList [manual_fr; manual_es; manual_en] [auto_es; auto_en])
  else if String.eqb vid "E" then Ok (TranscriptList [silent_en] [])
  else if String.eqb vid "F" then
    Raised (Exn (OtherException "ConnectionError") "connection reset")
  else if String.eqb vid "G" then
    Raised (Exn (OtherException "ParseError") "no element found")
  else if String.eqb vid "H" then Raised rate_limit
  else Raised (Exn VideoUnavailable "The video is no longer available").

(** White space only: a space, a no-break space, a next-line control and a
    tab. *)
Definition blank : string :=
  String (Ascii.ascii_of_nat 32)
    (String (Ascii.ascii_of_nat 160)
       (String (Ascii.ascii_of_nat 133)
          (String (Ascii.ascii_of_nat 9) EmptyString))).

Definition studio : simulation :=
  {| catalogue := channel;
     ytdlp := fun _ => Ok tt;
     audio_files := ["data/audio/A.mp3"; "data/audio/B.m4a"];
     whisper := fun path =>
       if String.eqb path "data/audio/A.mp3"
       then Ok {| wr_text := Some " hello world "; wr_language := Some "en" |}
       else Ok {| wr_text := Some blank; wr_language := None |};
     mkdir := fun _ => Ok tt |}.

(** A channel whose every listing fails with an exception of another
    library that is also called [TooManyRequests]; it is not the class the
    program imports. *)
Definition lookalike : simulation :=
  {| catalogue := fun _ _ =>
       Raised (Exn (OtherException "TooManyRequests")
                 "429 Client Error: Too Many Requests");
     ytdlp := fun _ => Ok tt;
     audio_files := [];
     whisper := fun _ => Ok {| wr_text := None; wr_language := None |};
     mkdir := fun _ => Ok tt |}.

(** The studio on a file system where the audio directory cannot be made. *)
Definition read_only : simulation :=
  {| catalogue := channel;
     ytdlp := ytdlp studio;
     audio_files := audio_files studio;
     whisper := whisper studio;
     mkdir := fun _ =>
       Raised (Exn (OtherException "PermissionError")
                 "[Errno 13] Permission denied: 'data'") |}.

Definition start : world := World 0 [].

(** The three-video input of the scenario, as the [video_id] column. *)
Definition ABC : option (list (option string)) :=
  Some [Some "A"; Some "B"; Some "C"].

(** The row of a video in a checkpoint. *)
Definition row_of (vid : string) (df : DataFrame) : option dict :=
  find (fun row =>
          match video_id_of row with
          | Some s => String.eqb s vid
          | None => false
          end) df.

(** The checkpoint a run leaves on disk. *)
Definition checkpoint_after (sim : simulation) (w : world)
  (videos : option (list (option string))) (checkpoint : option DataFrame)
  : DataFrame :=
  match out_file (snd (run (P := platform sim) w videos checkpoint)) with
  | Some df => df
  | None => []
  end.

End Sim.

(** ** Vocabulary of the properties *)

(** *** What a trace shows *)

(** The videos whose transcripts were listed, one entry per attempt. *)
Fixpoint listings (tr : list event) : list string :=
  match tr with
  | [] => []
  | EvListTranscripts vid :: tr' => vid :: listings tr'
  | _ :: tr' => listings tr'
  end.

(** The pauses, in seconds. *)
Fixpoint sleeps (tr : list event) : list Q :=
  match tr with
  | [] => []
  | EvSleep seconds :: tr' => seconds :: sleeps tr'
  | _ :: tr' => sleeps tr'
  end.

(** The successive contents written to the checkpoint file. *)
Fixpoint writes (tr : list event) : list DataFrame :=
  match tr with
  | [] => []
  | EvToParquet df :: tr' => df :: writes tr'
  | _ :: tr' => writes tr'
  end.

(** [l1] is an initial part of [l2]: [l2] keeps every row of [l1], in place. *)
Definition prefix {A} (l1 l2 : list A) : Prop := exists more, l2 = l1 ++ more.

(** The rows of a checkpoint file, none when the file does not exist. *)
Definition rows_of (file : option DataFrame) : DataFrame :=
  match file with
  | Some df => df
  | None => []
  end.

(** *** The record of one result *)

Definition has_text (row : dict) : Prop :=
  get row "has_transcript" = Some (VBool true).

Definition lacks_text (row : dict) : Prop :=
  get row "has_transcript" = Some (VBool false).

Definition error_absent (row : dict) : Prop :=
  get row "error_type" = Some VNone.

Definition text_non_empty (row : dict) : Prop :=
  exists text, get row "transcript_text" = Some (VStr text) /\ text <> "".

Definition text_absent (row : dict) : Prop :=
  get row "transcript_text" = Some VNone.

(** The invariant of a result as the specification words it: text is marked
    present exactly when there is no error and the text is a non-empty
    string, and a result without text carries none. *)
Definition result_invariant (row : dict) : Prop :=
  (has_text row <-> error_absent row /\ text_non_empty row) /\
  (lacks_text row -> text_absent row).

(** The same with "the text is a string" for "the text is a non-empty
    string". *)
Definition result_shape (row : dict) : Prop :=
  (has_text row <->
   error_absent row /\ exists text, get row "transcript_text" = Some (VStr text)) /\
  (lacks_text row -> text_absent row).

(** The columns of a row of [fetch_one]. *)
Definition fetch_one_keys : list string :=
  [ "video_id"; "has_transcript"; "language_code"; "is_generated"; "source";
    "transcript_text"; "error_type"; "error_message"; "fetched_at_utc" ].

(** *** The four tiers of the selector, as the specification words them *)

Section Tiers.

Context {A B : Type}.

(** [b] is what [attempt] gives on the first element of the list on which it
    gives anything: first match wins, in list order. *)
Inductive first_hit (attempt : A -> option B) : list A -> B -> Prop :=
| hit_here : forall a l b,
    attempt a = Some b -> first_hit attempt (a :: l) b
| hit_later : forall a l b,
    attempt a = None -> first_hit attempt l b -> first_hit attempt (a :: l) b.

Definition no_hit (attempt : A -> option B) (l : list A) : Prop :=
  Forall (fun a => attempt a = None) l.

(** The first hit, computed. *)
Fixpoint first_some (attempt : A -> option B) (l : list A) : option B :=
  match l with
  | [] => None
  | a :: l' =>
      match attempt a with
      | Some b => Some b
      | None => first_some attempt l'
      end
  end.

End Tiers.

Section Select.

Variable Env : Type.
Variable tl : transcript_list Env.

Definition found (r : result (transcript Env)) : option (transcript Env) :=
  match r with
  | Ok t => Some t
  | Raised _ => None
  end.

(** The manual (resp. auto) transcript in language [lang], if the item has
    one. *)
Definition manual_in (lang : string) : option (transcript Env) :=
  found (find_manually_created_transcript tl [lang]).

Definition auto_in (lang : string) : option (transcript Env) :=
  found (find_generated_transcript tl [lang]).

(** The transcripts of the item in the order they are found; none when they
    cannot be enumerated. *)
Definition all_transcripts : list (transcript Env) :=
  match iter_transcripts tl with
  | Ok ts => ts
  | Raised _ => []
  end.

Definition if_manual (t : transcript Env) : option (transcript Env) :=
  if is_generated t then None else Some t.

Definition if_auto (t : transcript Env) : option (transcript Env) :=
  if is_generated t then Some t else None.

Inductive selects (preferred_languages : list string)
  : option (transcript Env) * option string -> Prop :=
| tier_1 : forall t,
    first_hit manual_in preferred_languages t ->
    selects preferred_languages (Some t, Some "manual")
| tier_2 : forall t,
    no_hit manual_in preferred_languages ->
    first_hit auto_in preferred_languages t ->
    selects preferred_languages (Some t, Some "auto")
| tier_3 : forall t,
    no_hit manual_in preferred_languages ->
    no_hit auto_in preferred_languages ->
    first_hit if_manual all_transcripts t ->
    selects preferred_languages (Some t, Some "manual")
| tier_4 : forall t,
    no_hit manual_in preferred_languages ->
    no_hit auto_in preferred_languages ->
    no_hit if_manual all_transcripts ->
    first_hit if_auto all_transcripts t ->
    selects preferred_languages (Some t, Some "auto")
| no_tier :
    no_hit manual_in preferred_languages ->
    no_hit auto_in preferred_languages ->
    no_hit if_manual all_transcripts ->
    no_hit if_auto all_transcripts ->
    selects preferred_languages (None, None).

End Select.

(** *** The error kinds of the specification *)

Inductive error_kind : Type :=
| transcripts_disabled
| no_transcript_found
| item_unavailable
| rate_limited
| unknown.

(** The classifier as the specification words it: the four named failures,
    and [unknown] for anything else. *)
Definition classify (e : exn) : error_kind :=
  match exn_type e with
  | TooManyRequests => rate_limited
  | TranscriptsDisabled => transcripts_disabled
  | NoTranscriptFound => no_transcript_found
  | VideoUnavailable => item_unavailable
  | OtherException _ => unknown
  end.

(** *** The five ways one attempt at a video can go *)

Section Outcomes.

Context {Env : Type} {P : Platform Env}.

(** [fetch_outcome video_id langs sleep_s s row s'] reads: from state [s] the
    attempt produces [row] and leaves state [s'].  The clock is the one of
    [s]. *)
Inductive fetch_outcome (video_id : string) (preferred_langs : list string)
  (sleep_s : Q) (s : State Env) : dict -> State Env -> Prop :=
| listing_raised : forall e w,
    list_transcripts video_id (env s) = (Raised e, w) ->
    fetch_outcome video_id preferred_langs sleep_s s
      (failure_row video_id (type_name e) (exn_str e) (utcnow (env s)))
      (with_env s w [EvListTranscripts video_id])
| nothing_usable : forall tlist w source,
    list_transcripts video_id (env s) = (Ok tlist, w) ->
    pick_transcript tlist preferred_langs = Ok (None, source) ->
    fetch_outcome video_id preferred_langs sleep_s s
      (failure_row video_id "NoTranscriptFound" "No usable transcript found"
         (utcnow (env s)))
      (with_env s w [EvListTranscripts video_id])
| fetch_raised : forall tlist w chosen source e w',
    list_transcripts video_id (env s) = (Ok tlist, w) ->
    pick_transcript tlist preferred_langs = Ok (Some chosen, source) ->
    fetch chosen w = (Raised e, w') ->
    fetch_outcome video_id preferred_langs sleep_s s
      (failure_row video_id (type_name e) (exn_str e) (utcnow (env s)))
      (with_env s w'
         [EvListTranscripts video_id;
          EvFetch (language_code chosen) (is_generated chosen)])
| sleep_raised : forall tlist w chosen source segments w',
    list_transcripts video_id (env s) = (Ok tlist, w) ->
    pick_transcript tlist preferred_langs = Ok (Some chosen, source) ->
    fetch chosen w = (Ok segments, w') ->
    Qle_bool 0 sleep_s = false ->
    fetch_outcome video_id preferred_langs sleep_s s
      (failure_row video_id "ValueError" "sleep length must be non-negative"
         (utcnow (env s)))
      (with_env s w'
         [EvListTranscripts video_id;
          EvFetch (language_code chosen) (is_generated chosen)])
| fetched : forall tlist w chosen source segments w',
    list_transcripts video_id (env s) = (Ok tlist, w) ->
    pick_transcript tlist preferred_langs = Ok (Some chosen, source) ->
    fetch chosen w = (Ok segments, w') ->
    Qle_bool 0 sleep_s = true ->
    fetch_outcome video_id preferred_langs sleep_s s
      (success_row video_id chosen source (format_transcript segments)
         (utcnow (env s)))
      (with_env s (time_sleep sleep_s w')
         [EvListTranscripts video_id;
          EvFetch (language_code chosen) (is_generated chosen);
          EvSleep sleep_s]).

End Outcomes.

(** *** What the driver does after an attempt *)

Section AfterAttempt.

Context {Env : Type} {P : Platform Env}.

(** The cool-down: a pause of 60 seconds when the row is rate limited,
    nothing otherwise. *)
Definition after_pause (rec : dict) (s : State Env) : State Env :=
  if is_rate_limited rec then snd (sleep (60 # 1)%Q s) else s.

(** The periodic flush: the loaded checkpoint and all rows so far are
    written when the number of rows is a positive multiple of 100. *)
Definition after_checkpoint (existing : option DataFrame) (rows : list dict)
  (s : State Env) : State Env :=
  if checkpoint_due rows
  then snd (to_parquet (concat_existing existing rows) s)
  else s.

End AfterAttempt.

(** The pauses of 60 seconds among the pauses of a trace. *)
Definition cooldowns (tr : list event) : list Q :=
  filter (fun seconds => Qeq_bool seconds (60 # 1)%Q) (sleeps tr).

(** The work list: the input minus the videos already in the checkpoint, in
    input order. *)
Definition work_list (done_ids video_ids : list string) : list string :=
  filter (fun vid => negb (mem vid done_ids)) video_ids.

(** What holds of the rows and the state while the loop runs, from a state
    [s0] in which nothing was written yet. *)
Definition loop_invariant (existing : option DataFrame)
  {Env : Type} (done_ids : list string) (s0 : State Env)
  (gone : list string) (rows : list dict) (s : State Env) : Prop :=
  videos_file s = videos_file s0 /\
  video_id_column rows = work_list done_ids gone /\
  listings (trace s) = listings (trace s0) ++ video_id_column rows /\
  cooldowns (trace s)
  = cooldowns (trace s0)
    ++ map (fun _ => (60 # 1)%Q) (filter is_rate_limited rows) /\
  StronglySorted prefix (writes (trace s)) /\
  Forall (fun df => prefix (rows_of existing) df /\
                    prefix df (concat_existing existing rows))
    (writes (trace s)) /\
  Forall (fun row => result_shape row /\ keys row = fetch_one_keys /\
                     video_id_of row <> None) rows.

(** ** The driver of src/02b_whisper_transcribe.py

    In this process [videos_file] is [VIDEOS_PATH] and [out_file] is the
    [OUT_PATH] of the script, data/raw/whisper_transcripts.parquet. *)

Module WhisperMain.

Definition MAX_VIDEOS : nat := 10.

(** [whisper.load_model(name)], which may fail (the weights are downloaded on
    first use). *)
Class Loader (Env : Type) : Type := {
  load_model : string -> Env -> result unit * Env
}.

Section Driver.

Context {Env : Type} {P : Platform Env} {L : Loader Env}.

Definition whisper_load_model (name : string) : M Env unit :=
  fun s =>
    let '(r, e) := load_model name (env s) in
    (r, mkState e (videos_file s) (out_file s) (trace s)).

(** [len(rows) > 0 and len(rows) % 5 == 0] *)
Definition checkpoint_due (rows : list dict) : bool :=
  ((0 <? length rows) && (length rows mod 5 =? 0))%nat.

(** One iteration for a video that is not in [done]; the result is [rows]
    after the append. *)
Definition process_video (existing : option DataFrame) (rows : list dict)
  (vid : string) : M Env (list dict) :=
  row <- Whisper.transcribe_video vid ;;
  let rows := rows ++ [row] in
  (if checkpoint_due rows then to_parquet (concat_existing existing rows)
   else ret tt) ;;;
  ret rows.

Fixpoint main_loop (existing : option DataFrame) (done : list string)
  (video_ids : list string) (rows : list dict) : M Env (list dict) :=
  match video_ids with
  | [] => ret rows
  | vid :: rest =>
      if mem vid done then main_loop existing done rest rows
      else
        rows' <- process_video existing rows vid ;;
        main_loop existing done rest rows'
  end.

(** As in the other driver, [os.makedirs("data/raw", exist_ok=True)] finds
    the directory the list of videos was read from. *)
Definition main : M Env unit :=
  fun s =>
    match videos_file s with
    | None =>
        raise (RuntimeError
          "Missing video metadata parquet. Run src/01_pull_youtube.py first.")
          s
    | Some column =>
        let video_ids := firstn MAX_VIDEOS (unique (dropna column)) in
        (whisper_load_model Whisper.WHISPER_MODEL ;;;
         (fun s' =>
            let existing := out_file s' in
            (done <- lift (load_done_ids existing) ;;
             rows <- main_loop existing done video_ids [] ;;
             to_parquet (concat_existing existing rows)) s')) s
    end.

(** A process started in world [e] on the two files. *)
Definition run (e : Env) (videos : option (list (option string)))
  (checkpoint : option DataFrame) : result unit * State Env :=
  main (mkState e videos checkpoint []).

End Driver.

(** The command line of the download of a video. *)
Definition download_command (video_id : string) : list string :=
  [ "yt-dlp"; "-x"; "--audio-format"; "mp3"; "-o";
    Whisper.audio_file video_id "%(ext)s";
    ("https://www.youtube.com/watch?v=" ++ video_id)%string ].

(** The candidate audio files of a video, in the order they are looked
    for. *)
Definition candidates (video_id : string) : list string :=
  map (Whisper.audio_file video_id) ["mp3"; "m4a"; "webm"; "opus"].

End WhisperMain.

(** The commands run as subprocesses, one per download. *)
Fixpoint subprocesses (tr : list event) : list (list string) :=
  match tr with
  | [] => []
  | EvSubprocess cmd :: tr' => cmd :: subprocesses tr'
  | _ :: tr' => subprocesses tr'
  end.

(** The audio files handed to the model. *)
Fixpoint transcriptions (tr : list event) : list string :=
  match tr with
  | [] => []
  | EvTranscribe path :: tr' => path :: transcriptions tr'
  | _ :: tr' => transcriptions tr'
  end.

(** The pause the text-source driver makes after a row: the inter-item delay
    after a row with text, the cool-down after a rate-limited row, none after
    any other row. *)
Definition pause_after (row : dict) : list Q :=
  match get row "has_transcript" with
  | Some (VBool true) => [(15 # 100)%Q]
  | _ => if is_rate_limited row then [(60 # 1)%Q] else []
  end.

(** The file at [path] if it exists in world [e]. *)
Definition existing_file {Env : Type} {P : Platform Env} (e : Env)
  (path : string) : option string :=
  if path_exists path e then Some path else None.

(** A Whisper model that loads in three seconds. *)
Definition Sim_loader : WhisperMain.Loader Sim.world :=
  {| WhisperMain.load_model := fun _ w => (Ok tt, Sim.advance 3000000 w) |}.

(** Twelve videos, with a repetition and a missing entry among the first. *)
Definition Sim_twelve : list (option string) :=
  [ Some "A"; Some "B"; Some "A"; None; Some "C"; Some "D"; Some "E";
    Some "F"; Some "G"; Some "H"; Some "I"; Some "J"; Some "K"; Some "L" ].

(** ** src/01_pull_youtube.py

    Among the Latin-1 characters the decimal digits are ['0'] to ['9'].
    [int] on a string of digits is its decimal value, and it refuses a string
    of more than 4300 digits (the interpreter's default limit). *)

Module PullYoutube.

Import Ascii.

(** A value of a parsed JSON response (the responses of these endpoints
    carry no floating-point number). *)
#[warnings="-register-all"]
Inductive json : Type :=
| JNull
| JBool (b : bool)
| JInt (n : Z)
| JStr (s : string)
| JList (items : list json)
| JDict (fields : list (string * json)).

Definition jdict := list (string * json).

(** [d.get(key, default)] on a dict. *)
Fixpoint dict_get (d : jdict) (key : string) (default : json) : json :=
  match d with
  | [] => default
  | (k, v) :: d' => if String.eqb k key then v else dict_get d' key default
  end.

(** [bool(x)] *)
Definition truth (x : json) : bool :=
  match x with
  | JNull => false
  | JBool b => b
  | JInt n => negb (n =? 0)%Z
  | JStr s => truthy s
  | JList items => match items with [] => false | _ => true end
  | JDict fields => match fields with [] => false | _ => true end
  end.

(** *** iso8601_duration_to_seconds *)

Definition isdigit (c : Ascii.ascii) : bool :=
  let n := Ascii.nat_of_ascii c in ((48 <=? n) && (n <=? 57))%nat.

(** The longest run of digits at the head of [s], and what follows it. *)
Fixpoint span_digits (s : string) : string * string :=
  match s with
  | EmptyString => (EmptyString, EmptyString)
  | String c s' =>
      if isdigit c
      then let '(ds, rest) := span_digits s' in (String c ds, rest)
      else (EmptyString, s)
  end.

(** The decimal value of a string of digits, after the digits whose value
    is [acc]. *)
Fixpoint decimal_value (acc : Z) (ds : string) : Z :=
  match ds with
  | EmptyString => acc
  | String c ds' =>
      decimal_value (10 * acc + (Z.of_nat (Ascii.nat_of_ascii c) - 48))%Z ds'
  end.

(** [sys.get_int_max_str_digits()], by default. *)
Definition MAX_STR_DIGITS : nat := 4300.

Definition decimal (n : nat) : string :=
  NilEmpty.string_of_uint (Nat.to_uint n).

(** [int(ds)] for a string of digits. *)
Definition int_digits (ds : string) : result Z :=
  if (MAX_STR_DIGITS <? String.length ds)%nat
  then Raised (ValueError
                 ("Exceeds the limit (4300 digits) for integer string conversion: value has "
                    ++ decimal (String.length ds)
                    ++ " digits; use sys.set_int_max_str_digits() to increase the limit"))
  else Ok (decimal_value 0 ds).

(** One optional group [(?:(\d+)U)?] at the head of [s]: what the group
    captured and what is left to match. *)
Definition optional_group (unit : Ascii.ascii) (s : string)
  : option string * string :=
  let '(ds, rest) := span_digits s in
  match ds, rest with
  | String _ _, String c rest' =>
      if Ascii.eqb c unit then (Some ds, rest') else (None, s)
  | _, _ => (None, s)
  end.

Definition LF : Ascii.ascii := Ascii.ascii_of_nat 10.

(** [$]: the end of the string, or just before a newline that ends it. *)
Definition at_end (s : string) : bool :=
  match s with
  | EmptyString => true
  | String c EmptyString => Ascii.eqb c LF
  | _ => false
  end.

(** [re.match(r"^PT(?:(\d+)H)?(?:(\d+)M)?(?:(\d+)S)?$", duration)]: the three
    groups of the match, [None] when there is no match. *)
Definition match_duration (duration : string)
  : option (option string * option string * option string) :=
  match duration with
  | String c1 (String c2 s0) =>
      if (Ascii.eqb c1 "P"%char && Ascii.eqb c2 "T"%char)%bool then
        let '(h, s1) := optional_group "H"%char s0 in
        let '(mins, s2) := optional_group "M"%char s1 in
        let '(sec, s3) := optional_group "S"%char s2 in
        if at_end s3 then Some (h, mins, sec) else None
      else None
  | _ => None
  end.

(** [int(m.group(i) or 0)] *)
Definition group_or_0 (group : option string) : result Z :=
  match group with
  | Some ds => int_digits ds
  | None => Ok 0%Z
  end.

Definition iso8601_duration_to_seconds (duration : json) : result (option Z) :=
  match duration with
  | JStr text =>
      if truthy text then
        match match_duration text with
        | Some (g1, g2, g3) =>
            match group_or_0 g1 with Raised e => Raised e
            | Ok h =>
            match group_or_0 g2 with Raised e => Raised e
            | Ok mins =>
            match group_or_0 g3 with Raised e => Raised e
            | Ok s => Ok (Some (h * 3600 + mins * 60 + s)%Z)
            end end end
        | None => Ok None
        end
      else Ok None
  | _ => Ok None
  end.

(** *** The durations the function accepts, said without the parser *)

Definition chars (s : string) : list Ascii.ascii := list_ascii_of_string s.

(** A non-empty string of digits. *)
Definition number (ds : string) : Prop :=
  ds <> EmptyString /\ Forall (fun c => isdigit c = true) (chars ds).

(** The text of one component: nothing, or a number and its unit. *)
Definition component (unit : Ascii.ascii) (group : option string) : string :=
  match group with
  | Some ds => (ds ++ String unit EmptyString)%string
  | None => EmptyString
  end.

Definition component_ok (group : option string) : Prop :=
  match group with
  | Some ds => number ds
  | None => True
  end.

(** The number a component stands for, 0 when it is missing. *)
Definition component_value (group : option string) : Z :=
  match group with
  | Some ds => decimal_value 0 ds
  | None => 0%Z
  end.

(** The component has no more digits than [int] converts. *)
Definition component_short (group : option string) : Prop :=
  match group with
  | Some ds => (String.length ds <= MAX_STR_DIGITS)%nat
  | None => True
  end.

(** [text] is PT, then optional hours, minutes and seconds in this order,
    then nothing or one newline. *)
Definition duration_text (text : string) (h mins s : option string) : Prop :=
  component_ok h /\ component_ok mins /\ component_ok s /\
  exists tail,
    (tail = EmptyString \/ tail = String LF EmptyString) /\
    text = ("PT" ++ component "H"%char h ++ component "M"%char mins
                 ++ component "S"%char s ++ tail)%string.

End PullYoutube.

(** ** src/01_pull_youtube.py: the calls to the YouTube Data API *)

Module YouTubeApi.

Import PullYoutube.

Definition TypeError (msg : string) : exn :=
  Exn (OtherException "TypeError") msg.

Definition KeyError (key : string) : exn := Py.KeyError key.

Definition AttributeError (msg : string) : exn :=
  Exn (OtherException "AttributeError") msg.

Fixpoint dict_lookup (d : jdict) (key : string) : option json :=
  match d with
  | [] => None
  | (k, v) :: d' => if String.eqb k key then Some v else dict_lookup d' key
  end.

(** [x[key]] for a string [key]. *)
Definition getitem (x : json) (key : string) : result json :=
  match x with
  | JDict fields =>
      match dict_lookup fields key with
      | Some v => Ok v
      | None => Raised (KeyError key)
      end
  | JList _ =>
      Raised (TypeError "list indices must be integers or slices, not str")
  | JStr _ => Raised (TypeError "string indices must be integers, not 'str'")
  | JNull => Raised (TypeError "'NoneType' object is not subscriptable")
  | JBool _ => Raised (TypeError "'bool' object is not subscriptable")
  | JInt _ => Raised (TypeError "'int' object is not subscriptable")
  end.

(** [for it in x]: the elements of a list, the keys of a dict, the
    characters of a string. *)
Definition iterate (x : json) : result (list json) :=
  match x with
  | JList items => Ok items
  | JDict fields => Ok (map (fun kv => JStr (fst kv)) fields)
  | JStr s => Ok (map (fun c => JStr (String c EmptyString)) (chars s))
  | JNull => Raised (TypeError "'NoneType' object is not iterable")
  | JBool _ => Raised (TypeError "'bool' object is not iterable")
  | JInt _ => Raised (TypeError "'int' object is not iterable")
  end.

(** A request built with [youtube.<resource>().list(...)]. *)
Inductive request : Type :=
| SearchList (part q type : string) (maxResults : nat)
| ChannelsList (part id : string) (maxResults : nat)
| PlaylistItemsList (part playlistId : string) (maxResults : nat)
    (pageToken : json)
| VideosList (part id : string) (maxResults : nat).

(** [request.execute()]: the parsed response, or the exception of the HTTP
    client. *)
Class Api (Env : Type) : Type := {
  execute : request -> Env -> result jdict * Env
}.

(** The world and the requests executed so far. *)
Record Session (Env : Type) : Type := mkSession {
  world : Env;
  requests : list request
}.
Arguments mkSession {Env} world requests.

Definition Y (Env A : Type) : Type := Session Env -> result A * Session Env.

Definition yret {Env A} (a : A) : Y Env A := fun s => (Ok a, s).

Definition ybind {Env A B} (m : Y Env A) (k : A -> Y Env B) : Y Env B :=
  fun s =>
    match m s with
    | (Ok a, s') => k a s'
    | (Raised e, s') => (Raised e, s')
    end.

Notation "x <~ m ;; k" := (ybind m (fun x => k))
  (at level 61, m at next level, right associativity).

Definition ylift {Env A} (r : result A) : Y Env A := fun s => (r, s).

(** [for x in xs: out.append(f(x))], stopping at the first exception. *)
Fixpoint collect {A B} (f : A -> result B) (xs : list A) : result (list B) :=
  match xs with
  | [] => Ok []
  | x :: xs' =>
      match f x with
      | Raised e => Raised e
      | Ok b =>
          match collect f xs' with
          | Raised e => Raised e
          | Ok bs => Ok (b :: bs)
          end
      end
  end.

Section Calls.

Context {Env : Type} {A : Api Env}.

Definition run_request (r : request) : Y Env jdict :=
  fun s =>
    let '(resp, w) := execute r (world s) in
    (resp, mkSession w (requests s ++ [r])).

(** *** list_playlist_video_ids *)

(** [it["contentDetails"]["videoId"]] *)
Definition video_id_of_item (it : json) : result json :=
  match getitem it "contentDetails" with
  | Ok details => getitem details "videoId"
  | Raised e => Raised e
  end.

(** The [while True] loop, with the ids gathered so far and the token of the
    page to ask for; [None] when [fuel] pages were not enough. *)
Fixpoint playlist_pages (fuel : nat) (playlist_id : string)
  (ids : list json) (next_page_token : json) : Y Env (option (list json)) :=
  match fuel with
  | O => yret None
  | S fuel' =>
      resp <~ run_request
                (PlaylistItemsList "contentDetails" playlist_id 50
                   next_page_token) ;;
      items <~ ylift (iterate (dict_get resp "items" (JList []))) ;;
      new_ids <~ ylift (collect video_id_of_item items) ;;
      let ids := ids ++ new_ids in
      let next_page_token := dict_get resp "nextPageToken" JNull in
      if negb (truth next_page_token) then yret (Some ids)
      else playlist_pages fuel' playlist_id ids next_page_token
  end.

Definition list_playlist_video_ids (fuel : nat) (playlist_id : string)
  : Y Env (option (list json)) :=
  playlist_pages fuel playlist_id [] JNull.

End Calls.

(** *** A playlist served in pages *)

(** The token of the k-th page: k letters. *)
Fixpoint token (k : nat) : string :=
  match k with
  | O => EmptyString
  | S k' => String (Ascii.ascii_of_nat 120) (token k')
  end.

Definition page_of_token (page_token : json) : nat :=
  match page_token with
  | JStr t => String.length t
  | _ => 0
  end.

Definition playlist_item (video_id : string) : json :=
  JDict [ ("kind", JStr "youtube#playlistItem");
          ("contentDetails", JDict [("videoId", JStr video_id)]) ].

(** The response for page k of [pages]: its items, and the token of the next
    page unless it is the last. *)
Definition page_response (pages : list (list string)) (k : nat) : jdict :=
  ("items", JList (map playlist_item (nth k pages [])))
  :: (if (S k <? length pages)%nat
      then [("nextPageToken", JStr (token (S k)))]
      else []).

(** A server that serves one playlist in the pages [pages] and counts the
    requests it answers. *)
Definition paged_server (pages : list (list string)) : Api nat :=
  {| execute := fun r count =>
       match r with
       | PlaylistItemsList _ _ _ page_token =>
           (Ok (page_response pages (page_of_token page_token)), S count)
       | _ => (Ok [], S count)
       end |}.

(** A server whose every page announces a next page. *)
Definition endless_server : Api nat :=
  {| execute := fun _ count =>
       (Ok [ ("items", JList [playlist_item "v"]);
             ("nextPageToken", JStr "more") ], S count) |}.

(** The token the loop sends for page k: none for the first page. *)
Definition sent (k : nat) : json :=
  match k with
  | O => JNull
  | S _ => JStr (token k)
  end.

(** The requests of a listing of [n] pages. *)
Definition page_requests (playlist_id : string) (n : nat) : list request :=
  map (fun k => PlaylistItemsList "contentDetails" playlist_id 50 (sent k))
    (seq 0 n).

End YouTubeApi.

(** ** src/01_pull_youtube.py: fetch_video_details *)

Module VideoDetails.

Import Ascii PullYoutube YouTubeApi.

(** A cell of the frame of videos. *)
Inductive cell : Type :=
| CNone
| CJson (x : json)
| CInt (n : Z)
| CTime (t : datetime)
| CStr (s : string).

Definition row := list (string * cell).

(** The builtins whose result the function only passes on:
    [datetime.fromisoformat(s)], [int(x)], the formatting of a value in an
    f-string, and [DataFrame.sort_values(by).reset_index(drop=True)] on a
    frame that has the column. *)
Class Python : Type := {
  fromisoformat : string -> result datetime;
  int_of : json -> result Z;
  format_of : json -> string;
  sort_values : string -> list row -> list row
}.

Definition type_of (x : json) : string :=
  match x with
  | JNull => "NoneType"
  | JBool _ => "bool"
  | JInt _ => "int"
  | JStr _ => "str"
  | JList _ => "list"
  | JDict _ => "dict"
  end.

(** [x.get(key, default)]: only a dict has the method. *)
Definition get_method (x : json) (key : string) (default : json)
  : result json :=
  match x with
  | JDict fields => Ok (dict_get fields key default)
  | _ =>
      Raised (AttributeError
                ("'" ++ type_of x ++ "' object has no attribute 'get'")%string)
  end.

(** [s.replace("Z", "+00:00")] *)
Fixpoint replace_Z (s : string) : string :=
  match s with
  | EmptyString => EmptyString
  | String c s' =>
      if Ascii.eqb c "Z" then ("+00:00" ++ replace_Z s')%string
      else String c (replace_Z s')
  end.

(** [key in x] *)
Definition contains (x : json) (key : string) : result bool :=
  match x with
  | JDict fields =>
      Ok (match dict_lookup fields key with Some _ => true | None => false end)
  | JList items =>
      Ok (existsb (fun it => match it with
                             | JStr s => String.eqb s key
                             | _ => false
                             end) items)
  | JStr s =>
      Ok (match String.index 0 key s with Some _ => true | None => false end)
  | _ =>
      Raised (TypeError
                ("argument of type '" ++ type_of x ++ "' is not iterable")%string)
  end.

Section Rows.

Context {Py : Python}.

(** [datetime.fromisoformat(published_at.replace("Z", "+00:00"))
     if published_at else None] *)
Definition published_dt (published_at : json) : result cell :=
  if truth published_at then
    match published_at with
    | JStr s =>
        match fromisoformat (replace_Z s) with
        | Ok t => Ok (CTime t)
        | Raised e => Raised e
        end
    | _ =>
        Raised (AttributeError
                  ("'" ++ type_of published_at
                       ++ "' object has no attribute 'replace'")%string)
    end
  else Ok CNone.

(** [int(stats[key]) if key in stats else None] *)
Definition count_cell (stats : json) (key : string) : result cell :=
  match contains stats key with
  | Raised e => Raised e
  | Ok false => Ok CNone
  | Ok true =>
      match getitem stats key with
      | Raised e => Raised e
      | Ok v =>
          match int_of v with
          | Ok n => Ok (CInt n)
          | Raised e => Raised e
          end
      end
  end.

Definition cell_of_seconds (seconds : option Z) : cell :=
  match seconds with
  | Some n => CInt n
  | None => CNone
  end.

(** The body of the inner loop: the row of one item of a response. *)
Definition video_row (it : json) : result row :=
  match get_method it "snippet" (JDict []) with Raised e => Raised e
  | Ok snippet =>
  match get_method it "contentDetails" (JDict []) with Raised e => Raised e
  | Ok content =>
  match get_method it "statistics" (JDict []) with Raised e => Raised e
  | Ok stats =>
  match get_method snippet "publishedAt" JNull with Raised e => Raised e
  | Ok published_at =>
  match published_dt published_at with Raised e => Raised e
  | Ok published =>
  match get_method content "duration" JNull with Raised e => Raised e
  | Ok duration =>
  match iso8601_duration_to_seconds duration with Raised e => Raised e
  | Ok duration_seconds =>
  match get_method it "id" JNull with Raised e => Raised e
  | Ok vid =>
  match get_method snippet "title" JNull with Raised e => Raised e
  | Ok title =>
  match get_method snippet "description" JNull with Raised e => Raised e
  | Ok description =>
  match get_method snippet "channelId" JNull with Raised e => Raised e
  | Ok channel_id =>
  match get_method snippet "channelTitle" JNull with Raised e => Raised e
  | Ok channel_title =>
  match count_cell stats "viewCount" with Raised e => Raised e
  | Ok view_count =>
  match count_cell stats "likeCount" with Raised e => Raised e
  | Ok like_count =>
  match count_cell stats "commentCount" with Raised e => Raised e
  | Ok comment_count =>
    Ok [ ("video_id", CJson vid);
         ("title", CJson title);
         ("description", CJson description);
         ("published_at", published);
         ("channel_id", CJson channel_id);
         ("channel_title", CJson channel_title);
         ("duration_iso8601", CJson duration);
         ("duration_seconds", cell_of_seconds duration_seconds);
         ("view_count", view_count);
         ("like_count", like_count);
         ("comment_count", comment_count);
         ("url",
          if truth vid
          then CStr ("https://www.youtube.com/watch?v=" ++ format_of vid)%string
          else CNone) ]
  end end end end end end end end end end end end end end end.

(** [range(0, n, 50)] *)
Definition batch_starts (n : nat) : list nat :=
  map (fun k => k * 50)%nat (seq 0 ((n + 49) / 50)).

(** [l[i:j]] for [i <= j]. *)
Definition slice {T} (l : list T) (i j : nat) : list T :=
  firstn (j - i) (skipn i l).

Definition videos_request (batch : list string) : request :=
  VideosList "snippet,contentDetails,statistics" (String.concat "," batch) 50.

Context {Env : Type} {A : Api Env}.

(** The outer loop over the starts of the batches, with the rows so far. *)
Fixpoint fetch_batches (video_ids : list string) (starts : list nat)
  (rows : list row) : Y Env (list row) :=
  match starts with
  | [] => yret rows
  | i :: rest =>
      let batch := slice video_ids i (i + 50) in
      resp <~ run_request (videos_request batch) ;;
      items <~ ylift (iterate (dict_get resp "items" (JList []))) ;;
      new_rows <~ ylift (collect video_row items) ;;
      fetch_batches video_ids rest (rows ++ new_rows)
  end.

(** [pd.DataFrame(rows)] has no column when [rows] is empty, and sorting it
    by a column raises [KeyError]. *)
Definition fetch_video_details (video_ids : list string) : Y Env (list row) :=
  rows <~ fetch_batches video_ids (batch_starts (length video_ids)) [] ;;
  match rows with
  | [] => ylift (Raised (KeyError "published_at"))
  | _ => yret (sort_values "published_at" rows)
  end.

End Rows.

(** The batches of ids the function asks for, one per request. *)
Definition batches (video_ids : list string) : list (list string) :=
  map (fun i => slice video_ids i (i + 50))
    (batch_starts (length video_ids)).

(** A server that knows no video: every response is without items. *)
Definition empty_server : Api nat :=
  {| execute := fun _ count => (Ok [("items", JList [])], S count) |}.


End VideoDetails.


(** [lstrip] on the characters of a string. *)
Fixpoint drop_spaces (l : list Ascii.ascii) : list Ascii.ascii :=
  match l with
  | [] => []
  | c :: l' => if Whisper.isspace c then drop_spaces l' else l
  end.



(** [l] is [l'] with some elements left out. *)
Inductive subsequence {A : Type} : list A -> list A -> Prop :=
| subsequence_none : subsequence [] []
| subsequence_take : forall x l l',
    subsequence l l' -> subsequence (x :: l) (x :: l')
| subsequence_skip : forall x l l',
    subsequence l l' -> subsequence l (x :: l').

(** What holds of the rows and the state while the loop of the Whisper
    driver runs. *)
Definition whisper_invariant {Env : Type} {P : Platform Env}
  (done : list string) (s0 : State Env)
  (gone : list string) (rows : list dict) (s : State Env) : Prop :=
  videos_file s = videos_file s0 /\
  video_id_column rows = work_list done gone /\
  length rows = length (work_list done gone) /\
  (exists downloaded,
     subprocesses (trace s)
     = subprocesses (trace s0) ++ map WhisperMain.download_command downloaded /\
     subsequence downloaded (work_list done gone)) /\
  ((forall path w, fst (make_dirs path w) = Ok tt) ->
   subprocesses (trace s)
   = subprocesses (trace s0)
     ++ map WhisperMain.download_command (work_list done gone)) /\
  Forall result_invariant rows /\
  Forall (fun row => video_id_of row <> None) rows.

(** The state in which the Whisper driver loads its checkpoint. *)
Definition loaded_state {Env : Type} {L : WhisperMain.Loader Env}
  (e : Env) (column : list (option string))
  (checkpoint : option DataFrame) : State Env :=
  mkState (snd (WhisperMain.load_model Whisper.WHISPER_MODEL e))
    (Some column) checkpoint [].

(** * Properties *)

(** ** The selector *)

Section TierLemmas.

Context {A B : Type}.
Variable attempt : A -> option B.

Lemma first_hit_first_some : forall l b,
  first_hit attempt l b <-> first_some attempt l = Some b.
Proof.
  induction l as [|a l IH]; intros b; simpl.
  - split; [inversion 1 | discriminate].
  - split.
    + inversion 1 as [? ? ? Ha|? ? ? Ha Hl]; subst; rewrite Ha.
      * reflexivity.
      * now apply IH.
    + destruct (attempt a) as [b'|] eqn:Ha; intros Hb.
      * injection Hb as ->. now apply hit_here.
      * apply hit_later; [assumption | now apply IH].
Qed.

Lemma no_hit_first_some : forall l,
  no_hit attempt l <-> first_some attempt l = None.
Proof.
  unfold no_hit. induction l as [|a l IH]; simpl.
  - split; [reflexivity | constructor].
  - split.
    + inversion 1 as [|? ? Ha Hl]; subst. rewrite Ha. now apply IH.
    + destruct (attempt a) eqn:Ha; [discriminate|].
      intros Hl. constructor; [assumption | now apply IH].
Qed.

Lemma first_hit_functional : forall l b b',
  first_hit attempt l b -> first_hit attempt l b' -> b = b'.
Proof.
  intros l b b' H H'.
  apply first_hit_first_some in H, H'. congruence.
Qed.

Lemma first_hit_excludes_no_hit : forall l b,
  first_hit attempt l b -> no_hit attempt l -> False.
Proof.
  intros l b H H'.
  apply first_hit_first_some in H. apply no_hit_first_some in H'. congruence.
Qed.

End TierLemmas.

Section SelectorLemmas.

Variable Env : Type.
Variable tl : transcript_list Env.

Lemma first_found_manual : forall langs,
  first_found (find_manually_created_transcript tl) langs
  = first_some (manual_in tl) langs.
Proof.
  induction langs as [|lang langs IH]; simpl; [reflexivity|].
  unfold manual_in at 1.
  destruct (find_manually_created_transcript tl [lang]); simpl; auto.
Qed.

Lemma first_found_auto : forall langs,
  first_found (find_generated_transcript tl) langs
  = first_some (auto_in tl) langs.
Proof.
  induction langs as [|lang langs IH]; simpl; [reflexivity|].
  unfold auto_in at 1.
  destruct (find_generated_transcript tl [lang]); simpl; auto.
Qed.

Lemma filter_head_first_some : forall (keep : transcript Env -> bool) ts,
  match filter keep ts with
  | t :: _ => Some t
  | [] => None
  end = first_some (fun t => if keep t then Some t else None) ts.
Proof.
  induction ts as [|t ts IH]; simpl; [reflexivity|].
  destruct (keep t); simpl; auto.
Qed.

Lemma first_listed_manual :
  first_listed tl (fun t => negb (is_generated t))
  = first_some (@if_manual Env) (all_transcripts tl).
Proof.
  unfold first_listed, all_transcripts.
  destruct (iter_transcripts tl) as [ts|e]; [|reflexivity].
  rewrite filter_head_first_some.
  induction ts as [|t ts IH]; simpl; [reflexivity|].
  unfold if_manual at 1. destruct (is_generated t); simpl; auto.
Qed.

Lemma first_listed_auto :
  first_listed tl (fun t => is_generated t)
  = first_some (@if_auto Env) (all_transcripts tl).
Proof.
  unfold first_listed, all_transcripts.
  destruct (iter_transcripts tl) as [ts|e]; [|reflexivity].
  now rewrite filter_head_first_some.
Qed.

(** [pick_transcript] catches every exception of the lookups and of the
    iteration: it always returns. *)
Lemma pick_transcript_returns : forall langs,
  exists picked, pick_transcript tl langs = Ok picked.
Proof.
  intros langs. unfold pick_transcript.
  repeat match goal with
         | |- context [match ?x with Some _ => _ | None => _ end] => destruct x
         end; eexists; reflexivity.
Qed.

Lemma pick_transcript_selects : forall langs picked,
  pick_transcript tl langs = Ok picked -> selects tl langs picked.
Proof.
  intros langs picked. unfold pick_transcript.
  rewrite first_found_manual, first_found_auto,
    first_listed_manual, first_listed_auto.
  destruct (first_some (manual_in tl) langs) as [t1|] eqn:H1.
  { intros [= <-]. apply tier_1. now apply first_hit_first_some. }
  apply no_hit_first_some in H1.
  destruct (first_some (auto_in tl) langs) as [t2|] eqn:H2.
  { intros [= <-]. apply tier_2; [assumption|]. now apply first_hit_first_some. }
  apply no_hit_first_some in H2.
  destruct (first_some (@if_manual Env) (all_transcripts tl)) as [t3|] eqn:H3.
  { intros [= <-]. apply tier_3; try assumption. now apply first_hit_first_some. }
  apply no_hit_first_some in H3.
  destruct (first_some (@if_auto Env) (all_transcripts tl)) as [t4|] eqn:H4.
  { intros [= <-]. apply tier_4; try assumption. now apply first_hit_first_some. }
  apply no_hit_first_some in H4.
  intros [= <-]. now apply no_tier.
Qed.

Lemma selects_functional : forall langs picked picked',
  selects tl langs picked -> selects tl langs picked' -> picked = picked'.
Proof.
  intros langs picked picked' H H'.
  destruct H; destruct H';
    repeat match goal with
           | Hh : first_hit ?f ?l _, Hn : no_hit ?f ?l |- _ =>
               destruct (first_hit_excludes_no_hit Hh Hn)
           | Hh : first_hit ?f ?l ?b, Hh' : first_hit ?f ?l ?b' |- _ =>
               rewrite (first_hit_functional Hh Hh'); clear Hh
           end; reflexivity.
Qed.

End SelectorLemmas.

(** The library's lookup of a single language is a search by language code. *)
Lemma find_transcript_single : forall Env lang (ts : list (transcript Env)),
  found (Sim.find_transcript [lang] ts)
  = find (fun t => String.eqb (language_code t) lang) ts.
Proof.
  intros Env lang ts. simpl.
  destruct (find _ ts); reflexivity.
Qed.

(** C2. The selector tries the four tiers in strict priority order and the
    first match wins: what [pick_transcript] returns is exactly what
    [selects] describes (a manual transcript in the first preferred language
    that has one; failing that an auto transcript in the first preferred
    language that has one; failing that the first manual transcript listed;
    failing that the first auto transcript listed; failing that nothing).  In
    particular a video of the library with a manual transcript in the first
    preferred language gets that transcript, whatever other manual or auto
    transcripts it has. *)
Theorem C2_pick_transcript_tier_priority :
  forall Env (tl : transcript_list Env) (preferred_langs : list string),
    (forall picked,
       pick_transcript tl preferred_langs = Ok picked
       <-> selects tl preferred_langs picked) /\
    (forall manually_created generated lang others t,
       tl = Sim.TranscriptList manually_created generated ->
       preferred_langs = lang :: others ->
       find (fun t => String.eqb (language_code t) lang) manually_created
       = Some t ->
       pick_transcript tl preferred_langs = Ok (Some t, Some "manual")).
Proof.
  intros Env tl langs. split.
  - intros picked. split.
    + apply pick_transcript_selects.
    + intros H.
      destruct (pick_transcript_returns tl langs) as [picked' Hp].
      rewrite Hp. f_equal.
      apply (selects_functional (pick_transcript_selects tl langs Hp) H).
  - intros manual generated lang others t -> -> Hfind.
    unfold pick_transcript. simpl.
    destruct (find _ manual); [|discriminate].
    now injection Hfind as ->.
Qed.

(** A video with manual and auto transcripts in the preferred language and in
    other languages: the manual English transcript is selected. *)
Lemma C2_witness :
  find (fun t => String.eqb (language_code t) "en")
    [Sim.manual_fr; Sim.manual_es; Sim.manual_en] = Some Sim.manual_en /\
  pick_transcript
    (Sim.TranscriptList [Sim.manual_fr; Sim.manual_es; Sim.manual_en]
       [Sim.auto_es; Sim.auto_en]) ["en"]
  = Ok (Some Sim.manual_en, Some "manual").
Proof.
  split; [reflexivity|].
  apply (proj2 (C2_pick_transcript_tier_priority
                  (Sim.TranscriptList [Sim.manual_fr; Sim.manual_es; Sim.manual_en]
                     [Sim.auto_es; Sim.auto_en]) ["en"])
           [Sim.manual_fr; Sim.manual_es; Sim.manual_en]
           [Sim.auto_es; Sim.auto_en] "en" [] Sim.manual_en);
    reflexivity.
Defined.

(** ** One attempt at a video *)

Section FetchOne.

Context {Env : Type} {P : Platform Env}.

Lemma with_env_twice : forall (s : State Env) e1 evs1 e2 evs2,
  with_env (with_env s e1 evs1) e2 evs2 = with_env s e2 (evs1 ++ evs2).
Proof.
  intros. unfold with_env. simpl. now rewrite <- app_assoc.
Qed.

(** The last [except] clause matches every exception: the chain of
    [fetch_one] never lets one through. *)
Lemma fetch_one_handlers_catch :
  forall video_id fetched_at (e : exn) (s : State Env),
  dispatch [ except_TooManyRequests video_id fetched_at;
             except_known video_id fetched_at;
             except_Exception video_id fetched_at ] e s
  = (Ok (failure_row video_id (type_name e) (exn_str e) fetched_at), s).
Proof.
  intros video_id fetched_at [cls msg] s.
  unfold dispatch, except_TooManyRequests, except_known, except_Exception,
    type_name.
  destruct cls; reflexivity.
Qed.

(** [fetch_one] always returns a row, in one of the five ways. *)
Lemma fetch_one_outcome : forall video_id preferred_langs sleep_s s,
  exists row s',
    fetch_one video_id preferred_langs sleep_s s = (Ok row, s') /\
    fetch_outcome video_id preferred_langs sleep_s s row s'.
Proof.
  intros video_id langs sleep_s s.
  unfold fetch_one, bind, now, try_except, fetch_one_try, bind,
    api_list_transcripts, lift.
  destruct (list_transcripts video_id (env s)) as [[tlist|e] w] eqn:Hlist.
  - destruct (pick_transcript_returns tlist langs) as [[[chosen|] source] Hpick];
      rewrite Hpick.
    + unfold transcript_fetch. cbn [env with_env].
      destruct (fetch chosen w) as [[segments|e] w'] eqn:Hfetch.
      * unfold sleep, ret. destruct (Qle_bool 0 sleep_s) eqn:Hsleep.
        -- do 2 eexists. split; [reflexivity|].
           rewrite !with_env_twice. simpl.
           eapply fetched; eassumption.
        -- rewrite fetch_one_handlers_catch.
           do 2 eexists. split; [reflexivity|].
           rewrite with_env_twice. eapply sleep_raised; eassumption.
      * rewrite fetch_one_handlers_catch.
        do 2 eexists. split; [reflexivity|].
        rewrite with_env_twice. eapply fetch_raised; eassumption.
    + do 2 eexists. split; [reflexivity|].
      eapply nothing_usable; eassumption.
  - rewrite fetch_one_handlers_catch.
    do 2 eexists. split; [reflexivity|].
    now apply listing_raised.
Qed.

End FetchOne.

(** ** The loop of the driver *)

Section Loop.

Context {Env : Type} {P : Platform Env}.

Lemma process_video_step : forall existing rows vid (s : State Env),
  exists rec s1,
    fetch_one vid ["en"] (15 # 100)%Q s = (Ok rec, s1) /\
    fetch_outcome vid ["en"] (15 # 100)%Q s rec s1 /\
    process_video existing rows vid s
    = (Ok (rows ++ [rec]),
       after_checkpoint existing (rows ++ [rec]) (after_pause rec s1)).
Proof.
  intros existing rows vid s.
  destruct (fetch_one_outcome vid ["en"] (15 # 100)%Q s)
    as (rec & s1 & Hfetch & Hout).
  exists rec, s1. repeat split; try assumption.
  unfold process_video, bind. rewrite Hfetch.
  unfold after_checkpoint, after_pause.
  destruct (is_rate_limited rec); destruct (checkpoint_due (rows ++ [rec]));
    reflexivity.
Qed.

(** A proof rule for the loop: a property of (videos gone through, rows,
    state) kept by a skipped video and by an attempted one holds when the
    loop ends, and the loop does end without raising. *)
Lemma main_loop_rule :
  forall existing done_ids
    (I : list string -> list dict -> State Env -> Prop),
    (forall gone rows s vid,
       I gone rows s -> mem vid done_ids = true -> I (gone ++ [vid]) rows s) ->
    (forall gone rows s vid rec s1,
       I gone rows s -> mem vid done_ids = false ->
       fetch_outcome vid ["en"] (15 # 100)%Q s rec s1 ->
       I (gone ++ [vid]) (rows ++ [rec])
         (after_checkpoint existing (rows ++ [rec]) (after_pause rec s1))) ->
    forall video_ids gone rows s,
      I gone rows s ->
      exists rows' s',
        main_loop existing done_ids video_ids rows s = (Ok rows', s') /\
        I (gone ++ video_ids) rows' s'.
Proof.
  intros existing done_ids I Hskip Hstep.
  induction video_ids as [|vid rest IH]; intros gone rows s HI.
  - exists rows, s. rewrite app_nil_r. now split.
  - cbn [main_loop].
    replace (gone ++ vid :: rest) with ((gone ++ [vid]) ++ rest)
      by now rewrite <- app_assoc.
    destruct (mem vid done_ids) eqn:Hmem.
    + apply IH. now apply Hskip.
    + destruct (process_video_step existing rows vid s)
        as (rec & s1 & _ & Hout & Hproc).
      unfold bind. rewrite Hproc.
      apply IH. eapply Hstep; eassumption.
Qed.

End Loop.

(** ** Reading traces *)

Lemma listings_app : forall tr tr',
  listings (tr ++ tr') = listings tr ++ listings tr'.
Proof.
  induction tr as [|ev tr IH]; intros tr'; simpl; [reflexivity|].
  destruct ev; simpl; now rewrite IH.
Qed.

Lemma sleeps_app : forall tr tr',
  sleeps (tr ++ tr') = sleeps tr ++ sleeps tr'.
Proof.
  induction tr as [|ev tr IH]; intros tr'; simpl; [reflexivity|].
  destruct ev; simpl; now rewrite IH.
Qed.

Lemma writes_app : forall tr tr',
  writes (tr ++ tr') = writes tr ++ writes tr'.
Proof.
  induction tr as [|ev tr IH]; intros tr'; simpl; [reflexivity|].
  destruct ev; simpl; now rewrite IH.
Qed.

Lemma cooldowns_app : forall tr tr',
  cooldowns (tr ++ tr') = cooldowns tr ++ cooldowns tr'.
Proof.
  intros. unfold cooldowns. now rewrite sleeps_app, filter_app.
Qed.

(** ** What an attempt leaves behind *)

Section AttemptFacts.

Context {Env : Type} {P : Platform Env}.

Variables (video_id : string) (preferred_langs : list string).
Variables (s : State Env) (rec : dict) (s1 : State Env).

Section AnyDelay.

Variable sleep_s : Q.
Hypothesis outcome : fetch_outcome video_id preferred_langs sleep_s s rec s1.

Lemma outcome_video_id : video_id_of rec = Some video_id.
Proof. destruct outcome; reflexivity. Qed.

Lemma outcome_keys : keys rec = fetch_one_keys.
Proof. destruct outcome; reflexivity. Qed.

Lemma outcome_fetched_at :
  get rec "fetched_at_utc" = Some (VTime (utcnow (env s))).
Proof. destruct outcome; reflexivity. Qed.

Lemma outcome_files :
  videos_file s1 = videos_file s /\ out_file s1 = out_file s.
Proof. destruct outcome; split; reflexivity. Qed.

(** One listing, no write; the only pause is the inter-item delay after a
    successful fetch. *)
Lemma outcome_trace :
  exists evs,
    trace s1 = trace s ++ evs /\
    listings evs = [video_id] /\
    writes evs = [] /\
    (sleeps evs = [] \/ (has_text rec /\ sleeps evs = [sleep_s])).
Proof.
  destruct outcome; eexists; (split; [reflexivity|]); repeat split;
    try (left; reflexivity).
  right. split; reflexivity.
Qed.

(** A row with text has no error, a row without text has no text. *)
Lemma outcome_shape : result_shape rec.
Proof.
  unfold result_shape, has_text, lacks_text, error_absent, text_absent.
  destruct outcome; cbn; repeat split; try discriminate; try reflexivity;
    try (intros [? _]; discriminate); eauto.
Qed.

(** A rate-limited row is a failed row: no fetch, no inter-item delay. *)
Lemma outcome_rate_limited :
  is_rate_limited rec = true ->
  lacks_text rec /\ get rec "error_type" = Some (VStr "TooManyRequests").
Proof.
  unfold is_rate_limited, lacks_text.
  destruct outcome; cbn; try discriminate;
    intros Hrl; apply String.eqb_eq in Hrl; rewrite ?Hrl; split; reflexivity.
Qed.

End AnyDelay.

Hypothesis outcome :
  fetch_outcome video_id preferred_langs (15 # 100)%Q s rec s1.

(** With the delay of the driver, an attempt never pauses for 60 seconds. *)
Lemma outcome_no_cooldown :
  exists evs,
    trace s1 = trace s ++ evs /\
    listings evs = [video_id] /\ writes evs = [] /\ cooldowns evs = [].
Proof.
  destruct (outcome_trace outcome) as (evs & Htr & Hl & Hw & Hs).
  exists evs. repeat split; try assumption.
  unfold cooldowns. destruct Hs as [-> | [_ ->]]; reflexivity.
Qed.

End AttemptFacts.

Section StepFacts.

Context {Env : Type} {P : Platform Env}.

Lemma after_pause_trace : forall rec (s : State Env),
  trace (after_pause rec s)
  = trace s ++ (if is_rate_limited rec then [EvSleep (60 # 1)%Q] else []).
Proof.
  intros. unfold after_pause. destruct (is_rate_limited rec); simpl;
    [reflexivity | now rewrite app_nil_r].
Qed.

Lemma after_pause_files : forall rec (s : State Env),
  videos_file (after_pause rec s) = videos_file s /\
  out_file (after_pause rec s) = out_file s.
Proof.
  intros. unfold after_pause. destruct (is_rate_limited rec); split; reflexivity.
Qed.

Lemma after_checkpoint_trace : forall existing rows (s : State Env),
  trace (after_checkpoint existing rows s)
  = trace s ++ (if checkpoint_due rows
                then [EvToParquet (concat_existing existing rows)] else []).
Proof.
  intros. unfold after_checkpoint. destruct (checkpoint_due rows); simpl;
    [reflexivity | now rewrite app_nil_r].
Qed.

Lemma after_checkpoint_videos : forall existing rows (s : State Env),
  videos_file (after_checkpoint existing rows s) = videos_file s.
Proof.
  intros. unfold after_checkpoint. destruct (checkpoint_due rows); reflexivity.
Qed.

(** The whole step on the trace: the attempt, then the cool-down if the row
    is rate limited, then the flush if one is due. *)
Lemma step_trace :
  forall existing rows vid (s : State Env) rec s1,
    fetch_outcome vid ["en"] (15 # 100)%Q s rec s1 ->
    exists evs,
      listings evs = [vid] /\ writes evs = [] /\ cooldowns evs = [] /\
      trace (after_checkpoint existing (rows ++ [rec]) (after_pause rec s1))
      = trace s ++ evs
        ++ (if is_rate_limited rec then [EvSleep (60 # 1)%Q] else [])
        ++ (if checkpoint_due (rows ++ [rec])
            then [EvToParquet (concat_existing existing (rows ++ [rec]))]
            else []).
Proof.
  intros existing rows vid s rec s1 Hout.
  destruct (outcome_no_cooldown Hout) as (evs & Htr & Hl & Hw & Hc).
  exists evs. repeat split; try assumption.
  rewrite after_checkpoint_trace, after_pause_trace, Htr.
  now rewrite <- !app_assoc.
Qed.

End StepFacts.

(** ** Lists: membership, distinct values, initial parts *)

Lemma mem_In : forall x l, mem x l = true <-> In x l.
Proof.
  intros x l. unfold mem. rewrite existsb_exists. split.
  - intros (y & Hy & Heq). apply String.eqb_eq in Heq. now subst.
  - intros H. exists x. split; [assumption | apply String.eqb_refl].
Qed.

Lemma mem_not_In : forall x l, mem x l = false <-> ~ In x l.
Proof.
  intros x l. rewrite <- mem_In. destruct (mem x l); split; congruence.
Qed.

Lemma unique_from_spec : forall l seen,
  NoDup (unique_from seen l) /\
  (forall x, In x (unique_from seen l) <-> In x l /\ ~ In x seen).
Proof.
  induction l as [|a l IH]; intros seen; simpl.
  - split; [constructor | intros x; tauto].
  - destruct (mem a seen) eqn:Ha.
    + apply mem_In in Ha. destruct (IH seen) as [Hnd Hin]. split; [assumption|].
      intros x. rewrite Hin. split; [tauto|].
      intros [[-> | Hx] Hns]; [contradiction | tauto].
    + apply mem_not_In in Ha. destruct (IH (a :: seen)) as [Hnd Hin]. split.
      * constructor; [|assumption]. rewrite Hin. simpl. tauto.
      * intros x. simpl. rewrite Hin. simpl. split.
        -- intros [<- | [Hx Hns]]; [tauto|]. split; [tauto|]. tauto.
        -- intros [[<- | Hx] Hns]; [tauto|].
           destruct (string_dec a x) as [->|Hne]; [tauto|]. right. tauto.
Qed.

Lemma unique_NoDup : forall l, NoDup (unique l).
Proof. intros l. apply (unique_from_spec l []). Qed.

Lemma unique_In : forall l x, In x (unique l) <-> In x l.
Proof.
  intros l x. unfold unique.
  rewrite (proj2 (unique_from_spec l []) x). simpl. tauto.
Qed.

Lemma video_id_column_app : forall df df',
  video_id_column (df ++ df') = video_id_column df ++ video_id_column df'.
Proof.
  induction df as [|row df IH]; intros df'; simpl; [reflexivity|].
  destruct (video_id_of row); simpl; now rewrite IH.
Qed.

Lemma video_id_column_concat : forall existing rows,
  video_id_column (concat_existing existing rows)
  = video_id_column (rows_of existing) ++ video_id_column rows.
Proof.
  intros [df|] rows; simpl; [apply video_id_column_app | reflexivity].
Qed.

Section Prefix.

Context {A : Type}.

Lemma prefix_refl : forall l : list A, prefix l l.
Proof. intros l. exists []. now rewrite app_nil_r. Qed.

Lemma prefix_trans : forall l1 l2 l3 : list A,
  prefix l1 l2 -> prefix l2 l3 -> prefix l1 l3.
Proof.
  intros l1 l2 l3 [m ->] [n ->]. exists (m ++ n). now rewrite app_assoc.
Qed.

Lemma prefix_app : forall l m : list A, prefix l (l ++ m).
Proof. intros l m. now exists m. Qed.

Lemma prefix_In : forall (l1 l2 : list A) x, prefix l1 l2 -> In x l1 -> In x l2.
Proof. intros l1 l2 x [m ->] H. apply in_or_app. now left. Qed.

Lemma prefix_firstn : forall l1 l2 : list A,
  prefix l1 l2 -> firstn (length l1) l2 = l1.
Proof.
  intros l1 l2 [m ->]. rewrite firstn_app, Nat.sub_diag, firstn_all.
  simpl. now rewrite app_nil_r.
Qed.

Lemma sorted_snoc : forall (R : A -> A -> Prop) l x,
  StronglySorted R l -> Forall (fun a => R a x) l ->
  StronglySorted R (l ++ [x]).
Proof.
  intros R l x Hs Hall. induction Hs as [|a l Hs IH Ha]; simpl.
  - repeat constructor.
  - inversion Hall as [|? ? Hax Hl]; subst.
    constructor; [now apply IH|].
    apply Forall_app. split; [assumption | now constructor].
Qed.

End Prefix.

Lemma concat_existing_grows : forall existing rows more,
  prefix (concat_existing existing rows) (concat_existing existing (rows ++ more)).
Proof.
  intros [df|] rows more; simpl.
  - exists more. now rewrite app_assoc.
  - apply prefix_app.
Qed.

Lemma concat_existing_keeps : forall existing rows,
  prefix (rows_of existing) (concat_existing existing rows).
Proof.
  intros [df|] rows; simpl; [apply prefix_app | now exists rows].
Qed.

(** ** One step of the driver, seen on the trace and the files *)

Section Step.

Context {Env : Type} {P : Platform Env}.

Variables (existing : option DataFrame) (rows : list dict) (vid : string).
Variables (s : State Env) (rec : dict) (s1 : State Env).
Hypothesis outcome : fetch_outcome vid ["en"] (15 # 100)%Q s rec s1.

Let s2 := after_checkpoint existing (rows ++ [rec]) (after_pause rec s1).

Lemma step_listings : listings (trace s2) = listings (trace s) ++ [vid].
Proof.
  destruct (step_trace existing rows outcome) as (evs & Hl & _ & _ & Htr).
  subst s2. rewrite Htr, !listings_app, Hl.
  destruct (is_rate_limited rec), (checkpoint_due (rows ++ [rec])); simpl;
    now rewrite ?app_nil_r.
Qed.

Lemma step_cooldowns :
  cooldowns (trace s2)
  = cooldowns (trace s) ++ (if is_rate_limited rec then [(60 # 1)%Q] else []).
Proof.
  destruct (step_trace existing rows outcome) as (evs & _ & _ & Hc & Htr).
  subst s2. rewrite Htr, !cooldowns_app, Hc.
  destruct (is_rate_limited rec), (checkpoint_due (rows ++ [rec])); simpl;
    now rewrite ?app_nil_r.
Qed.

Lemma step_writes :
  writes (trace s2)
  = writes (trace s)
    ++ (if checkpoint_due (rows ++ [rec])
        then [concat_existing existing (rows ++ [rec])] else []).
Proof.
  destruct (step_trace existing rows outcome) as (evs & _ & Hw & _ & Htr).
  subst s2. rewrite Htr, !writes_app, Hw.
  destruct (is_rate_limited rec), (checkpoint_due (rows ++ [rec])); simpl;
    now rewrite ?app_nil_r.
Qed.

Lemma step_videos_file : videos_file s2 = videos_file s.
Proof.
  subst s2. rewrite after_checkpoint_videos.
  rewrite (proj1 (after_pause_files rec s1)).
  apply (outcome_files outcome).
Qed.

End Step.

(** ** The loop as a whole *)

Section LoopSummary.

Context {Env : Type} {P : Platform Env}.

Lemma work_list_skip : forall done_ids gone vid,
  mem vid done_ids = true ->
  work_list done_ids (gone ++ [vid]) = work_list done_ids gone.
Proof.
  intros done_ids gone vid H. unfold work_list.
  rewrite filter_app. simpl. rewrite H. simpl. apply app_nil_r.
Qed.

Lemma work_list_take : forall done_ids gone vid,
  mem vid done_ids = false ->
  work_list done_ids (gone ++ [vid]) = work_list done_ids gone ++ [vid].
Proof.
  intros done_ids gone vid H. unfold work_list.
  rewrite filter_app. simpl. now rewrite H.
Qed.

Lemma loop_invariant_init : forall existing done_ids (s0 : State Env),
  writes (trace s0) = [] -> loop_invariant existing done_ids s0 [] [] s0.
Proof.
  intros existing done_ids s0 Hw0.
  unfold loop_invariant. rewrite Hw0. simpl. rewrite !app_nil_r.
  repeat split; constructor.
Qed.

(** A video already in the checkpoint. *)
Lemma loop_invariant_skip :
  forall existing done_ids (s0 : State Env) gone rows s vid,
    loop_invariant existing done_ids s0 gone rows s ->
    mem vid done_ids = true ->
    loop_invariant existing done_ids s0 (gone ++ [vid]) rows s.
Proof.
  intros existing done_ids s0 gone rows s vid (Hv & Hids & Hrest) Hmem.
  repeat split; try apply Hrest; try assumption.
  now rewrite work_list_skip.
Qed.

(** A video attempted. *)
Lemma loop_invariant_step :
  forall existing done_ids (s0 : State Env) gone rows s vid rec s1,
    loop_invariant existing done_ids s0 gone rows s ->
    mem vid done_ids = false ->
    fetch_outcome vid ["en"] (15 # 100)%Q s rec s1 ->
    loop_invariant existing done_ids s0 (gone ++ [vid]) (rows ++ [rec])
      (after_checkpoint existing (rows ++ [rec]) (after_pause rec s1)).
Proof.
  intros existing done_ids s0 gone rows s vid rec s1
    (Hv & Hids & Hl & Hc & Hs & Hp & Hr) Hmem Hout.
  assert (Hcol : video_id_column (rows ++ [rec]) = video_id_column rows ++ [vid]).
  { rewrite video_id_column_app. simpl. now rewrite (outcome_video_id Hout). }
  repeat split.
  + now rewrite (step_videos_file existing rows Hout).
  + now rewrite Hcol, Hids, work_list_take.
  + rewrite (step_listings existing rows Hout), Hl, Hcol.
    now rewrite app_assoc.
  + rewrite (step_cooldowns existing rows Hout), Hc, filter_app, map_app.
    rewrite <- app_assoc. do 2 f_equal. simpl.
    now destruct (is_rate_limited rec).
  + rewrite (step_writes existing rows Hout).
    destruct (checkpoint_due (rows ++ [rec])); [|now rewrite app_nil_r].
    apply sorted_snoc; [assumption|].
    eapply Forall_impl; [|exact Hp]. intros df [_ Hdf].
    eapply prefix_trans; [exact Hdf | apply concat_existing_grows].
  + rewrite (step_writes existing rows Hout).
    apply Forall_app. split.
    * eapply Forall_impl; [|exact Hp]. intros df [Hck Hdf].
      split; [assumption|].
      eapply prefix_trans; [exact Hdf | apply concat_existing_grows].
    * destruct (checkpoint_due (rows ++ [rec])); constructor; [|constructor].
      split; [apply concat_existing_keeps | apply prefix_refl].
  + apply Forall_app. split; [assumption|]. constructor; [|constructor].
    split; [exact (outcome_shape Hout)|].
    split; [exact (outcome_keys Hout)|].
    rewrite (outcome_video_id Hout). discriminate.
Qed.

Lemma main_loop_summary :
  forall existing done_ids video_ids (s0 : State Env),
    writes (trace s0) = [] ->
    exists rows s',
      main_loop existing done_ids video_ids [] s0 = (Ok rows, s') /\
      loop_invariant existing done_ids s0 video_ids rows s'.
Proof.
  intros existing done_ids video_ids s0 Hw0.
  apply (main_loop_rule existing done_ids
           (loop_invariant existing done_ids s0)) with (gone := []).
  - intros gone rows s vid. apply loop_invariant_skip.
  - intros gone rows s vid rec s1. apply loop_invariant_step.
  - now apply loop_invariant_init.
Qed.

End LoopSummary.

(** ** A whole run *)

Section RunSummary.

Context {Env : Type} {P : Platform Env}.

Lemma fetch_one_inv : forall vid langs sleep_s (s : State Env) rec s1,
  fetch_one vid langs sleep_s s = (Ok rec, s1) ->
  fetch_outcome vid langs sleep_s s rec s1.
Proof.
  intros vid langs sleep_s s rec s1 H.
  destruct (fetch_one_outcome vid langs sleep_s s) as (rec' & s1' & H' & Hout).
  rewrite H in H'. now injection H' as -> ->.
Qed.

(** Without the list of videos the program stops before anything else. *)
Lemma run_without_videos : forall (e : Env) checkpoint,
  exists err, run e None checkpoint = (Raised err, mkState e None checkpoint []).
Proof. intros. eexists. reflexivity. Qed.

(** A checkpoint file without the [video_id] column stops the program before
    the loop. *)
Lemma run_aborted : forall (e : Env) column checkpoint err,
  load_done_ids checkpoint = Raised err ->
  run e (Some column) checkpoint
  = (Raised err, mkState e (Some column) checkpoint []).
Proof.
  intros e column checkpoint err H.
  unfold run, main. cbn [videos_file out_file]. unfold bind, lift.
  now rewrite H.
Qed.

Lemma load_done_ids_raised : forall checkpoint err,
  load_done_ids checkpoint = Raised err ->
  exists df,
    checkpoint = Some df /\ has_column df "video_id" = false /\
    err = KeyError "video_id".
Proof.
  intros [df|] err; [|discriminate].
  unfold load_done_ids, column_strings.
  destruct (has_column df "video_id") eqn:H; [discriminate|].
  intros [= <-]. now exists df.
Qed.

Lemma load_done_ids_ok : forall checkpoint done_ids,
  load_done_ids checkpoint = Ok done_ids ->
  done_ids = cell_strings (rows_of checkpoint) "video_id".
Proof.
  intros [df|] done_ids.
  - unfold load_done_ids, column_strings.
    destruct (has_column df "video_id"); [|discriminate]. now intros [= <-].
  - now intros [= <-].
Qed.

(** With the list of videos and a checkpoint that loads, the run ends
    normally: the loop, then the final write. *)
Lemma run_summary : forall (e : Env) column checkpoint done_ids,
  load_done_ids checkpoint = Ok done_ids ->
  let s0 := mkState e (Some column) checkpoint [] in
  let video_ids := unique (dropna column) in
  exists rows s',
    loop_invariant checkpoint done_ids s0 video_ids rows s' /\
    run e (Some column) checkpoint
    = (Ok tt, snd (to_parquet (concat_existing checkpoint rows) s')).
Proof.
  intros e column checkpoint done_ids Hload s0 video_ids.
  destruct (main_loop_summary checkpoint done_ids video_ids s0 eq_refl)
    as (rows & s' & Hloop & Hinv).
  exists rows, s'. split; [assumption|].
  unfold run, main. cbn [videos_file out_file]. unfold bind, lift.
  rewrite Hload. fold video_ids. fold s0. now rewrite Hloop.
Qed.

(** The strings of the [video_id] column hold the video of every row. *)
Lemma cell_strings_video_ids : forall df vid,
  In vid (video_id_column df) -> In vid (cell_strings df "video_id").
Proof.
  induction df as [|row df IH]; intros vid; simpl; [tauto|].
  unfold video_id_of.
  destruct (get row "video_id") as [[| |name|]|]; simpl; auto.
  intros [-> | H]; auto.
Qed.

Lemma cell_strings_rows : forall rows : list dict,
  Forall (fun row => video_id_of row <> None) rows ->
  cell_strings rows "video_id" = video_id_column rows.
Proof.
  induction 1 as [|row rows Hrow _ IH]; simpl; [reflexivity|].
  unfold video_id_of in *.
  destruct (get row "video_id") as [[| |name|]|]; try contradiction.
  simpl. now rewrite IH.
Qed.

Lemma cell_strings_concat : forall existing rows key,
  cell_strings (concat_existing existing rows) key
  = cell_strings (rows_of existing) key ++ cell_strings rows key.
Proof.
  intros [df|] rows key; simpl; [apply map_app | reflexivity].
Qed.

Lemma load_done_ids_keeps : forall checkpoint done_ids vid,
  load_done_ids checkpoint = Ok done_ids ->
  In vid (video_id_column (rows_of checkpoint)) -> In vid done_ids.
Proof.
  intros checkpoint done_ids vid Hload Hin.
  rewrite (load_done_ids_ok _ Hload). now apply cell_strings_video_ids.
Qed.


(** When every video is already in the checkpoint the loop does nothing. *)
Lemma main_loop_all_done :
  forall existing done_ids video_ids rows (s : State Env),
    Forall (fun vid => mem vid done_ids = true) video_ids ->
    main_loop existing done_ids video_ids rows s = (Ok rows, s).
Proof.
  intros existing done_ids video_ids rows s H.
  induction H as [|vid rest Hvid _ IH]; simpl; [reflexivity|].
  now rewrite Hvid.
Qed.

End RunSummary.

Section RunRule.

Context {Env : Type} {P : Platform Env}.

(** The proof rule of the loop, carried to a whole run whose checkpoint
    loads: a property kept by the loop holds of the rows and the state just
    before the final write. *)
Lemma run_rule :
  forall (e : Env) column checkpoint done_ids
    (I : list string -> list dict -> State Env -> Prop),
    load_done_ids checkpoint = Ok done_ids ->
    (forall gone rows s vid,
       I gone rows s -> mem vid done_ids = true -> I (gone ++ [vid]) rows s) ->
    (forall gone rows s vid rec s1,
       I gone rows s -> mem vid done_ids = false ->
       fetch_outcome vid ["en"] (15 # 100)%Q s rec s1 ->
       I (gone ++ [vid]) (rows ++ [rec])
         (after_checkpoint checkpoint (rows ++ [rec]) (after_pause rec s1))) ->
    I [] [] (mkState e (Some column) checkpoint []) ->
    exists rows s',
      I (unique (dropna column)) rows s' /\
      run e (Some column) checkpoint
      = (Ok tt, snd (to_parquet (concat_existing checkpoint rows) s')).
Proof.
  intros e column checkpoint done_ids I Hload Hskip Hstep Hinit.
  destruct (main_loop_rule checkpoint done_ids I Hskip Hstep
              (unique (dropna column)) [] [] _ Hinit)
    as (rows & s' & Hloop & HI).
  exists rows, s'. split; [exact HI|].
  unfold run, main. cbn [videos_file out_file]. unfold bind, lift.
  rewrite Hload. cbn [app] in Hloop. now rewrite Hloop.
Qed.

Lemma concat_existing_eq : forall existing rows,
  concat_existing existing rows = rows_of existing ++ rows.
Proof. now intros [df|] rows. Qed.






End RunRule.

(** ** The Whisper path *)

Section WhisperLemmas.

Context {Env : Type} {P : Platform Env}.

(** The iteration always appends a row: the row of a transcription or the
    row of a failure, stamped with the clock read before the download. *)
Lemma transcribe_video_outcome : forall vid (s : State Env),
  exists row s',
    Whisper.transcribe_video vid s = (Ok row, s') /\
    ((exists text lang,
        row = Whisper.transcribed_row vid text lang (utcnow (env s))) \/
     (exists e, row = Whisper.failed_row vid e (utcnow (env s)))).
Proof.
  intros vid s.
  unfold Whisper.transcribe_video, bind, now, try_except.
  destruct (Whisper.download_audio vid s) as [[path|e] s1].
  - destruct (Whisper.model_transcribe path s1) as [[res|e] s2].
    + do 2 eexists. split; [reflexivity|]. left. eauto.
    + do 2 eexists. split; [reflexivity|]. right. eauto.
  - do 2 eexists. split; [reflexivity|]. right. eauto.
Qed.

Lemma transcribed_row_invariant : forall vid text lang fetched_at,
  result_invariant (Whisper.transcribed_row vid text lang fetched_at).
Proof.
  intros vid text lang t.
  unfold result_invariant, has_text, lacks_text, error_absent,
    text_non_empty, text_absent.
  destruct text as [|c text]; cbn.
  - repeat split; try discriminate; try reflexivity.
    intros [_ (txt & Htxt & _)]. discriminate.
  - repeat split; try discriminate; try reflexivity.
    eexists. split; [reflexivity | discriminate].
Qed.

Lemma failed_row_invariant : forall vid e fetched_at,
  result_invariant (Whisper.failed_row vid e fetched_at).
Proof.
  intros vid e t.
  unfold result_invariant, has_text, lacks_text, error_absent,
    text_non_empty, text_absent. cbn.
  repeat split; try discriminate; try reflexivity.
  intros [H _]. discriminate.
Qed.

(** Every row of the Whisper path satisfies the invariant of a result. *)
Lemma transcribe_video_invariant : forall vid (s : State Env),
  exists row s',
    Whisper.transcribe_video vid s = (Ok row, s') /\ result_invariant row.
Proof.
  intros vid s.
  destruct (transcribe_video_outcome vid s)
    as (row & s' & Hrun & [(text & lang & ->) | (e & ->)]);
    eexists; exists s'; (split; [exact Hrun|]).
  - apply transcribed_row_invariant.
  - apply failed_row_invariant.
Qed.

End WhisperLemmas.

(** * Main results *)

(** C1. The invariant of a result (text marked present exactly when there is
    no error and the text is non-empty) is broken by the text-source path on
    a video whose selected transcript has no segment: [fetch_one] marks the
    text present and records the empty string.  The Whisper path guards
    against the empty text ([transcribe_video_invariant]); [fetch_one] keeps
    only the weaker [outcome_shape]. *)
Theorem C1_fetch_one_marks_empty_text_present :
  exists row s',
    fetch_one (P := Sim.platform Sim.studio) "E" ["en"] (15 # 100)%Q
      (mkState Sim.start None None []) = (Ok row, s') /\
    has_text row /\
    error_absent row /\
    get row "transcript_text" = Some (VStr "") /\
    ~ result_invariant row.
Proof.
  do 2 eexists. split; [reflexivity|].
  repeat split.
  intros [[Hiff _] _].
  destruct (Hiff eq_refl) as [_ (text & Htext & Hne)].
  cbn in Htext. injection Htext as <-. now apply Hne.
Qed.

(** C3. When the row of a video is rate limited, the driver appends that
    failed row, pauses for 60 seconds before anything else, and goes on with
    the rest of the list from there; and in a whole run no video has its
    transcripts listed twice, while the pauses of 60 seconds are as many as
    the rate-limited rows the run recorded. *)
Theorem C3_rate_limited_row_recorded_then_pause_then_next :
  forall Env (P : Platform Env),
    (forall existing done_ids vid rest rows (s : State Env) rec s1,
       mem vid done_ids = false ->
       fetch_one vid ["en"] (15 # 100)%Q s = (Ok rec, s1) ->
       is_rate_limited rec = true ->
       let paused :=
         with_env s1 (time_sleep (60 # 1)%Q (env s1)) [EvSleep (60 # 1)%Q] in
       let s2 := after_checkpoint existing (rows ++ [rec]) paused in
       lacks_text rec /\
       video_id_of rec = Some vid /\
       process_video existing rows vid s = (Ok (rows ++ [rec]), s2) /\
       main_loop existing done_ids (vid :: rest) rows s
       = main_loop existing done_ids rest (rows ++ [rec]) s2) /\
    (forall (e : Env) column checkpoint,
       let s' := snd (run e (Some column) checkpoint) in
       (forall vid, (count_occ string_dec (listings (trace s')) vid <= 1)%nat) /\
       exists rows,
         out_file s' = Some (concat_existing checkpoint rows) /\
         cooldowns (trace s')
         = map (fun _ => (60 # 1)%Q) (filter is_rate_limited rows)).
Proof.
  intros Env P. split.
  - intros existing done_ids vid rest rows s rec s1 Hmem Hfetch Hrl paused s2.
    pose proof (fetch_one_inv _ _ _ _ Hfetch) as Hout.
    destruct (outcome_rate_limited Hout Hrl) as [Hlacks _].
    destruct (process_video_step existing rows vid s)
      as (rec' & s1' & Hfetch' & _ & Hproc).
    rewrite Hfetch in Hfetch'. injection Hfetch' as <- <-.
    assert (Hs2 : after_checkpoint existing (rows ++ [rec]) (after_pause rec s1)
                  = s2).
    { subst s2 paused. unfold after_pause. now rewrite Hrl. }
    rewrite Hs2 in Hproc.
    repeat split; try assumption.
    + exact (outcome_video_id Hout).
    + cbn [main_loop]. rewrite Hmem. unfold bind. now rewrite Hproc.
  - intros e column checkpoint s'.
    destruct (load_done_ids checkpoint) as [done_ids|err] eqn:Hload.
    + destruct (run_summary e column checkpoint Hload)
        as (rows & s1 & (_ & Hids & Hl & Hc & _) & Hrun).
      subst s'. rewrite Hrun. cbn [snd to_parquet trace out_file].
      split.
      * intros vid. apply NoDup_count_occ.
        rewrite listings_app, Hl, Hids. cbn. rewrite app_nil_r.
        unfold work_list. apply NoDup_filter, unique_NoDup.
      * exists rows. split; [reflexivity|].
        rewrite cooldowns_app, Hc. cbn. now rewrite app_nil_r.
    + destruct (load_done_ids_raised _ Hload) as (df & -> & _).
      subst s'. rewrite (run_aborted e column _ Hload).
      cbn [snd trace out_file listings count_occ]. split; [intros; lia|].
      exists []. cbn. now rewrite app_nil_r.
Qed.

(** The third video of the scenario, rate limited at its first listing. *)
Lemma C3_witness :
  exists rec s1,
    mem "C" [] = false /\
    fetch_one (P := Sim.platform Sim.studio) "C" ["en"] (15 # 100)%Q
      (mkState Sim.start Sim.ABC None []) = (Ok rec, s1) /\
    is_rate_limited rec = true /\
    process_video (P := Sim.platform Sim.studio) None [] "C"
      (mkState Sim.start Sim.ABC None [])
    = (Ok [rec],
       with_env s1
         (time_sleep (Platform := Sim.platform Sim.studio) (60 # 1)%Q (env s1))
         [EvSleep (60 # 1)%Q]).
Proof.
  do 2 eexists.
  split; [reflexivity|]. split; [reflexivity|]. split; [reflexivity|].
  apply (proj1 (C3_rate_limited_row_recorded_then_pause_then_next
                  (Sim.platform Sim.studio))
           None [] "C" [] [] (mkState Sim.start Sim.ABC None []));
    reflexivity.
Defined.



(** C10. [fetch_one] is total: for every video, every list of preferred
    languages and every behaviour of the transcript source it returns a dict
    with the same nine keys whose [video_id] is its argument; and
    [pick_transcript] never raises, returning [(None, None)] when no tier
    matches. *)
Theorem C10_fetch_one_total_pick_transcript_never_raises :
  forall Env (P : Platform Env),
    (forall vid langs sleep_s (s : State Env),
       exists row s',
         fetch_one vid langs sleep_s s = (Ok row, s') /\
         keys row = fetch_one_keys /\
         get row "video_id" = Some (VStr vid)) /\
    (forall (tl : transcript_list Env) langs,
       (exists picked, pick_transcript tl langs = Ok picked) /\
       (no_hit (manual_in tl) langs ->
        no_hit (auto_in tl) langs ->
        no_hit (@if_manual Env) (all_transcripts tl) ->
        no_hit (@if_auto Env) (all_transcripts tl) ->
        pick_transcript tl langs = Ok (None, None))).
Proof.
  intros Env P. split.
  - intros vid langs sleep_s s.
    destruct (fetch_one_outcome vid langs sleep_s s) as (row & s' & Hrun & Hout).
    exists row, s'. split; [assumption|].
    split; [exact (outcome_keys Hout)|].
    destruct Hout; reflexivity.
  - intros tl langs. split; [apply pick_transcript_returns|].
    intros H1 H2 H3 H4.
    destruct (pick_transcript_returns tl langs) as [picked Hp].
    rewrite Hp. f_equal.
    apply (selects_functional (pick_transcript_selects tl langs Hp)).
    now apply no_tier.
Qed.

(** A video without any transcript, and no preferred language at all. *)
Lemma C10_witness :
  no_hit (manual_in (Sim.TranscriptList (Env := Sim.world) [] [])) [] /\
  pick_transcript (Sim.TranscriptList (Env := Sim.world) [] []) ["en"; "es"]
  = Ok (None, None).
Proof.
  split; [constructor|].
  apply (proj2 (C10_fetch_one_total_pick_transcript_never_raises
                  (Sim.platform Sim.studio))
           (Sim.TranscriptList [] []) ["en"; "es"]);
    repeat constructor.
Defined.

(** C9, as stated, fails: the timestamp of video A is the clock read when the
    attempt began (0), while its listing and fetch finished half a second
    later. *)
Lemma C9_counterexample :
  exists row s' fetched_at finished,
    fetch_one (P := Sim.platform Sim.studio) "A" ["en"] (15 # 100)%Q
      (mkState Sim.start None None []) = (Ok row, s') /\
    has_text row /\
    get row "fetched_at_utc" = Some (VTime fetched_at) /\
    Sim.clock
      (snd (fetch Sim.manual_en
              (snd (list_transcripts (Platform := Sim.platform Sim.studio)
                      "A" Sim.start)))) = finished /\
    (fetched_at < finished)%Z /\
    (finished <= utcnow (Platform := Sim.platform Sim.studio) (env s'))%Z.
Proof.
  do 4 eexists.
  split; [reflexivity|]. split; [reflexivity|]. split; [reflexivity|].
  split; [reflexivity|]. split; [reflexivity | discriminate].
Qed.

(** C9, amended. On both paths the timestamp of a row is the clock read at
    the start of the attempt, before the listing, the fetch, the download or
    the transcription begins. *)
Theorem C9_fetched_at_is_read_before_the_attempt :
  forall Env (P : Platform Env),
    (forall vid langs sleep_s (s : State Env),
       exists row s',
         fetch_one vid langs sleep_s s = (Ok row, s') /\
         get row "fetched_at_utc" = Some (VTime (utcnow (env s)))) /\
    (forall vid (s : State Env),
       exists row s',
         Whisper.transcribe_video vid s = (Ok row, s') /\
         get row "fetched_at_utc" = Some (VTime (utcnow (env s)))).
Proof.
  intros Env P. split.
  - intros vid langs sleep_s s.
    destruct (fetch_one_outcome vid langs sleep_s s) as (row & s' & Hrun & Hout).
    exists row, s'. split; [assumption | exact (outcome_fetched_at Hout)].
  - intros vid s.
    destruct (transcribe_video_outcome vid s)
      as (row & s' & Hrun & [(text & lang & ->) | (e & ->)]);
      eexists; exists s'; (split; [exact Hrun | reflexivity]).
Qed.

Lemma is_rate_limited_iff : forall rec,
  is_rate_limited rec = true
  <-> get rec "error_type" = Some (VStr "TooManyRequests").
Proof.
  intros rec. unfold is_rate_limited.
  destruct (get rec "error_type") as [[| |name|]|]; split;
    try discriminate.
  - intros H. apply String.eqb_eq in H. now subst.
  - intros [= ->]. reflexivity.
Qed.

(** C7, as stated, fails: the program has no taxonomy with an [unknown] kind.
    The failures of videos F and G, both of classes the program does not
    name, are recorded under two different error types, the names of their
    classes; and a failure of a class the program does not name, but which is
    called [TooManyRequests], makes the driver pause for 60 seconds. *)
Lemma C7_counterexample :
  (exists eF eG rowF rowG sF sG,
     fetch_one_try (P := Sim.platform Sim.studio) "F" ["en"] (15 # 100)%Q 0%Z
       (mkState Sim.start None None []) = (Raised eF, sF) /\
     fetch_one_try (P := Sim.platform Sim.studio) "G" ["en"] (15 # 100)%Q 0%Z
       (mkState Sim.start None None []) = (Raised eG, sG) /\
     classify eF = unknown /\
     classify eG = unknown /\
     fetch_one (P := Sim.platform Sim.studio) "F" ["en"] (15 # 100)%Q
       (mkState Sim.start None None []) = (Ok rowF, sF) /\
     fetch_one (P := Sim.platform Sim.studio) "G" ["en"] (15 # 100)%Q
       (mkState Sim.start None None []) = (Ok rowG, sG) /\
     get rowF "error_type" = Some (VStr "ConnectionError") /\
     get rowG "error_type" = Some (VStr "ParseError")) /\
  (exists e rec s1,
     fetch_one_try (P := Sim.platform Sim.lookalike) "A" ["en"] (15 # 100)%Q 0%Z
       (mkState Sim.start None None []) = (Raised e, s1) /\
     classify e = unknown /\
     fetch_one (P := Sim.platform Sim.lookalike) "A" ["en"] (15 # 100)%Q
       (mkState Sim.start None None []) = (Ok rec, s1) /\
     get rec "error_type" = Some (VStr "TooManyRequests") /\
     sleeps (trace (snd (process_video (P := Sim.platform Sim.lookalike)
                           None [] "A" (mkState Sim.start None None []))))
     = [(60 # 1)%Q]).
Proof.
  split.
  - do 6 eexists. repeat split.
  - do 3 eexists. repeat split.
Qed.

(** C7, amended. Every failure of an attempt is recorded under the class name
    and the message of its exception; for the four classes the program names
    these names are [TooManyRequests], [TranscriptsDisabled],
    [NoTranscriptFound] and [VideoUnavailable], one per class, and the row of
    a rate-limit exception is the one the driver takes for rate limited.  The
    driver decides on the recorded name alone: it pauses for 60 seconds after
    a row whose error type is [TooManyRequests], and after any other row,
    failed or not, it does not pause and leaves the state as the attempt left
    it. *)
Theorem C7_error_type_is_class_name_and_only_TooManyRequests_pauses :
  forall Env (P : Platform Env),
    (forall vid langs sleep_s (s : State Env) e s',
       fetch_one_try vid langs sleep_s (utcnow (env s)) s = (Raised e, s') ->
       exists row,
         fetch_one vid langs sleep_s s = (Ok row, s') /\
         lacks_text row /\
         get row "error_type" = Some (VStr (type_name e)) /\
         get row "error_message" = Some (VStr (exn_str e)) /\
         (classify e = rate_limited -> is_rate_limited row = true) /\
         (classify e = transcripts_disabled \/
          classify e = no_transcript_found \/
          classify e = item_unavailable -> is_rate_limited row = false)) /\
    (forall e e',
       classify e <> unknown -> classify e' <> unknown ->
       (type_name e = type_name e' <-> classify e = classify e')) /\
    (forall existing rows vid (s : State Env) rec s1,
       fetch_one vid ["en"] (15 # 100)%Q s = (Ok rec, s1) ->
       let s2 :=
         after_checkpoint existing (rows ++ [rec]) (after_pause rec s1) in
       process_video existing rows vid s = (Ok (rows ++ [rec]), s2) /\
       (get rec "error_type" = Some (VStr "TooManyRequests") ->
        after_pause rec s1
        = with_env s1 (time_sleep (60 # 1)%Q (env s1)) [EvSleep (60 # 1)%Q] /\
        cooldowns (trace s2) = cooldowns (trace s) ++ [(60 # 1)%Q]) /\
       (get rec "error_type" <> Some (VStr "TooManyRequests") ->
        after_pause rec s1 = s1 /\
        cooldowns (trace s2) = cooldowns (trace s))).
Proof.
  intros Env P. split; [|split].
  - intros vid langs sleep_s s [cls msg] s' Htry.
    eexists. split.
    + unfold fetch_one, bind, now, try_except. rewrite Htry.
      apply fetch_one_handlers_catch.
    + split; [reflexivity|]. split; [reflexivity|]. split; [reflexivity|].
      unfold classify, is_rate_limited, type_name. cbn.
      split.
      * destruct cls; try discriminate. reflexivity.
      * destruct cls; try reflexivity;
          intros [H | [H | H]]; discriminate.
  - intros [cls msg] [cls' msg']. unfold classify, type_name. cbn.
    destruct cls, cls'; intros H H'; split; intros Heq;
      try reflexivity; try discriminate; contradiction.
  - intros existing rows vid s rec s1 Hfetch s2.
    pose proof (fetch_one_inv _ _ _ _ Hfetch) as Hout.
    destruct (process_video_step existing rows vid s)
      as (rec' & s1' & Hfetch' & _ & Hproc).
    rewrite Hfetch in Hfetch'. injection Hfetch' as <- <-.
    split; [exact Hproc|].
    subst s2. rewrite (step_cooldowns existing rows Hout).
    unfold after_pause. split.
    + intros Hname. apply is_rate_limited_iff in Hname.
      rewrite Hname. now split.
    + intros Hname. rewrite <- is_rate_limited_iff in Hname.
      destruct (is_rate_limited rec); [contradiction|].
      split; [reflexivity | apply app_nil_r].
Qed.

(** The listing of video G raises a [ParseError], a class the program does
    not name: the row is recorded under the name of the class. *)
Lemma C7_witness :
  fetch_one_try (P := Sim.platform Sim.studio) "G" ["en"] (15 # 100)%Q 0%Z
    (mkState Sim.start None None [])
  = (Raised (Exn (OtherException "ParseError") "no element found"),
     mkState (Sim.World 200000 ["G"]) None None [EvListTranscripts "G"]) /\
  exists row,
    fetch_one (P := Sim.platform Sim.studio) "G" ["en"] (15 # 100)%Q
      (mkState Sim.start None None [])
    = (Ok row,
       mkState (Sim.World 200000 ["G"]) None None [EvListTranscripts "G"]) /\
    get row "error_type" = Some (VStr "ParseError") /\
    get row "error_message" = Some (VStr "no element found").
Proof.
  split; [reflexivity|].
  destruct (proj1 (C7_error_type_is_class_name_and_only_TooManyRequests_pauses
                     (Sim.platform Sim.studio))
              "G" ["en"] (15 # 100)%Q (mkState Sim.start None None [])
              (Exn (OtherException "ParseError") "no element found") _
              eq_refl) as (row & Hrun & _ & Htype & Hmsg & _).
  exists row. repeat split; assumption.
Defined.


(** C5. A second run on the same list of videos, started from the checkpoint
    the first run left, leaves the checkpoint file as it was and lists the
    transcripts of no video.  In a run, a video already in the checkpoint
    (with or without an error) keeps exactly the rows it had, and a
    checkpoint without duplicate videos stays without duplicates. *)
Theorem C5_second_run_changes_nothing :
  forall Env (P : Platform Env) (e e' : Env) videos checkpoint,
    let s1 := snd (run e videos checkpoint) in
    let s2 := snd (run e' videos (out_file s1)) in
    out_file s2 = out_file s1 /\
    listings (trace s2) = [] /\
    (forall vid,
       In vid (video_id_column (rows_of checkpoint)) ->
       count_occ string_dec (video_id_column (rows_of (out_file s1))) vid
       = count_occ string_dec (video_id_column (rows_of checkpoint)) vid) /\
    (NoDup (video_id_column (rows_of checkpoint)) ->
     NoDup (video_id_column (rows_of (out_file s1))) /\
     NoDup (video_id_column (rows_of (out_file s2)))).
Proof.
  intros Env P e e' [column|] checkpoint s1 s2.
  - destruct (load_done_ids checkpoint) as [done_ids|err] eqn:Hload.
    + destruct (run_summary e column checkpoint Hload)
        as (rows & sA & (_ & Hids & _ & _ & _ & _ & Hrows) & Hrun).
      set (final := concat_existing checkpoint rows) in *.
      assert (H1 : out_file s1 = Some final).
      { subst s1. now rewrite Hrun. }
      assert (Hcol : video_id_column final
                     = video_id_column (rows_of checkpoint)
                       ++ work_list done_ids (unique (dropna column))).
      { subst final. now rewrite video_id_column_concat, Hids. }
      assert (Hdone : forall vid,
                In vid (video_id_column (rows_of checkpoint)) ->
                ~ In vid (work_list done_ids (unique (dropna column)))).
      { intros vid Hin Hwork. apply filter_In in Hwork as [_ Hwork].
        apply (load_done_ids_keeps _ _ Hload), mem_In in Hin.
        now rewrite Hin in Hwork. }
      assert (H2 : out_file s2 = Some final /\ listings (trace s2) = []).
      { subst s2. rewrite H1.
        destruct (load_done_ids (Some final)) as [done2|err] eqn:Hload2.
        - assert (Hrun2 : run e' (Some column) (Some final)
                          = (Ok tt,
                             mkState e' (Some column) (Some final)
                               [EvToParquet final])).
          { unfold run, main. cbn [videos_file out_file]. unfold bind, lift.
            rewrite Hload2. rewrite main_loop_all_done.
            - cbn. now rewrite app_nil_r.
            - apply Forall_forall. intros vid Hvid. apply mem_In.
              rewrite (load_done_ids_ok _ Hload2). cbn [rows_of]. subst final.
              rewrite cell_strings_concat. apply in_or_app.
              rewrite <- (load_done_ids_ok _ Hload).
              destruct (mem vid done_ids) eqn:Hmem.
              + left. now apply mem_In.
              + right. rewrite cell_strings_rows.
                * rewrite Hids. apply filter_In. split; [assumption|].
                  now rewrite Hmem.
                * eapply Forall_impl; [|exact Hrows].
                  now intros row (_ & _ & H). }
          rewrite Hrun2. now split.
        - rewrite (run_aborted e' column _ Hload2). now split. }
      destruct H2 as [H2 H2l]. rewrite H2, H1. cbn [rows_of].
      repeat split; try assumption.
      * intros vid Hin. rewrite Hcol, count_occ_app.
        apply Hdone in Hin.
        apply (count_occ_not_In string_dec) in Hin. rewrite Hin. lia.
      * rewrite Hcol. apply NoDup_app; try assumption.
        apply NoDup_filter, unique_NoDup.
      * rewrite Hcol. apply NoDup_app; try assumption.
        apply NoDup_filter, unique_NoDup.
    + subst s2 s1. rewrite (run_aborted e column _ Hload).
      cbn [snd out_file]. rewrite (run_aborted e' column _ Hload).
      cbn [snd out_file trace listings]. repeat split; auto.
  - subst s2 s1. cbn. repeat split; auto.
Qed.

(** A checkpoint that already holds the failed row of video C: the run over
    A, B and C keeps that one row for C and adds no duplicate. *)
Lemma C5_witness :
  In "C" (video_id_column
            [failure_row "C" "TooManyRequests" "too many requests" 0%Z]) /\
  NoDup (video_id_column
           [failure_row "C" "TooManyRequests" "too many requests" 0%Z]) /\
  count_occ string_dec
    (video_id_column
       (Sim.checkpoint_after Sim.studio Sim.start Sim.ABC
          (Some [failure_row "C" "TooManyRequests" "too many requests" 0%Z])))
    "C" = 1%nat /\
  NoDup
    (video_id_column
       (Sim.checkpoint_after Sim.studio Sim.start Sim.ABC
          (Some [failure_row "C" "TooManyRequests" "too many requests" 0%Z]))).
Proof.
  assert (Hin : In "C" (video_id_column
                  [failure_row "C" "TooManyRequests" "too many requests" 0%Z]))
    by (now left).
  assert (Hnd : NoDup (video_id_column
                  [failure_row "C" "TooManyRequests" "too many requests" 0%Z]))
    by (repeat constructor; intros []).
  destruct (C5_second_run_changes_nothing (Sim.platform Sim.studio)
              Sim.start Sim.start Sim.ABC
              (Some [failure_row "C" "TooManyRequests" "too many requests" 0%Z]))
    as (_ & _ & Hcount & Hnodup).
  split; [exact Hin|]. split; [exact Hnd|]. split.
  - exact (Hcount "C" Hin).
  - exact (proj1 (Hnodup Hnd)).
Defined.

(** C4, as stated, fails: in the run over A, B and C the row of C has no
    text, its error type is [TooManyRequests], and the transcripts of C are
    listed once only (there is no second attempt). *)
Lemma C4_counterexample :
  exists row,
    Sim.row_of "C" (Sim.checkpoint_after Sim.studio Sim.start Sim.ABC None)
    = Some row /\
    lacks_text row /\
    get row "source" = Some VNone /\
    get row "language_code" = Some VNone /\
    get row "error_type" = Some (VStr "TooManyRequests") /\
    count_occ string_dec
      (listings
         (trace (snd (run (P := Sim.platform Sim.studio)
                        Sim.start Sim.ABC None)))) "C" = 1%nat.
Proof.
  eexists. split; [reflexivity|]. repeat split.
Qed.

(** C4, amended. On the input [A, B, C] of the scenario a single run ends
    normally and leaves three rows: A with text, source [manual], language
    [en]; B with text, source [auto], language [es] (tier 4); C without text,
    with error type [TooManyRequests].  C is attempted once; the only pause
    of 60 seconds comes right after that attempt, before the final write; and
    a second run from that checkpoint attempts nothing, so C stays failed. *)
Theorem C4_scenario_single_run :
  let s' := snd (run (P := Sim.platform Sim.studio) Sim.start Sim.ABC None) in
  fst (run (P := Sim.platform Sim.studio) Sim.start Sim.ABC None) = Ok tt /\
  (exists a b c,
     out_file s' = Some [a; b; c] /\
     (video_id_of a = Some "A" /\ has_text a /\
      get a "source" = Some (VStr "manual") /\
      get a "language_code" = Some (VStr "en") /\
      get a "transcript_text" = Some (VStr "hello world")) /\
     (video_id_of b = Some "B" /\ has_text b /\
      get b "source" = Some (VStr "auto") /\
      get b "language_code" = Some (VStr "es")) /\
     (video_id_of c = Some "C" /\ lacks_text c /\
      get c "source" = Some VNone /\
      get c "language_code" = Some VNone /\
      get c "error_type" = Some (VStr "TooManyRequests")) /\
     trace s'
     = [ EvListTranscripts "A"; EvFetch "en" false; EvSleep (15 # 100)%Q;
         EvListTranscripts "B"; EvFetch "es" true; EvSleep (15 # 100)%Q;
         EvListTranscripts "C"; EvSleep (60 # 1)%Q;
         EvToParquet [a; b; c] ]) /\
  listings (trace s') = ["A"; "B"; "C"] /\
  cooldowns (trace s') = [(60 # 1)%Q] /\
  listings
    (trace (snd (run (P := Sim.platform Sim.studio)
                   (env s') Sim.ABC (out_file s')))) = [] /\
  out_file (snd (run (P := Sim.platform Sim.studio)
                   (env s') Sim.ABC (out_file s'))) = out_file s'.
Proof.
  cbv zeta. split; [reflexivity|]. split.
  - do 3 eexists. split; [reflexivity|]. repeat split.
  - repeat split.
Qed.

(** * Further properties of the text-source driver *)


Lemma dropna_In : forall column vid,
  In vid (dropna column) <-> In (Some vid) column.
Proof.
  induction column as [|[s|] column IH]; intros vid; simpl.
  - tauto.
  - rewrite IH. split; intros [H | H]; auto; left; congruence.
  - rewrite IH. split; [auto | intros [H | H]; [discriminate | assumption]].
Qed.

(** X1. What a run attempts is exactly its work list: the distinct video ids
    of the input column, in order of first appearance, without the missing
    entries and without the ids found in the [video_id] column of the
    checkpoint (read as strings); each of them is attempted once, and no
    video that has a row in the checkpoint is attempted.  On a checkpoint
    file without that column the run raises [KeyError] and attempts
    nothing. *)
Theorem X1_run_attempts_exactly_the_work_list :
  forall Env (P : Platform Env) (e : Env) column checkpoint,
    let s' := snd (run e (Some column) checkpoint) in
    match load_done_ids checkpoint with
    | Ok done_ids =>
        listings (trace s') = work_list done_ids (unique (dropna column)) /\
        NoDup (listings (trace s')) /\
        (forall vid,
           In vid (listings (trace s'))
           <-> In (Some vid) column /\ ~ In vid done_ids) /\
        (forall vid,
           In vid (listings (trace s')) ->
           In vid (video_id_column (rows_of checkpoint)) -> False)
    | Raised err =>
        fst (run e (Some column) checkpoint) = Raised err /\
        listings (trace s') = []
    end.
Proof.
  intros Env P e column checkpoint s'.
  destruct (load_done_ids checkpoint) as [done_ids|err] eqn:Hload.
  - destruct (run_summary e column checkpoint Hload)
      as (rows & s1 & (_ & Hids & Hl & _) & Hrun).
    assert (H : listings (trace s')
                = work_list done_ids (unique (dropna column))).
    { subst s'. rewrite Hrun. cbn [snd to_parquet trace].
      rewrite listings_app, Hl, Hids. cbn. now rewrite app_nil_r. }
    assert (Hiff : forall vid,
              In vid (work_list done_ids (unique (dropna column)))
              <-> In (Some vid) column /\ ~ In vid done_ids).
    { intros vid. unfold work_list. rewrite filter_In, unique_In, dropna_In.
      rewrite negb_true_iff, mem_not_In. tauto. }
    rewrite H. split; [reflexivity|]. split; [|split].
    + unfold work_list. apply NoDup_filter, unique_NoDup.
    + exact Hiff.
    + intros vid Hin Hrow. apply Hiff in Hin as [_ Hin]. apply Hin.
      now apply (load_done_ids_keeps _ _ Hload).
  - subst s'. now rewrite (run_aborted e column _ Hload).
Qed.

Section Pacing.

Context {Env : Type} {P : Platform Env}.

Lemma outcome_pause :
  forall vid langs (s : State Env) rec s1,
    fetch_outcome vid langs (15 # 100)%Q s rec s1 ->
    sleeps (trace (after_pause rec s1)) = sleeps (trace s) ++ pause_after rec.
Proof.
  intros vid langs s rec s1 Hout.
  rewrite after_pause_trace, sleeps_app.
  destruct Hout; cbn [with_env trace]; rewrite sleeps_app;
    rewrite <- app_assoc; f_equal;
    unfold pause_after, is_rate_limited; cbn;
    try reflexivity;
    match goal with
    | |- context [String.eqb ?a ?b] => destruct (String.eqb a b); reflexivity
    end.
Qed.

End Pacing.

(** X2. The pauses of a run are decided row by row: 0.15 s after each row
    with text, 60 s after each rate-limited row, none after any other failed
    row; there is no other pause. *)
Theorem X2_run_pauses_follow_the_rows :
  forall Env (P : Platform Env) (e : Env) column checkpoint,
    let s' := snd (run e (Some column) checkpoint) in
    exists rows,
      out_file s' = Some (concat_existing checkpoint rows) /\
      sleeps (trace s') = flat_map pause_after rows.
Proof.
  intros Env P e column checkpoint s'.
  destruct (load_done_ids checkpoint) as [done_ids|err] eqn:Hload.
  - destruct (@run_rule _ _ e column checkpoint done_ids
                (fun _ rows s => sleeps (trace s) = flat_map pause_after rows)
                Hload)
      as (rows & s1 & HI & Hrun).
    + auto.
    + intros gone rows s vid rec s1 HI _ Hout.
      rewrite after_checkpoint_trace, sleeps_app, (outcome_pause Hout), HI.
      rewrite flat_map_app. cbn [flat_map]. rewrite app_nil_r.
      destruct (checkpoint_due (rows ++ [rec])); cbn; now rewrite app_nil_r.
    + reflexivity.
    + exists rows. subst s'. rewrite Hrun. cbn [snd to_parquet trace out_file].
      split; [reflexivity|].
      rewrite sleeps_app, HI. cbn. now rewrite app_nil_r.
  - destruct (load_done_ids_raised _ Hload) as (df & -> & _).
    subst s'. rewrite (run_aborted e column _ Hload).
    exists []. cbn. now rewrite app_nil_r.
Qed.

Lemma next_hundred : forall n,
  (if (S n mod 100 =? 0)%nat
   then S n / 100 = n / 100 + 1 /\ 100 * (S n / 100) = S n
   else S n / 100 = n / 100)%nat.
Proof.
  intros n.
  pose proof (Nat.div_mod_eq n 100) as Hn.
  pose proof (Nat.div_mod_eq (S n) 100) as HSn.
  pose proof (Nat.mod_upper_bound n 100) as Hr.
  pose proof (Nat.mod_upper_bound (S n) 100) as Hr'.
  destruct (S n mod 100 =? 0)%nat eqn:Hdue.
  - apply Nat.eqb_eq in Hdue. lia.
  - apply Nat.eqb_neq in Hdue. lia.
Qed.

Lemma firstn_app_short : forall (A : Type) (l more : list A) n,
  (n <= length l)%nat -> firstn n (l ++ more) = firstn n l.
Proof.
  intros A l more n H. rewrite firstn_app.
  replace (n - length l)%nat with 0%nat by lia. apply app_nil_r.
Qed.

(** X3. When the checkpoint loads, the file is written after every hundredth
    new row and once more at the end: the k-th write of the loop holds the
    rows of the loaded checkpoint followed by the first 100 k new rows, and
    the final write holds all of them; a run with fewer than 100 new rows
    writes the file once.  On a checkpoint file without the [video_id]
    column the run raises [KeyError] and writes nothing. *)
Theorem X3_run_writes_every_hundred_rows_and_at_the_end :
  forall Env (P : Platform Env) (e : Env) column checkpoint,
    let s' := snd (run e (Some column) checkpoint) in
    match load_done_ids checkpoint with
    | Ok _ =>
        exists rows,
          video_id_column rows = listings (trace s') /\
          out_file s' = Some (rows_of checkpoint ++ rows) /\
          writes (trace s')
          = map (fun k => rows_of checkpoint ++ firstn (100 * k) rows)
              (seq 1 (length rows / 100))
            ++ [rows_of checkpoint ++ rows]
    | Raised err =>
        fst (run e (Some column) checkpoint) = Raised err /\
        writes (trace s') = [] /\
        out_file s' = checkpoint
    end.
Proof.
  intros Env P e column checkpoint s'.
  destruct (load_done_ids checkpoint) as [done_ids|err] eqn:Hload.
  - destruct (@run_rule _ _ e column checkpoint done_ids
                (fun _ rows s =>
                   listings (trace s) = video_id_column rows /\
                   writes (trace s)
                   = map (fun k => rows_of checkpoint ++ firstn (100 * k) rows)
                       (seq 1 (length rows / 100))) Hload)
      as (rows & s1 & [Hl HI] & Hrun).
    + auto.
    + intros gone rows s vid rec s1 [Hl HI] _ Hout. split.
      { rewrite (step_listings checkpoint rows Hout), Hl.
        rewrite video_id_column_app. cbn.
        now rewrite (outcome_video_id Hout). }
      rewrite (step_writes checkpoint rows Hout), HI, concat_existing_eq.
      assert (Hkeep :
        map (fun k => rows_of checkpoint ++ firstn (100 * k) (rows ++ [rec]))
          (seq 1 (length rows / 100))
        = map (fun k => rows_of checkpoint ++ firstn (100 * k) rows)
            (seq 1 (length rows / 100))).
      { apply map_ext_in. intros k Hk. apply in_seq in Hk.
        rewrite firstn_app_short; [reflexivity|].
        pose proof (Nat.div_mod_eq (length rows) 100). lia. }
      pose proof (next_hundred (length rows)) as Hnext.
      unfold checkpoint_due. rewrite length_app. cbn [length].
      replace (length rows + 1)%nat with (S (length rows)) by lia.
      cbn [Nat.ltb Nat.leb andb].
      destruct (S (length rows) mod 100 =? 0)%nat.
      * destruct Hnext as [Hq Hfull]. rewrite Hq.
        replace (length rows / 100 + 1)%nat with (S (length rows / 100)) by lia.
        rewrite seq_S, map_app, Hkeep. cbn [map]. do 3 f_equal.
        replace (100 * (1 + length rows / 100))%nat with (S (length rows)) by lia.
        rewrite firstn_all2; [reflexivity|].
        rewrite length_app. cbn. lia.
      * rewrite Hnext, Hkeep. now rewrite app_nil_r.
    + split; reflexivity.
    + exists rows. subst s'. rewrite Hrun. cbn [snd to_parquet trace out_file].
      rewrite concat_existing_eq, listings_app, writes_app, Hl, HI.
      cbn. rewrite app_nil_r. repeat split.
  - subst s'. now rewrite (run_aborted e column _ Hload).
Qed.

Lemma first_hit_in_language :
  forall Env (attempt : string -> option (transcript Env)) langs t,
    (forall l t, attempt l = Some t -> language_code t = l) ->
    first_hit attempt langs t -> In (language_code t) langs.
Proof.
  intros Env attempt langs t Hhonest.
  induction 1 as [l rest t Ht | l rest t _ _ IH].
  - left. symmetry. now apply Hhonest.
  - right. exact IH.
Qed.

(** X4. When the lookups of a transcript list answer in the language they are
    asked for, a transcript in a preferred language is never passed over: if
    any preferred language has a manual or an auto transcript, the transcript
    [pick_transcript] returns is in one of the preferred languages. *)
Theorem X4_pick_transcript_stays_in_preferred_languages :
  forall Env (tl : transcript_list Env) preferred_langs chosen source lang,
    (forall l t, manual_in tl l = Some t -> language_code t = l) ->
    (forall l t, auto_in tl l = Some t -> language_code t = l) ->
    In lang preferred_langs ->
    manual_in tl lang <> None \/ auto_in tl lang <> None ->
    pick_transcript tl preferred_langs = Ok (Some chosen, source) ->
    In (language_code chosen) preferred_langs.
Proof.
  intros Env tl langs chosen source lang Hman Hauto Hin Hhas Hpick.
  pose proof (@first_hit_in_language Env) as Hfirst.
  assert (Hnone : forall (attempt : string -> option (transcript Env)),
            no_hit attempt langs -> attempt lang = None).
  { intros attempt Hno. unfold no_hit in Hno.
    rewrite Forall_forall in Hno. now apply Hno. }
  apply pick_transcript_selects in Hpick.
  inversion Hpick as [t H1 | t H1 H2 | t H1 H2 H3 | t H1 H2 H3 H4 | ]; subst.
  - now apply (Hfirst (manual_in tl)).
  - now apply (Hfirst (auto_in tl)).
  - apply Hnone in H1, H2. destruct Hhas; contradiction.
  - apply Hnone in H1, H2. destruct Hhas; contradiction.
Qed.

(** Video D has manual and auto transcripts in English, Spanish and French;
    with German and Spanish preferred the manual Spanish one is returned. *)
Lemma X4_witness :
  In "es" ["de"; "es"] /\
  manual_in
    (Sim.TranscriptList [Sim.manual_fr; Sim.manual_es; Sim.manual_en]
       [Sim.auto_es; Sim.auto_en]) "es" <> None /\
  pick_transcript
    (Sim.TranscriptList [Sim.manual_fr; Sim.manual_es; Sim.manual_en]
       [Sim.auto_es; Sim.auto_en]) ["de"; "es"]
  = Ok (Some Sim.manual_es, Some "manual") /\
  In (language_code Sim.manual_es) ["de"; "es"].
Proof.
  assert (Hhonest : forall (ts : list (transcript Sim.world)) l t,
            found (Sim.find_transcript [l] ts) = Some t ->
            language_code t = l).
  { intros ts l t. rewrite find_transcript_single. intros H.
    apply find_some in H. now apply String.eqb_eq. }
  assert (Hin : In "es" ["de"; "es"]) by (right; now left).
  split; [exact Hin|]. split; [discriminate|]. split; [reflexivity|].
  apply (@X4_pick_transcript_stays_in_preferred_languages Sim.world
           (Sim.TranscriptList [Sim.manual_fr; Sim.manual_es; Sim.manual_en]
              [Sim.auto_es; Sim.auto_en])
           ["de"; "es"] Sim.manual_es (Some "manual") "es").
  - intros l t. apply Hhonest.
  - intros l t. apply Hhonest.
  - exact Hin.
  - left. discriminate.
  - reflexivity.
Defined.

(** * The Whisper path: download and driver *)

Section Download.

Context {Env : Type} {P : Platform Env}.

Lemma first_existing_eq : forall vid exts (s : State Env),
  Whisper.first_existing vid exts s
  = match first_some (existing_file (env s))
            (map (Whisper.audio_file vid) exts) with
    | Some path => (Ok path, s)
    | None =>
        (Raised (Whisper.FileNotFoundError
                   ("Audio not found for " ++ vid ++ " after download.")%string),
         s)
    end.
Proof.
  intros vid exts s. induction exts as [|ext exts IH]; [reflexivity|].
  cbn [Whisper.first_existing map first_some].
  unfold bind, Whisper.exists_, existing_file at 1.
  destruct (path_exists (Whisper.audio_file vid ext) (env s));
    [reflexivity | exact IH].
Qed.

(** [download_audio] in one equation: the audio directory is made, then
    yt-dlp runs once, then the first candidate file that exists is taken. *)
Lemma download_audio_eq : forall vid (s : State Env),
  Whisper.download_audio vid s
  = let '(made, e0) := make_dirs Whisper.AUDIO_DIR (env s) in
    match made with
    | Raised err =>
        (Raised err, mkState e0 (videos_file s) (out_file s) (trace s))
    | Ok _ =>
        let '(r, e1) := subprocess_run (WhisperMain.download_command vid) e0 in
        let s1 :=
          mkState e1 (videos_file s) (out_file s)
            (trace s ++ [EvSubprocess (WhisperMain.download_command vid)]) in
        match r with
        | Raised err => (Raised err, s1)
        | Ok _ =>
            match first_some (existing_file e1) (WhisperMain.candidates vid) with
            | Some path => (Ok path, s1)
            | None =>
                (Raised (Whisper.FileNotFoundError
                           ("Audio not found for " ++ vid
                              ++ " after download.")%string),
                 s1)
            end
        end
    end.
Proof.
  intros vid s.
  unfold Whisper.download_audio, bind, Whisper.mkdir, Whisper.run_subprocess.
  fold (WhisperMain.download_command vid).
  destruct (make_dirs Whisper.AUDIO_DIR (env s)) as [[[]|err0] e0];
    [|reflexivity].
  cbn [env].
  destruct (subprocess_run (WhisperMain.download_command vid) e0)
    as [[[]|err] e1]; [|reflexivity].
  unfold Whisper.exists_, WhisperMain.candidates, with_env.
  cbn [map first_some env videos_file out_file trace].
  unfold existing_file at 1.
  destruct (path_exists (Whisper.audio_file vid "mp3") e1); cbn [negb].
  - reflexivity.
  - now rewrite first_existing_eq.
Qed.

End Download.

Lemma first_hit_existing :
  forall Env (P : Platform Env) (e : Env) l path,
    first_hit (existing_file e) l path ->
    path_exists path e = true /\ In path l.
Proof.
  intros Env P e l path H.
  induction H as [a l b Ha | a l b _ _ [IH1 IH2]].
  - unfold existing_file in Ha.
    destruct (path_exists a e) eqn:Hp; [|discriminate].
    injection Ha as <-. split; [assumption | now left].
  - split; [assumption | now right].
Qed.

(** ** Paths of plain names *)

Module PathFacts.

Import Ascii.

Lemma split_slash_plain : forall s,
  Whisper.slash_free s -> Whisper.split_slash s = [s].
Proof.
  induction s as [|c s IH]; intros H; [reflexivity|].
  inversion H as [|? ? Hc Hs]; subst. cbn [Whisper.split_slash].
  rewrite Hc, (IH Hs). reflexivity.
Qed.

Lemma slash_free_append : forall a b,
  Whisper.slash_free a -> Whisper.slash_free b -> Whisper.slash_free (a ++ b).
Proof.
  intros a b Ha Hb. unfold Whisper.slash_free in *.
  induction a as [|c a IH]; cbn; [assumption|].
  inversion Ha; subst. constructor; auto.
Qed.

Lemma file_name_not_empty : forall vid ext : string,
  ext <> "" -> (vid ++ "." ++ ext =? "")%string = false /\
               (vid ++ "." ++ ext =? ".")%string = false.
Proof.
  intros vid ext Hext. split.
  - destruct vid; reflexivity.
  - destruct vid as [|c [|c' vid]]; cbn.
    + destruct ext as [|c ext]; [contradiction | reflexivity].
    + destruct (Ascii.eqb c "."); reflexivity.
    + destruct (Ascii.eqb c "."); reflexivity.
Qed.

(** The audio file of a video whose id holds no slash is the plain
    concatenation. *)
Lemma audio_file_plain : forall vid ext,
  Whisper.slash_free vid -> Whisper.slash_free ext -> ext <> "" ->
  Whisper.audio_file vid ext = ("data/audio/" ++ vid ++ "." ++ ext)%string.
Proof.
  intros vid ext Hvid Hext Hne.
  assert (Hname : Whisper.slash_free (vid ++ "." ++ ext)).
  { apply slash_free_append; [assumption|].
    apply slash_free_append; [|assumption]. repeat constructor. }
  destruct (file_name_not_empty vid Hne) as [H1 H2].
  unfold Whisper.audio_file, Whisper.path_join.
  set (name := (vid ++ "." ++ ext)%string) in *.
  assert (Hroot : Whisper.path_root name = "").
  { destruct name as [|c name]; [reflexivity|].
    inversion Hname as [|? ? Hc _]; subst. cbn. now rewrite Hc. }
  rewrite Hroot.
  unfold Whisper.posix_path, Whisper.path_parts, Whisper.AUDIO_DIR.
  cbn [String.append Whisper.path_root Ascii.eqb Bool.eqb].
  cbn [Whisper.split_slash Ascii.eqb Bool.eqb].
  rewrite (split_slash_plain Hname).
  cbn [filter String.eqb Ascii.eqb Bool.eqb negb andb].
  rewrite H1, H2. reflexivity.
Qed.

(** The audio file of a video whose id is a slash followed by a name without
    slash lies at the root: the absolute name replaces the audio directory. *)
Lemma audio_file_absolute : forall name ext,
  Whisper.slash_free name -> Whisper.slash_free ext -> ext <> "" ->
  Whisper.audio_file ("/" ++ name) ext = ("/" ++ name ++ "." ++ ext)%string.
Proof.
  intros name ext Hname Hext Hne.
  assert (Hfile : Whisper.slash_free (name ++ "." ++ ext)).
  { apply slash_free_append; [assumption|].
    apply slash_free_append; [|assumption]. repeat constructor. }
  destruct (file_name_not_empty name Hne) as [H1 H2].
  unfold Whisper.audio_file, Whisper.path_join.
  replace (("/" ++ name) ++ "." ++ ext)%string
    with (String "/" (name ++ "." ++ ext)) by reflexivity.
  set (file := (name ++ "." ++ ext)%string) in *.
  assert (Hroot : Whisper.path_root (String "/" file) = "/").
  { destruct file as [|c file]; [reflexivity|].
    inversion Hfile as [|? ? Hc _]; subst. cbn. now rewrite Hc. }
  rewrite Hroot.
  unfold Whisper.posix_path, Whisper.path_parts. rewrite Hroot.
  cbn [Whisper.split_slash Ascii.eqb Bool.eqb].
  rewrite (split_slash_plain Hfile).
  cbn [filter String.eqb Ascii.eqb Bool.eqb negb andb].
  rewrite H1, H2. reflexivity.
Qed.

End PathFacts.

(** X5. The path [download_audio] returns is a file that exists after the
    download, and it is the first of the video's mp3, m4a, webm and opus
    files that does (an mp3 is taken whenever there is one); the audio
    directory was made and yt-dlp ran exactly once.  The files of a video are
    named as [pathlib] joins the directory and the name: for an id without a
    slash this is [data/audio/<id>.<ext>], and for an id that is a slash
    followed by a name it is [/<name>.<ext>], outside the audio directory. *)
Theorem X5_download_audio_returns_first_existing_candidate :
  forall Env (P : Platform Env),
    (forall vid (s : State Env) path s',
       Whisper.download_audio vid s = (Ok path, s') ->
       path_exists path (env s') = true /\
       first_hit (existing_file (env s')) (WhisperMain.candidates vid) path /\
       In path (WhisperMain.candidates vid) /\
       fst (make_dirs Whisper.AUDIO_DIR (env s)) = Ok tt /\
       trace s' = trace s ++ [EvSubprocess (WhisperMain.download_command vid)]) /\
    (forall vid,
       Whisper.slash_free vid ->
       WhisperMain.candidates vid
       = map (fun ext => ("data/audio/" ++ vid ++ "." ++ ext)%string)
           ["mp3"; "m4a"; "webm"; "opus"] /\
       WhisperMain.download_command vid
       = [ "yt-dlp"; "-x"; "--audio-format"; "mp3"; "-o";
           ("data/audio/" ++ vid ++ ".%(ext)s")%string;
           ("https://www.youtube.com/watch?v=" ++ vid)%string ]) /\
    (forall name,
       Whisper.slash_free name ->
       WhisperMain.candidates ("/" ++ name)
       = map (fun ext => ("/" ++ name ++ "." ++ ext)%string)
           ["mp3"; "m4a"; "webm"; "opus"]).
Proof.
  intros Env P. split; [|split].
  - intros vid s path s'. rewrite download_audio_eq.
    destruct (make_dirs Whisper.AUDIO_DIR (env s)) as [[[]|err0] e0];
      [|discriminate].
    destruct (subprocess_run (WhisperMain.download_command vid) e0)
      as [[[]|err] e1]; [|discriminate].
    destruct (first_some (existing_file e1) (WhisperMain.candidates vid))
      as [p|] eqn:Hfirst; [|discriminate].
    intros [= <- <-]. cbn [env trace fst].
    apply first_hit_first_some in Hfirst.
    destruct (first_hit_existing Hfirst) as [Hp Hin]. auto.
  - intros vid Hvid.
    unfold WhisperMain.candidates, WhisperMain.download_command.
    cbn [map].
    rewrite !PathFacts.audio_file_plain
      by (first [assumption | discriminate | repeat constructor]).
    split; reflexivity.
  - intros name Hname. unfold WhisperMain.candidates. cbn [map].
    rewrite !PathFacts.audio_file_absolute
      by (first [assumption | discriminate | repeat constructor]).
    reflexivity.
Qed.

(** Video B has no mp3 but an m4a file after the download. *)
Lemma X5_witness :
  Whisper.download_audio (P := Sim.platform Sim.studio) "B"
    (mkState Sim.start None None [])
  = (Ok "data/audio/B.m4a",
     mkState (Sim.World 5000000 []) None None
       [EvSubprocess (WhisperMain.download_command "B")]) /\
  path_exists (Platform := Sim.platform Sim.studio) "data/audio/B.m4a"
    (Sim.World 5000000 []) = true /\
  In "data/audio/B.m4a" (WhisperMain.candidates "B").
Proof.
  split; [reflexivity|].
  destruct (proj1 (@X5_download_audio_returns_first_existing_candidate
                     Sim.world (Sim.platform Sim.studio)) "B"
              (mkState Sim.start None None []) "data/audio/B.m4a"
              (mkState (Sim.World 5000000 []) None None
                 [EvSubprocess (WhisperMain.download_command "B")])
              eq_refl) as (Hexists & _ & Hin & _).
  split; assumption.
Defined.

(** X6. [download_audio] fails in three ways only: with the exception of
    [mkdir] when the audio directory cannot be made, before yt-dlp is run;
    with the exception of yt-dlp when yt-dlp fails, without looking for any
    file; and with [FileNotFoundError] when yt-dlp succeeded and none of the
    four candidate files exists.  In the last two yt-dlp ran once and is not
    retried. *)
Theorem X6_download_audio_failures :
  forall Env (P : Platform Env) vid (s : State Env) err s',
    Whisper.download_audio vid s = (Raised err, s') ->
    let cmd := WhisperMain.download_command vid in
    let made := make_dirs Whisper.AUDIO_DIR (env s) in
    (fst made = Raised err /\ trace s' = trace s) \/
    (fst made = Ok tt /\
     trace s' = trace s ++ [EvSubprocess cmd] /\
     (fst (subprocess_run cmd (snd made)) = Raised err \/
      (fst (subprocess_run cmd (snd made)) = Ok tt /\
       no_hit (existing_file (env s')) (WhisperMain.candidates vid) /\
       err = Whisper.FileNotFoundError
               ("Audio not found for " ++ vid ++ " after download.")%string))).
Proof.
  intros Env P vid s err s'. rewrite download_audio_eq. cbv zeta.
  destruct (make_dirs Whisper.AUDIO_DIR (env s)) as [[[]|err0] e0];
    cbn [fst snd].
  - destruct (subprocess_run (WhisperMain.download_command vid) e0)
      as [[[]|err'] e1]; cbn [fst].
    + destruct (first_some (existing_file e1) (WhisperMain.candidates vid))
        as [p|] eqn:Hfirst; [discriminate|].
      intros [= <- <-]. cbn [env trace]. right.
      split; [reflexivity|]. split; [reflexivity|].
      right. split; [reflexivity|]. split; [|reflexivity].
      now apply no_hit_first_some.
    + intros [= <- <-]. right. split; [reflexivity|].
      split; [reflexivity | now left].
  - intros [= <- <-]. left. now split.
Qed.

(** Video Z has no audio file at all after the download; and where the audio
    directory cannot be made yt-dlp is not run. *)
Lemma X6_witness :
  (Whisper.download_audio (P := Sim.platform Sim.studio) "Z"
     (mkState Sim.start None None [])
   = (Raised (Whisper.FileNotFoundError "Audio not found for Z after download."),
      mkState (Sim.World 5000000 []) None None
        [EvSubprocess (WhisperMain.download_command "Z")]) /\
   no_hit (existing_file (P := Sim.platform Sim.studio) (Sim.World 5000000 []))
     (WhisperMain.candidates "Z")) /\
  (exists err,
     Whisper.download_audio (P := Sim.platform Sim.read_only) "A"
       (mkState Sim.start None None [])
     = (Raised err, mkState Sim.start None None []) /\
     type_name err = "PermissionError").
Proof.
  split.
  - split; [reflexivity|].
    destruct (@X6_download_audio_failures
                Sim.world (Sim.platform Sim.studio) "Z"
                (mkState Sim.start None None []) _ _ eq_refl)
      as [[Hmade _] | (_ & _ & [Hsub | (_ & Hno & _)])].
    + discriminate Hmade.
    + discriminate Hsub.
    + exact Hno.
  - eexists. split; reflexivity.
Defined.

Lemma subprocesses_app : forall tr tr',
  subprocesses (tr ++ tr') = subprocesses tr ++ subprocesses tr'.
Proof.
  induction tr as [|ev tr IH]; intros tr'; simpl; [reflexivity|].
  destruct ev; simpl; now rewrite IH.
Qed.

(** ** Subsequences *)

Section Subsequence.

Context {A : Type}.

Lemma subsequence_refl : forall l : list A, subsequence l l.
Proof. induction l; constructor; assumption. Qed.

Lemma subsequence_nil : forall l : list A, subsequence [] l.
Proof. induction l; constructor; assumption. Qed.

Lemma subsequence_app : forall l1 l1' l2 l2' : list A,
  subsequence l1 l1' -> subsequence l2 l2' ->
  subsequence (l1 ++ l2) (l1' ++ l2').
Proof.
  intros l1 l1' l2 l2' H1 H2.
  induction H1; cbn; try constructor; assumption.
Qed.

Lemma subsequence_length : forall l l' : list A,
  subsequence l l' -> (length l <= length l')%nat.
Proof. induction 1; cbn; lia. Qed.

Lemma subsequence_In : forall (l l' : list A) x,
  subsequence l l' -> In x l -> In x l'.
Proof.
  induction 1 as [|y l l' _ IH|y l l' _ IH]; cbn; intros Hin.
  - assumption.
  - destruct Hin as [-> | Hin]; auto.
  - auto.
Qed.

End Subsequence.

Section WhisperDriver.

Context {Env : Type} {P : Platform Env}.

(** One iteration: always a row, of the video, that satisfies the invariant
    of a result; at most one download, which is made whenever the audio
    directory can be, and no write; text only after a transcription of one of
    the candidate files. *)
Lemma transcribe_video_facts : forall vid (s : State Env),
  exists row s1 evs,
    Whisper.transcribe_video vid s = (Ok row, s1) /\
    result_invariant row /\
    video_id_of row = Some vid /\
    videos_file s1 = videos_file s /\
    out_file s1 = out_file s /\
    trace s1 = trace s ++ evs /\
    (subprocesses evs = [WhisperMain.download_command vid] \/
     subprocesses evs = []) /\
    (fst (make_dirs Whisper.AUDIO_DIR (env s)) = Ok tt ->
     subprocesses evs = [WhisperMain.download_command vid]) /\
    writes evs = [] /\
    (has_text row ->
     exists path,
       In path (WhisperMain.candidates vid) /\ transcriptions evs = [path]).
Proof.
  intros vid s.
  unfold Whisper.transcribe_video, bind, now, try_except.
  rewrite download_audio_eq.
  destruct (make_dirs Whisper.AUDIO_DIR (env s)) as [[[]|err0] e0].
  - destruct (subprocess_run (WhisperMain.download_command vid) e0)
      as [[[]|err] e1].
    + destruct (first_some (existing_file e1) (WhisperMain.candidates vid))
        as [path|] eqn:Hfirst.
      * unfold Whisper.model_transcribe, with_env.
        cbn [env videos_file out_file trace].
        apply first_hit_first_some, first_hit_existing in Hfirst.
        destruct Hfirst as [_ Hin].
        destruct (whisper_transcribe path e1) as [[res|err] e2];
          rewrite <- app_assoc; do 3 eexists;
          (split; [reflexivity|]);
          (split; [apply transcribed_row_invariant
                    || apply failed_row_invariant|]);
          repeat (split; [try reflexivity; try (now left)|]).
        -- intros _. exists path. split; [assumption | reflexivity].
        -- intros H. discriminate H.
      * do 3 eexists. split; [reflexivity|].
        split; [apply failed_row_invariant|].
        repeat (split; [try reflexivity; try (now left)|]).
        intros H. discriminate H.
    + do 3 eexists. split; [reflexivity|].
      split; [apply failed_row_invariant|].
      repeat (split; [try reflexivity; try (now left)|]).
      intros H. discriminate H.
  - eexists. eexists. exists []. split; [reflexivity|].
    split; [apply failed_row_invariant|].
    cbn [videos_file out_file trace fst subprocesses writes].
    rewrite app_nil_r.
    repeat (split; [try reflexivity; try (now right)|]).
    + discriminate.
    + intros H. discriminate H.
Qed.

Lemma whisper_loop_rule :
  forall existing done
    (I : list string -> list dict -> State Env -> Prop),
    (forall gone rows s vid,
       I gone rows s -> mem vid done = true -> I (gone ++ [vid]) rows s) ->
    (forall gone rows s vid row s1,
       I gone rows s -> mem vid done = false ->
       Whisper.transcribe_video vid s = (Ok row, s1) ->
       I (gone ++ [vid]) (rows ++ [row])
         (if WhisperMain.checkpoint_due (rows ++ [row])
          then snd (to_parquet (concat_existing existing (rows ++ [row])) s1)
          else s1)) ->
    forall video_ids gone rows s,
      I gone rows s ->
      exists rows' s',
        WhisperMain.main_loop existing done video_ids rows s = (Ok rows', s') /\
        I (gone ++ video_ids) rows' s'.
Proof.
  intros existing done I Hskip Hstep.
  induction video_ids as [|vid rest IH]; intros gone rows s HI.
  - exists rows, s. rewrite app_nil_r. now split.
  - cbn [WhisperMain.main_loop].
    replace (gone ++ vid :: rest) with ((gone ++ [vid]) ++ rest)
      by now rewrite <- app_assoc.
    destruct (mem vid done) eqn:Hmem.
    + apply IH. now apply Hskip.
    + destruct (transcribe_video_facts vid s) as (row & s1 & evs & Hrun & _).
      unfold bind, WhisperMain.process_video, bind. rewrite Hrun.
      specialize (Hstep gone rows s vid row s1 HI Hmem Hrun).
      destruct (WhisperMain.checkpoint_due (rows ++ [row]));
        apply IH; exact Hstep.
Qed.

Lemma whisper_loop_summary :
  forall existing done video_ids (s0 : State Env),
    exists rows s',
      WhisperMain.main_loop existing done video_ids [] s0 = (Ok rows, s') /\
      whisper_invariant done s0 video_ids rows s'.
Proof.
  intros existing done video_ids s0.
  destruct (whisper_loop_rule existing done (whisper_invariant done s0))
    with (video_ids := video_ids) (gone := @nil string) (rows := @nil dict)
         (s := s0) as (rows & s' & Hloop & HI).
  - intros gone rows s vid (Hv & Hids & Hlen & Hsub & Hall & Hinv & Hhave) Hmem.
    unfold whisper_invariant.
    rewrite work_list_skip by assumption. auto 8.
  - intros gone rows s vid row s1
      (Hv & Hids & Hlen & (downloaded & Hsub & Hsubseq) & Hall & Hinv & Hhave)
      Hmem Hrun.
    destruct (transcribe_video_facts vid s)
      as (row' & s1' & evs & Hrun' & Hrow & Hid & Hvf & _ & Htr & Hs & Hmade
          & _).
    rewrite Hrun in Hrun'. injection Hrun' as <- <-.
    unfold whisper_invariant.
    rewrite work_list_take by assumption.
    assert (Hfiles : forall b : bool,
              videos_file
                (if b
                 then snd (to_parquet
                             (concat_existing existing (rows ++ [row])) s1)
                 else s1) = videos_file s0).
    { intros []; cbn; congruence. }
    assert (Hsubs : forall b : bool,
              subprocesses
                (trace
                   (if b
                    then snd (to_parquet
                                (concat_existing existing (rows ++ [row])) s1)
                    else s1))
              = subprocesses (trace s) ++ subprocesses evs).
    { intros []; cbn [snd to_parquet trace]; rewrite Htr;
        rewrite ?subprocesses_app; cbn; now rewrite ?app_nil_r. }
    split; [apply Hfiles|].
    split; [rewrite video_id_column_app, Hids; cbn; now rewrite Hid|].
    split; [rewrite !length_app, Hlen; reflexivity|].
    split; [|split; [|split]].
    + rewrite Hsubs, Hsub, <- app_assoc. destruct Hs as [-> | ->].
      * exists (downloaded ++ [vid]). rewrite map_app. split; [reflexivity|].
        apply subsequence_app; [assumption | apply subsequence_refl].
      * exists downloaded. rewrite app_nil_r. split; [reflexivity|].
        rewrite <- (app_nil_r downloaded).
        apply subsequence_app; [assumption | apply subsequence_nil].
    + intros Hnever. rewrite Hsubs, (Hall Hnever), (Hmade (Hnever _ _)).
      now rewrite map_app, <- app_assoc.
    + apply Forall_app. split; [assumption | now constructor].
    + apply Forall_app. split; [assumption|]. constructor; [|constructor].
      rewrite Hid. discriminate.
  - unfold whisper_invariant. cbn. rewrite app_nil_r.
    repeat split; try constructor.
    exists []. cbn. rewrite app_nil_r. split; [reflexivity | constructor].
  - exists rows, s'. split; [exact Hloop | exact HI].
Qed.

End WhisperDriver.

Section WhisperRun.

Context {Env : Type} {P : Platform Env} {L : WhisperMain.Loader Env}.

(** A run of the Whisper driver: it stops at the load of the model, or at the
    load of a checkpoint without the [video_id] column, or goes through the
    loop and the final write. *)
Lemma whisper_run_cases : forall (e : Env) column checkpoint,
  let video_ids := firstn WhisperMain.MAX_VIDEOS (unique (dropna column)) in
  match WhisperMain.load_model Whisper.WHISPER_MODEL e with
  | (Raised err, e1) =>
      WhisperMain.run e (Some column) checkpoint
      = (Raised err, mkState e1 (Some column) checkpoint [])
  | (Ok _, e1) =>
      match load_done_ids checkpoint with
      | Raised err =>
          WhisperMain.run e (Some column) checkpoint
          = (Raised err, mkState e1 (Some column) checkpoint [])
      | Ok done =>
          exists rows s',
            WhisperMain.run e (Some column) checkpoint
            = (Ok tt, snd (to_parquet (concat_existing checkpoint rows) s')) /\
            whisper_invariant done (loaded_state e column checkpoint)
              video_ids rows s'
      end
  end.
Proof.
  intros e column checkpoint video_ids.
  unfold WhisperMain.run, WhisperMain.main, bind,
    WhisperMain.whisper_load_model, lift, loaded_state.
  cbn [videos_file env out_file trace].
  destruct (WhisperMain.load_model Whisper.WHISPER_MODEL e)
    as [[[]|err] e1] eqn:Hload; [|reflexivity].
  cbn [videos_file env out_file trace snd].
  destruct (load_done_ids checkpoint) as [done|err]; [|reflexivity].
  destruct (whisper_loop_summary checkpoint done video_ids
              (mkState e1 (Some column) checkpoint []))
    as (rows & s' & Hloop & Hinv).
  exists rows, s'. fold video_ids. rewrite Hloop. now split.
Qed.

Lemma whisper_loop_all_done :
  forall existing done video_ids rows (s : State Env),
    Forall (fun vid => mem vid done = true) video_ids ->
    WhisperMain.main_loop existing done video_ids rows s = (Ok rows, s).
Proof.
  intros existing done video_ids rows s H.
  induction H as [|vid rest Hvid _ IH]; simpl; [reflexivity|].
  now rewrite Hvid.
Qed.

End WhisperRun.

Lemma work_list_incl : forall done_ids video_ids vid,
  In vid (work_list done_ids video_ids)
  <-> In vid video_ids /\ ~ In vid done_ids.
Proof.
  intros. unfold work_list.
  rewrite filter_In, negb_true_iff, mem_not_In. tauto.
Qed.

Lemma work_list_length : forall done_ids video_ids,
  (length (work_list done_ids video_ids) <= length video_ids)%nat.
Proof. intros. apply filter_length_le. Qed.

(** X7. A run of the Whisper driver downloads at most [MAX_VIDEOS] = 10
    videos, each of them among the first ten distinct video ids of the input
    and none of them a video of a row of its checkpoint or an id of its
    [video_id] column.  When the model and the checkpoint load and the audio
    directory can always be made, the videos of the work list are downloaded
    each once, in input order; a run that stops at the load of the model or
    of the checkpoint downloads nothing. *)
Theorem X7_whisper_run_downloads_at_most_ten :
  forall Env (P : Platform Env) (L : WhisperMain.Loader Env)
    (e : Env) column checkpoint,
    let s' := snd (WhisperMain.run e (Some column) checkpoint) in
    let first_ten := firstn WhisperMain.MAX_VIDEOS (unique (dropna column)) in
    (length (subprocesses (trace s')) <= 10)%nat /\
    (forall cmd,
       In cmd (subprocesses (trace s')) ->
       exists vid,
         cmd = WhisperMain.download_command vid /\
         In vid first_ten /\
         ~ In vid (video_id_column (rows_of checkpoint)) /\
         load_done_ids checkpoint
         = Ok (cell_strings (rows_of checkpoint) "video_id") /\
         ~ In vid (cell_strings (rows_of checkpoint) "video_id")) /\
    (forall done,
       fst (WhisperMain.load_model Whisper.WHISPER_MODEL e) = Ok tt ->
       load_done_ids checkpoint = Ok done ->
       (forall path w, fst (make_dirs path w) = Ok tt) ->
       subprocesses (trace s')
       = map WhisperMain.download_command (work_list done first_ten)) /\
    (fst (WhisperMain.run e (Some column) checkpoint) <> Ok tt ->
     subprocesses (trace s') = []).
Proof.
  intros Env P L e column checkpoint s' first_ten.
  pose proof (whisper_run_cases e column checkpoint) as Hcases.
  cbv zeta in Hcases. fold first_ten in Hcases.
  destruct (WhisperMain.load_model Whisper.WHISPER_MODEL e)
    as [[[]|err] e1] eqn:Hmodel.
  - destruct (load_done_ids checkpoint) as [done|err] eqn:Hload.
    + destruct Hcases
        as (rows & s1 & Hrun & _ & _ & _ & (downloaded & Hsub & Hseq) & Hall & _).
      subst s'. rewrite Hrun. cbn [snd fst to_parquet trace].
      rewrite subprocesses_app. cbn [subprocesses]. rewrite app_nil_r.
      unfold loaded_state in Hsub, Hall. cbn [trace subprocesses app] in Hsub, Hall.
      split; [|split; [|split]].
      * rewrite Hsub, length_map.
        pose proof (subsequence_length Hseq) as Hle.
        pose proof (work_list_length done first_ten) as Hwork.
        pose proof (firstn_le_length WhisperMain.MAX_VIDEOS
                      (unique (dropna column))) as Hten.
        fold first_ten in Hten. unfold WhisperMain.MAX_VIDEOS in Hten. lia.
      * intros cmd Hin. rewrite Hsub in Hin.
        apply in_map_iff in Hin as (vid & <- & Hvid).
        exists vid. apply (@subsequence_In _ _ _ vid Hseq), work_list_incl in Hvid.
        destruct Hvid as [Hten Hnot].
        pose proof (load_done_ids_ok _ Hload) as Hdone.
        split; [reflexivity|]. split; [assumption|]. split; [|split].
        -- intros Hrow. apply Hnot.
           now apply (load_done_ids_keeps _ _ Hload).
        -- now rewrite <- Hdone.
        -- now rewrite <- Hdone.
      * intros done' _ [= <-] Hnever. now apply Hall.
      * intros H. now contradiction H.
    + subst s'. rewrite Hcases. cbn.
      split; [lia|]. split; [intros cmd []|]. split; [discriminate|].
      reflexivity.
  - subst s'. rewrite Hcases. cbn.
    split; [lia|]. split; [intros cmd []|]. split; [discriminate|].
    reflexivity.
Qed.

(** Twelve distinct videos, the checkpoint holding the row of B: the nine
    downloads are those of A, C, D, ..., J; K and L are out of reach. *)
Lemma X7_witness :
  fst (WhisperMain.load_model (Loader := Sim_loader) Whisper.WHISPER_MODEL
         Sim.start) = Ok tt /\
  load_done_ids (P := Sim.platform Sim.studio)
    (Some [failure_row "B" "X" "" 0%Z]) = Ok ["B"] /\
  subprocesses
    (trace (snd (WhisperMain.run (P := Sim.platform Sim.studio)
                   (L := Sim_loader) Sim.start (Some Sim_twelve)
                   (Some [failure_row "B" "X" "" 0%Z]))))
  = map WhisperMain.download_command
      ["A"; "C"; "D"; "E"; "F"; "G"; "H"; "I"; "J"].
Proof.
  split; [reflexivity|]. split; [reflexivity|].
  apply (proj1 (proj2 (proj2 (@X7_whisper_run_downloads_at_most_ten
                         Sim.world (Sim.platform Sim.studio) Sim_loader
                         Sim.start Sim_twelve
                         (Some [failure_row "B" "X" "" 0%Z])))) ["B"]);
    reflexivity.
Defined.

Lemma work_list_all_done : forall done_ids video_ids,
  Forall (fun vid => mem vid done_ids = true) video_ids ->
  work_list done_ids video_ids = [].
Proof.
  intros done_ids video_ids H. unfold work_list.
  induction H as [|vid rest Hvid _ IH]; cbn; [reflexivity|].
  now rewrite Hvid.
Qed.

(** X8. Resuming the Whisper driver never goes past the first ten videos:
    after a run that ended normally, a second run on the same list downloads
    nothing and leaves the checkpoint as it is, however long the list; and
    the checkpoint of a run holds only videos it held before or videos among
    the first ten distinct ids of the input. *)
Theorem X8_whisper_resume_never_advances :
  forall Env (P : Platform Env) (L : WhisperMain.Loader Env)
    (e e' : Env) column checkpoint,
    fst (WhisperMain.run e (Some column) checkpoint) = Ok tt ->
    let s1 := snd (WhisperMain.run e (Some column) checkpoint) in
    let s2 := snd (WhisperMain.run e' (Some column) (out_file s1)) in
    subprocesses (trace s2) = [] /\
    out_file s2 = out_file s1 /\
    (forall vid,
       In vid (video_id_column (rows_of (out_file s1))) ->
       In vid (video_id_column (rows_of checkpoint)) \/
       In vid (firstn WhisperMain.MAX_VIDEOS (unique (dropna column)))).
Proof.
  intros Env P L e e' column checkpoint Hok s1 s2.
  set (first_ten := firstn WhisperMain.MAX_VIDEOS (unique (dropna column))).
  pose proof (whisper_run_cases e column checkpoint) as Hcases.
  cbv zeta in Hcases. fold first_ten in Hcases.
  destruct (WhisperMain.load_model Whisper.WHISPER_MODEL e)
    as [[[]|err] e1]; [|rewrite Hcases in Hok; discriminate].
  destruct (load_done_ids checkpoint) as [done|err] eqn:Hload;
    [|rewrite Hcases in Hok; discriminate].
  destruct Hcases as (rows & sA & Hrun & _ & Hids & _ & _ & _ & _ & Hhave).
  set (final := concat_existing checkpoint rows) in *.
  assert (H1 : out_file s1 = Some final).
  { subst s1. now rewrite Hrun. }
  assert (Hcol : video_id_column final
                 = video_id_column (rows_of checkpoint)
                   ++ work_list done first_ten).
  { subst final. now rewrite video_id_column_concat, Hids. }
  assert (H3 : forall vid,
            In vid (video_id_column (rows_of (out_file s1))) ->
            In vid (video_id_column (rows_of checkpoint)) \/
            In vid first_ten).
  { intros vid. rewrite H1. cbn [rows_of]. rewrite Hcol.
    intros Hin. apply in_app_or in Hin as [Hin | Hin]; [now left|].
    right. now apply work_list_incl in Hin. }
  pose proof (whisper_run_cases e' column (Some final)) as Hcases2.
  cbv zeta in Hcases2. fold first_ten in Hcases2.
  cut (subprocesses (trace s2) = [] /\ out_file s2 = Some final).
  { intros [Hsub2 Hfile2].
    split; [exact Hsub2 | split; [now rewrite H1 | exact H3]]. }
  subst s2. rewrite H1.
  destruct (WhisperMain.load_model Whisper.WHISPER_MODEL e')
    as [[[]|err] e1'] eqn:Hmodel2.
  - destruct (load_done_ids (Some final)) as [done2|err] eqn:Hload2.
    + assert (Hall : Forall (fun vid => mem vid done2 = true) first_ten).
      { apply Forall_forall. intros vid Hvid. apply mem_In.
        rewrite (load_done_ids_ok _ Hload2). cbn [rows_of]. subst final.
        rewrite cell_strings_concat. apply in_or_app.
        rewrite <- (load_done_ids_ok _ Hload).
        destruct (mem vid done) eqn:Hmem.
        - left. now apply mem_In.
        - right. rewrite (cell_strings_rows Hhave), Hids.
          apply work_list_incl. split; [assumption|].
          now apply mem_not_In. }
      assert (Hrun2 : WhisperMain.run e' (Some column) (Some final)
                      = (Ok tt,
                         mkState e1' (Some column) (Some final)
                           [EvToParquet final])).
      { unfold WhisperMain.run, WhisperMain.main, bind,
          WhisperMain.whisper_load_model, lift.
        cbn [videos_file env out_file trace]. rewrite Hmodel2.
        cbn [videos_file env out_file trace]. rewrite Hload2.
        fold first_ten. rewrite whisper_loop_all_done by exact Hall.
        cbn. now rewrite app_nil_r. }
      rewrite Hrun2. cbn. auto.
    + rewrite Hcases2. cbn. auto.
  - rewrite Hcases2. cbn. auto.
Qed.

(** Twelve videos and no checkpoint: the second run downloads nothing, and K
    and L stay out of the checkpoint. *)
Lemma X8_witness :
  fst (WhisperMain.run (P := Sim.platform Sim.studio) (L := Sim_loader)
         Sim.start (Some Sim_twelve) None) = Ok tt /\
  subprocesses
    (trace
       (snd (WhisperMain.run (P := Sim.platform Sim.studio) (L := Sim_loader)
               Sim.start (Some Sim_twelve)
               (out_file
                  (snd (WhisperMain.run (P := Sim.platform Sim.studio)
                          (L := Sim_loader) Sim.start (Some Sim_twelve)
                          None)))))) = [].
Proof.
  split; [reflexivity|].
  apply (@X8_whisper_resume_never_advances
           Sim.world (Sim.platform Sim.studio) Sim_loader
           Sim.start Sim.start Sim_twelve None).
  reflexivity.
Defined.



(** * src/01_pull_youtube.py: durations *)

Module DurationFacts.

Import Ascii PullYoutube.

Lemma append_assoc : forall a b c : string,
  ((a ++ b) ++ c = a ++ (b ++ c))%string.
Proof.
  induction a as [|x a IH]; intros b c; simpl; [reflexivity|].
  now rewrite IH.
Qed.

Lemma append_empty_r : forall a : string, (a ++ "" = a)%string.
Proof. induction a as [|x a IH]; simpl; [reflexivity | now rewrite IH]. Qed.

Lemma chars_append : forall a b : string,
  chars (a ++ b)%string = chars a ++ chars b.
Proof.
  induction a as [|x a IH]; intros b; simpl; [reflexivity|].
  unfold chars in *. simpl. now rewrite IH.
Qed.

(** What [span_digits] splits off is a run of digits, and what it leaves
    does not begin with a digit. *)
Lemma span_digits_spec : forall s ds rest,
  span_digits s = (ds, rest) ->
  s = (ds ++ rest)%string /\
  Forall (fun c => isdigit c = true) (chars ds) /\
  match rest with
  | EmptyString => True
  | String c _ => isdigit c = false
  end.
Proof.
  induction s as [|c s IH]; intros ds rest; simpl.
  - intros [= <- <-]. repeat split. constructor.
  - destruct (isdigit c) eqn:Hc.
    + destruct (span_digits s) as [ds' rest'].
      intros [= <- <-]. destruct (IH ds' rest' eq_refl) as (-> & Hds & Hrest).
      repeat split; try assumption. now constructor.
    + intros [= <- <-]. repeat split; [constructor | assumption].
Qed.

Lemma span_digits_number : forall ds rest,
  Forall (fun c => isdigit c = true) (chars ds) ->
  match rest with
  | EmptyString => True
  | String c _ => isdigit c = false
  end ->
  span_digits (ds ++ rest)%string = (ds, rest).
Proof.
  induction ds as [|c ds IH]; intros rest Hds Hrest; simpl.
  - destruct rest as [|c rest]; [reflexivity|]. simpl. now rewrite Hrest.
  - inversion Hds as [|? ? Hc Hds']; subst.
    rewrite Hc, (IH rest Hds' Hrest). reflexivity.
Qed.

(** What a group captured is a number, followed in the text by its unit. *)
Lemma optional_group_sound : forall unit s group rest,
  optional_group unit s = (group, rest) ->
  s = (component unit group ++ rest)%string /\ component_ok group.
Proof.
  intros unit s group rest. unfold optional_group.
  destruct (span_digits s) as [ds after] eqn:Hspan.
  apply span_digits_spec in Hspan as (Hs & Hds & _).
  destruct ds as [|d ds]; [intros [= <- <-]; now split|].
  destruct after as [|c after]; [intros [= <- <-]; now split|].
  destruct (Ascii.eqb c unit) eqn:Hc; intros [= <- <-]; [|now split].
  apply Ascii.eqb_eq in Hc. subst c. split.
  - rewrite Hs. simpl. f_equal. now rewrite append_assoc.
  - split; [discriminate | assumption].
Qed.

Lemma optional_group_taken : forall unit ds rest,
  number ds -> isdigit unit = false ->
  optional_group unit (ds ++ String unit rest)%string = (Some ds, rest).
Proof.
  intros unit ds rest [Hne Hds] Hunit. unfold optional_group.
  rewrite span_digits_number by assumption.
  destruct ds as [|d ds]; [contradiction|].
  now rewrite Ascii.eqb_refl.
Qed.

Lemma optional_group_other_unit : forall unit other ds rest,
  number ds -> isdigit other = false -> other <> unit ->
  optional_group unit (ds ++ String other rest)%string
  = (None, (ds ++ String other rest)%string).
Proof.
  intros unit other ds rest [Hne Hds] Hother Hdiff. unfold optional_group.
  rewrite span_digits_number by assumption.
  destruct ds as [|d ds]; [contradiction|].
  apply Ascii.eqb_neq in Hdiff. now rewrite Hdiff.
Qed.

Lemma optional_group_at_tail : forall unit tail,
  tail = EmptyString \/ tail = String LF EmptyString ->
  optional_group unit tail = (None, tail).
Proof. intros unit tail [-> | ->]; reflexivity. Qed.

Lemma at_end_iff : forall s,
  at_end s = true <-> s = EmptyString \/ s = String LF EmptyString.
Proof.
  intros [|c [|c' s]]; simpl.
  - tauto.
  - rewrite Ascii.eqb_eq. split; [intros ->; now right|].
    intros [H | H]; [discriminate | now injection H].
  - split; [discriminate | intros [H | H]; discriminate].
Qed.

(** The regular expression matches exactly the texts of [duration_text], and
    its groups are their components. *)
Lemma match_duration_iff : forall text h mins s,
  match_duration text = Some (h, mins, s) <-> duration_text text h mins s.
Proof.
  intros text h mins s. split.
  - destruct text as [|c1 [|c2 s0]]; try discriminate. simpl.
    destruct (Ascii.eqb c1 "P") eqn:H1; [|discriminate].
    destruct (Ascii.eqb c2 "T") eqn:H2; [|discriminate]. simpl.
    apply Ascii.eqb_eq in H1, H2. subst c1 c2.
    destruct (optional_group "H" s0) as [gh s1] eqn:Hh.
    destruct (optional_group "M" s1) as [gm s2] eqn:Hm.
    destruct (optional_group "S" s2) as [gs s3] eqn:Hs.
    destruct (at_end s3) eqn:Hend; [|discriminate].
    intros [= <- <- <-].
    apply optional_group_sound in Hh as [-> Hokh].
    apply optional_group_sound in Hm as [-> Hokm].
    apply optional_group_sound in Hs as [-> Hoks].
    apply at_end_iff in Hend.
    repeat split; try assumption.
    exists s3. split; [assumption|]. simpl. reflexivity.
  - intros (Hh & Hm & Hs & tail & Htail & ->). simpl.
    assert (Hgs : optional_group "S" (component "S" s ++ tail)%string
                  = (s, tail)).
    { destruct s as [ds|]; simpl.
      - rewrite append_assoc. simpl. now apply optional_group_taken.
      - now apply optional_group_at_tail. }
    assert (HnoM : forall unit, unit <> "S"%char ->
              s = None \/ True ->
              optional_group unit (component "S" s ++ tail)%string
              = (None, (component "S" s ++ tail)%string)).
    { intros unit Hunit _. destruct s as [ds|]; simpl.
      - rewrite append_assoc. simpl.
        apply optional_group_other_unit; auto.
      - now apply optional_group_at_tail. }
    assert (Hgm : optional_group "M"
                    (component "M" mins ++ component "S" s ++ tail)%string
                  = (mins, (component "S" s ++ tail)%string)).
    { destruct mins as [ds|]; simpl.
      - rewrite append_assoc. simpl. now apply optional_group_taken.
      - apply HnoM; [discriminate | now right]. }
    assert (Hgh : optional_group "H"
                    (component "H" h ++ component "M" mins
                       ++ component "S" s ++ tail)%string
                  = (h, (component "M" mins ++ component "S" s ++ tail)%string)).
    { destruct h as [ds|]; simpl.
      - rewrite append_assoc. simpl. now apply optional_group_taken.
      - destruct mins as [ds|]; simpl.
        + rewrite append_assoc. simpl.
          apply optional_group_other_unit; auto. discriminate.
        + apply HnoM; [discriminate | now right]. }
    rewrite Hgh, Hgm, Hgs.
    apply at_end_iff in Htail. now rewrite Htail.
Qed.

(** The decimal value of a run of digits is not negative. *)
Lemma decimal_value_nonneg : forall ds acc,
  Forall (fun c => isdigit c = true) (chars ds) ->
  (0 <= acc)%Z -> (0 <= decimal_value acc ds)%Z.
Proof.
  induction ds as [|c ds IH]; intros acc Hds Hacc; cbn [decimal_value];
    [assumption|].
  inversion Hds as [|? ? Hc Hds']; subst.
  apply IH; [assumption|].
  unfold isdigit in Hc. cbv zeta in Hc.
  apply andb_true_iff in Hc as [Hlo _].
  apply Nat.leb_le in Hlo. lia.
Qed.

Lemma component_value_nonneg : forall group,
  component_ok group -> (0 <= component_value group)%Z.
Proof.
  intros [ds|] H; simpl; [|lia].
  apply decimal_value_nonneg; [apply H | lia].
Qed.

(** [int(m.group(i) or 0)] gives the value of a short component and raises
    on any other. *)
Lemma group_or_0_cases : forall group,
  (component_short group /\ group_or_0 group = Ok (component_value group)) \/
  (~ component_short group /\
   exists err, group_or_0 group = Raised err /\ type_name err = "ValueError").
Proof.
  intros [ds|]; cbn [group_or_0 component_short component_value].
  - unfold int_digits.
    destruct (MAX_STR_DIGITS <? String.length ds)%nat eqn:Hlong.
    + apply Nat.ltb_lt in Hlong. right. split; [lia|].
      eexists. split; reflexivity.
    + apply Nat.ltb_ge in Hlong. left. now split.
  - left. now split.
Qed.

(** [iso8601_duration_to_seconds] on a string, in terms of the shape of the
    string. *)
Lemma iso8601_duration_cases : forall text,
  match iso8601_duration_to_seconds (JStr text) with
  | Ok (Some n) =>
      exists h mins s,
        duration_text text h mins s /\
        component_short h /\ component_short mins /\ component_short s /\
        n = (component_value h * 3600 + component_value mins * 60
             + component_value s)%Z
  | Ok None => forall h mins s, ~ duration_text text h mins s
  | Raised err =>
      type_name err = "ValueError" /\
      exists h mins s,
        duration_text text h mins s /\
        ~ (component_short h /\ component_short mins /\ component_short s)
  end.
Proof.
  intros text. unfold iso8601_duration_to_seconds.
  destruct (truthy text) eqn:Htruthy.
  - destruct (match_duration text) as [[[h mins] s]|] eqn:Hm.
    + apply match_duration_iff in Hm.
      destruct (group_or_0_cases h) as [[Hh ->] | [Hh (e & -> & He)]];
        [|split; [exact He|]; exists h, mins, s; tauto].
      destruct (group_or_0_cases mins) as [[Hmins ->] | [Hmins (e & -> & He)]];
        [|split; [exact He|]; exists h, mins, s; tauto].
      destruct (group_or_0_cases s) as [[Hs ->] | [Hs (e & -> & He)]];
        [|split; [exact He|]; exists h, mins, s; tauto].
      exists h, mins, s. auto.
    + intros h mins s Htext. apply match_duration_iff in Htext. congruence.
  - intros h mins s (_ & _ & _ & tail & _ & Heq).
    rewrite Heq in Htruthy. discriminate.
Qed.

(** A text has the shape of a duration in one way only. *)
Lemma duration_text_functional : forall text h mins s h' mins' s',
  duration_text text h mins s -> duration_text text h' mins' s' ->
  h = h' /\ mins = mins' /\ s = s'.
Proof.
  intros text h mins s h' mins' s' H H'.
  apply match_duration_iff in H. apply match_duration_iff in H'.
  rewrite H in H'. now injection H' as <- <- <-.
Qed.

Lemma iso8601_duration_iff : forall text n,
  iso8601_duration_to_seconds (JStr text) = Ok (Some n)
  <-> exists h mins s,
        duration_text text h mins s /\
        component_short h /\ component_short mins /\ component_short s /\
        n = (component_value h * 3600 + component_value mins * 60
             + component_value s)%Z.
Proof.
  intros text n. pose proof (iso8601_duration_cases text) as Hcases. split.
  - intros H. rewrite H in Hcases. exact Hcases.
  - intros (h & mins & s & Htext & Hh & Hm & Hs & ->).
    destruct (iso8601_duration_to_seconds (JStr text)) as [[n'|]|err].
    + destruct Hcases as (h' & mins' & s' & Htext' & _ & _ & _ & ->).
      destruct (duration_text_functional Htext Htext') as (<- & <- & <-).
      reflexivity.
    + now destruct (Hcases h mins s).
    + destruct Hcases as (_ & h' & mins' & s' & Htext' & Hlong).
      destruct (duration_text_functional Htext Htext') as (<- & <- & <-).
      tauto.
Qed.

End DurationFacts.

(** X10. [iso8601_duration_to_seconds] returns a number for exactly the
    strings made of PT, then optional hours, minutes and seconds (each a
    non-empty run of at most 4300 digits followed by H, M, S, in this order),
    then nothing or one final newline; the number is hours * 3600 + minutes *
    60 + seconds with a missing component counted as 0.  On a string of this
    shape with a component of more than 4300 digits it raises [ValueError]
    (the limit of [int]), and it returns None for every other string. *)
Theorem X10_iso8601_duration_accepts_exactly_PT_H_M_S :
  forall text,
    (forall n,
       PullYoutube.iso8601_duration_to_seconds (PullYoutube.JStr text)
       = Ok (Some n)
       <-> exists h mins s,
             PullYoutube.duration_text text h mins s /\
             PullYoutube.component_short h /\
             PullYoutube.component_short mins /\
             PullYoutube.component_short s /\
             n = (PullYoutube.component_value h * 3600
                  + PullYoutube.component_value mins * 60
                  + PullYoutube.component_value s)%Z) /\
    ((exists err,
        PullYoutube.iso8601_duration_to_seconds (PullYoutube.JStr text)
        = Raised err)
     <-> exists h mins s,
           PullYoutube.duration_text text h mins s /\
           ~ (PullYoutube.component_short h /\
              PullYoutube.component_short mins /\
              PullYoutube.component_short s)) /\
    (forall err,
       PullYoutube.iso8601_duration_to_seconds (PullYoutube.JStr text)
       = Raised err -> type_name err = "ValueError") /\
    (PullYoutube.iso8601_duration_to_seconds (PullYoutube.JStr text) = Ok None
     <-> forall h mins s, ~ PullYoutube.duration_text text h mins s).
Proof.
  intros text.
  pose proof (DurationFacts.iso8601_duration_cases text) as Hcases.
  split; [intros n; apply DurationFacts.iso8601_duration_iff|].
  destruct (PullYoutube.iso8601_duration_to_seconds (PullYoutube.JStr text))
    as [[n|]|err].
  - destruct Hcases as (h & mins & s & Htext & Hh & Hm & Hs & _).
    split; [|split; [discriminate|]]; split.
    + intros [err H]. discriminate.
    + intros (h' & mins' & s' & Htext' & Hlong).
      destruct (DurationFacts.duration_text_functional Htext Htext')
        as (<- & <- & <-). tauto.
    + discriminate.
    + intros Hnone. now destruct (Hnone h mins s).
  - split; [|split; [discriminate|]]; split.
    + intros [err H]. discriminate.
    + intros (h & mins & s & Htext & _). now destruct (Hcases h mins s).
    + intros _. exact Hcases.
    + reflexivity.
  - destruct Hcases as (Herr & h & mins & s & Htext & Hlong).
    split; [|split; [now intros err' [= <-]|]]; split.
    + intros _. now exists h, mins, s.
    + intros _. now exists err.
    + discriminate.
    + intros Hnone. now destruct (Hnone h mins s).
Qed.

(** X11. A duration that [iso8601_duration_to_seconds] accepts is written
    with digits and the letters P, T, H, M, S only (and a final newline): a
    duration with a day or week part, a fraction, a sign or a space gets
    None.  The number of seconds returned is never negative. *)
Theorem X11_iso8601_duration_alphabet_and_sign :
  forall text n,
    PullYoutube.iso8601_duration_to_seconds (PullYoutube.JStr text)
    = Ok (Some n) ->
    (0 <= n)%Z /\
    Forall (fun c =>
              PullYoutube.isdigit c = true \/
              In c [ Ascii.ascii_of_nat 80; Ascii.ascii_of_nat 84;
                     Ascii.ascii_of_nat 72; Ascii.ascii_of_nat 77;
                     Ascii.ascii_of_nat 83; PullYoutube.LF ])
      (PullYoutube.chars text).
Proof.
  intros text n H.
  apply DurationFacts.iso8601_duration_iff in H
    as (h & mins & s & (Hh & Hm & Hs & tail & Htail & ->) & _ & _ & _ & ->).
  split.
  - pose proof (DurationFacts.component_value_nonneg h Hh).
    pose proof (DurationFacts.component_value_nonneg mins Hm).
    pose proof (DurationFacts.component_value_nonneg s Hs). lia.
  - assert (Hcomp : forall unit group,
              PullYoutube.component_ok group ->
              In unit [ Ascii.ascii_of_nat 72; Ascii.ascii_of_nat 77;
                        Ascii.ascii_of_nat 83 ] ->
              Forall (fun c =>
                        PullYoutube.isdigit c = true \/
                        In c [ Ascii.ascii_of_nat 80; Ascii.ascii_of_nat 84;
                               Ascii.ascii_of_nat 72; Ascii.ascii_of_nat 77;
                               Ascii.ascii_of_nat 83; PullYoutube.LF ])
                (PullYoutube.chars (PullYoutube.component unit group))).
    { intros unit [ds|] Hok Hunit; cbn [PullYoutube.component];
        [|constructor].
      rewrite DurationFacts.chars_append. apply Forall_app. split.
      - eapply Forall_impl; [|apply Hok]. intros c Hc. now left.
      - constructor; [|constructor]. right.
        simpl in Hunit. simpl. intuition auto. }
    rewrite !DurationFacts.chars_append.
    repeat (apply Forall_app; split).
    + constructor; [right; simpl; auto|].
      constructor; [right; simpl; auto | constructor].
    + apply Hcomp; [assumption | simpl; auto].
    + apply Hcomp; [assumption | simpl; auto].
    + apply Hcomp; [assumption | simpl; auto].
    + destruct Htail as [-> | ->]; [constructor|].
      constructor; [right; simpl; auto 10 | constructor].
Qed.

(** One hour, two minutes and three seconds. *)
Lemma X11_witness :
  PullYoutube.iso8601_duration_to_seconds (PullYoutube.JStr "PT1H2M3S")
  = Ok (Some 3723%Z) /\
  (0 <= 3723)%Z.
Proof.
  split; [reflexivity|].
  apply (X11_iso8601_duration_alphabet_and_sign "PT1H2M3S" eq_refl).
Defined.

(** * src/01_pull_youtube.py: the pages of a playlist *)

Module PlaylistFacts.

Import PullYoutube YouTubeApi.

Lemma token_length : forall k, String.length (token k) = k.
Proof. induction k as [|k IH]; simpl; [reflexivity | now rewrite IH]. Qed.

Lemma collect_playlist_items : forall ids,
  collect video_id_of_item (map playlist_item ids) = Ok (map JStr ids).
Proof.
  induction ids as [|id ids IH]; [reflexivity|].
  cbn [map collect]. rewrite IH. reflexivity.
Qed.

Lemma skipn_nth : forall (T : Type) (l : list T) k d,
  (k < length l)%nat -> skipn k l = nth k l d :: skipn (S k) l.
Proof.
  intros T l. induction l as [|x l IH]; intros k d Hk; simpl in Hk; [lia|].
  destruct k as [|k]; [reflexivity|].
  simpl. apply IH. lia.
Qed.

Lemma page_of_sent : forall k, page_of_token (sent k) = k.
Proof. intros [|k]; [reflexivity|]. simpl. now rewrite token_length. Qed.

(** From page k on: the loop asks for each remaining page once and gathers
    their ids in order. *)
Lemma playlist_pages_from :
  forall pages playlist_id m k fuel ids count reqs,
    (k + S m = length pages)%nat ->
    (S m <= fuel)%nat ->
    playlist_pages (A := paged_server pages) fuel playlist_id ids (sent k)
      (mkSession count reqs)
    = (Ok (Some (ids ++ map JStr (concat (skipn k pages)))),
       mkSession (count + S m)%nat
         (reqs ++ map (fun j =>
                         PlaylistItemsList "contentDetails" playlist_id 50
                           (sent j)) (seq k (S m)))).
Proof.
  intros pages playlist_id.
  induction m as [|m IH]; intros k fuel ids count reqs Hk Hfuel;
    (destruct fuel as [|fuel]; [lia|]);
    cbn [playlist_pages]; unfold ybind, run_request, ylift, yret;
    cbn [execute paged_server world requests];
    rewrite page_of_sent; unfold page_response;
    cbn [dict_get String.eqb Ascii.eqb Bool.eqb iterate];
    rewrite collect_playlist_items;
    rewrite (skipn_nth pages (k := k) []) by lia.
  - replace (S k <? length pages)%nat with false
      by (symmetry; apply Nat.ltb_ge; lia).
    cbn [dict_get truth negb app].
    rewrite skipn_all2 by lia.
    cbn [concat seq map]. rewrite app_nil_r.
    do 2 f_equal. lia.
  - replace (S k <? length pages)%nat with true
      by (symmetry; apply Nat.ltb_lt; lia).
    cbn [dict_get String.eqb Ascii.eqb Bool.eqb app truth token truthy negb].
    change (JStr (String (Ascii.ascii_of_nat 120) (token k))) with (sent (S k)).
    rewrite (IH (S k) fuel) by lia.
    cbn [concat]. rewrite map_app, <- !app_assoc. cbn [seq map app].
    do 2 f_equal. lia.
Qed.

End PlaylistFacts.

(** X12. Against a server that serves a playlist in n pages (n at least 1),
    [list_playlist_video_ids] sends n requests, the first without a page
    token and each next one with the token the previous response announced,
    and returns the video ids of all the pages in page order; n rounds of
    the loop are enough. *)
Theorem X12_list_playlist_video_ids_follows_the_pages :
  forall first more playlist_id fuel count,
    let pages := first :: more in
    (length pages <= fuel)%nat ->
    YouTubeApi.list_playlist_video_ids
      (A := YouTubeApi.paged_server pages) fuel playlist_id
      (YouTubeApi.mkSession count [])
    = (Ok (Some (map PullYoutube.JStr (concat pages))),
       YouTubeApi.mkSession (count + length pages)%nat
         (YouTubeApi.page_requests playlist_id (length pages))).
Proof.
  intros first more playlist_id fuel count pages Hfuel.
  unfold YouTubeApi.list_playlist_video_ids.
  change PullYoutube.JNull with (YouTubeApi.sent 0).
  rewrite PlaylistFacts.playlist_pages_from with (m := length more);
    [|reflexivity | exact Hfuel].
  reflexivity.
Qed.

(** A playlist of four videos in three pages, the second of them empty. *)
Lemma X12_witness :
  (length [["a"; "b"]; []; ["c"; "d"]] <= 5)%nat /\
  fst (YouTubeApi.list_playlist_video_ids
         (A := YouTubeApi.paged_server [["a"; "b"]; []; ["c"; "d"]]) 5 "PL"
         (YouTubeApi.mkSession 0%nat []))
  = Ok (Some [ PullYoutube.JStr "a"; PullYoutube.JStr "b";
               PullYoutube.JStr "c"; PullYoutube.JStr "d" ]).
Proof.
  split; [cbn; lia|].
  rewrite (@X12_list_playlist_video_ids_follows_the_pages
             ["a"; "b"] [[]; ["c"; "d"]] "PL" 5%nat 0%nat);
    [reflexivity | cbn; lia].
Defined.

(** X13. The loop of [list_playlist_video_ids] has no bound of its own: as
    long as every response announces a next page (a non-empty
    [nextPageToken]) it goes on asking, so that no number of rounds lets it
    return. *)
Theorem X13_list_playlist_video_ids_has_no_page_limit :
  forall Env (A : YouTubeApi.Api Env),
    (forall r w,
       exists resp w' items ids,
         YouTubeApi.execute r w = (Ok resp, w') /\
         YouTubeApi.iterate
           (PullYoutube.dict_get resp "items" (PullYoutube.JList []))
         = Ok items /\
         YouTubeApi.collect YouTubeApi.video_id_of_item items = Ok ids /\
         PullYoutube.truth
           (PullYoutube.dict_get resp "nextPageToken" PullYoutube.JNull)
         = true) ->
    forall fuel playlist_id (s : YouTubeApi.Session Env),
      fst (YouTubeApi.list_playlist_video_ids fuel playlist_id s) = Ok None /\
      length (YouTubeApi.requests
                (snd (YouTubeApi.list_playlist_video_ids fuel playlist_id s)))
      = (length (YouTubeApi.requests s) + fuel)%nat.
Proof.
  intros Env A Hmore fuel playlist_id.
  unfold YouTubeApi.list_playlist_video_ids.
  generalize (@nil PullYoutube.json) as ids.
  generalize PullYoutube.JNull as page_token.
  induction fuel as [|fuel IH]; intros page_token ids s.
  - cbn. split; [reflexivity | lia].
  - cbn [YouTubeApi.playlist_pages].
    unfold YouTubeApi.ybind, YouTubeApi.run_request, YouTubeApi.ylift.
    destruct (Hmore (YouTubeApi.PlaylistItemsList "contentDetails"
                       playlist_id 50 page_token) (YouTubeApi.world s))
      as (resp & w' & items & new_ids & -> & -> & -> & ->).
    cbn [negb].
    destruct (IH (PullYoutube.dict_get resp "nextPageToken" PullYoutube.JNull)
                (ids ++ new_ids)
                (YouTubeApi.mkSession w'
                   (YouTubeApi.requests s
                      ++ [YouTubeApi.PlaylistItemsList "contentDetails"
                            playlist_id 50 page_token])))
      as [Hres Hlen].
    split; [exact Hres|].
    rewrite Hlen. cbn [YouTubeApi.requests]. rewrite length_app. cbn. lia.
Qed.

(** The endless server: seven rounds, seven requests, no result. *)
Lemma X13_witness :
  fst (YouTubeApi.list_playlist_video_ids (A := YouTubeApi.endless_server)
         7 "PL" (YouTubeApi.mkSession 0%nat [])) = Ok None /\
  length (YouTubeApi.requests
            (snd (YouTubeApi.list_playlist_video_ids
                    (A := YouTubeApi.endless_server) 7 "PL"
                    (YouTubeApi.mkSession 0%nat [])))) = 7%nat.
Proof.
  apply (@X13_list_playlist_video_ids_has_no_page_limit
           nat YouTubeApi.endless_server).
  intros r w. do 4 eexists. repeat split; reflexivity.
Defined.

(** * src/01_pull_youtube.py: the batches of fetch_video_details *)

Module BatchFacts.

Import PullYoutube YouTubeApi VideoDetails.






Section Requests.

Context {Py : Python} {Env : Type} {A : Api Env}.


End Requests.

End BatchFacts.



(** X15. [fetch_video_details] does not return an empty frame: with no id
    to ask for it sends no request and raises [KeyError] for the column it
    sorts by, and it raises the same error, after asking for every batch,
    when the server has no item for any of the ids. *)
Theorem X15_fetch_video_details_without_rows_raises_KeyError :
  (forall (Py : VideoDetails.Python) Env (A : YouTubeApi.Api Env)
     (s : YouTubeApi.Session Env),
     VideoDetails.fetch_video_details [] s
     = (Raised (YouTubeApi.KeyError "published_at"), s)) /\
  (forall (Py : VideoDetails.Python) video_ids count,
     VideoDetails.fetch_video_details (A := VideoDetails.empty_server)
       video_ids (YouTubeApi.mkSession count [])
     = (Raised (YouTubeApi.KeyError "published_at"),
        YouTubeApi.mkSession
          (count + length (VideoDetails.batches video_ids))%nat
          (map VideoDetails.videos_request (VideoDetails.batches video_ids)))).
Proof.
  split.
  - intros Py Env A [w reqs]. reflexivity.
  - intros Py video_ids count.
    assert (Hloop : forall starts c reqs,
              VideoDetails.fetch_batches (A := VideoDetails.empty_server)
                video_ids starts [] (YouTubeApi.mkSession c reqs)
              = (Ok [],
                 YouTubeApi.mkSession (c + length starts)%nat
                   (reqs ++ map (fun i =>
                                   VideoDetails.videos_request
                                     (VideoDetails.slice video_ids i (i + 50)))
                              starts))).
    { induction starts as [|i rest IH]; intros c reqs.
      - cbn. now rewrite Nat.add_0_r, app_nil_r.
      - cbn [VideoDetails.fetch_batches].
        unfold YouTubeApi.ybind, YouTubeApi.run_request, YouTubeApi.ylift.
        cbn [YouTubeApi.execute VideoDetails.empty_server
               YouTubeApi.world YouTubeApi.requests
               PullYoutube.dict_get String.eqb Ascii.eqb Bool.eqb
               YouTubeApi.iterate YouTubeApi.collect app].
        rewrite IH. cbn [length map].
        rewrite <- app_assoc. cbn [app]. do 2 f_equal. lia. }
    unfold VideoDetails.fetch_video_details, YouTubeApi.ybind.
    rewrite Hloop. unfold VideoDetails.batches.
    rewrite length_map, map_map. reflexivity.
Qed.

(** * src/02b_whisper_transcribe.py: the text that is recorded *)

Module StripFacts.

Lemma chars_lstrip : forall s,
  list_ascii_of_string (Whisper.lstrip s)
  = drop_spaces (list_ascii_of_string s).
Proof.
  induction s as [|c s IH]; simpl; [reflexivity|].
  destruct (Whisper.isspace c); [exact IH | reflexivity].
Qed.

Lemma chars_reverse : forall s acc,
  list_ascii_of_string (Whisper.reverse s acc)
  = rev (list_ascii_of_string s) ++ list_ascii_of_string acc.
Proof.
  induction s as [|c s IH]; intros acc; simpl; [reflexivity|].
  rewrite IH. simpl. now rewrite <- app_assoc.
Qed.

Lemma chars_strip : forall s,
  list_ascii_of_string (Whisper.strip s)
  = rev (drop_spaces (rev (drop_spaces (list_ascii_of_string s)))).
Proof.
  intros s. unfold Whisper.strip.
  rewrite chars_reverse, chars_lstrip, chars_reverse, chars_lstrip.
  simpl. now rewrite !app_nil_r.
Qed.

(** What [drop_spaces] removes are spaces, and what it leaves does not begin
    with one. *)
Lemma drop_spaces_spec : forall l,
  exists spaces,
    l = spaces ++ drop_spaces l /\
    Forall (fun c => Whisper.isspace c = true) spaces /\
    match drop_spaces l with
    | [] => True
    | c :: _ => Whisper.isspace c = false
    end.
Proof.
  induction l as [|c l (spaces & Hl & Hsp & Hhead)]; simpl.
  - exists []. repeat split. constructor.
  - destruct (Whisper.isspace c) eqn:Hc.
    + exists (c :: spaces). simpl. rewrite <- Hl.
      repeat split; [now constructor | assumption].
    + exists []. repeat split; [constructor | assumption].
Qed.

(** A stripped string neither begins nor ends with a space. *)
Lemma strip_ends : forall s,
  (forall c rest,
     list_ascii_of_string (Whisper.strip s) = c :: rest ->
     Whisper.isspace c = false) /\
  (forall c init,
     list_ascii_of_string (Whisper.strip s) = init ++ [c] ->
     Whisper.isspace c = false).
Proof.
  intros s. rewrite chars_strip.
  set (inner := drop_spaces (list_ascii_of_string s)).
  destruct (drop_spaces_spec (list_ascii_of_string s)) as (_ & _ & _ & Hinner).
  fold inner in Hinner.
  destruct (drop_spaces_spec (rev inner)) as (spaces & Hrev & _ & Houter).
  set (outer := drop_spaces (rev inner)) in *.
  split.
  - intros c rest Heq.
    assert (Hin : inner = rev outer ++ rev spaces).
    { rewrite <- (rev_involutive inner), Hrev. apply rev_app_distr. }
    rewrite Heq in Hin. rewrite Hin in Hinner. exact Hinner.
  - intros c init Heq.
    assert (Hout : outer = c :: rev init).
    { rewrite <- (rev_involutive outer), Heq, rev_app_distr. reflexivity. }
    rewrite Hout in Houter. exact Houter.
Qed.

(** The white-space characters of Latin-1, by their codes. *)
Lemma isspace_codes : forall c,
  Whisper.isspace c = true
  <-> In (Ascii.nat_of_ascii c)
        [9; 10; 11; 12; 13; 28; 29; 30; 31; 32; 133; 160]%nat.
Proof.
  intros [[] [] [] [] [] [] [] []]; vm_compute;
    (split; [intros H; try discriminate H; tauto
            | intros H; try reflexivity;
              repeat (destruct H as [H | H]; [discriminate H|]);
              destruct H]).
Qed.

Lemma lstrip_blank : forall s,
  Forall (fun c => Whisper.isspace c = true) (list_ascii_of_string s) ->
  Whisper.lstrip s = EmptyString.
Proof.
  induction s as [|c s IH]; intros H; [reflexivity|].
  inversion H as [|? ? Hc Hs]; subst. cbn [Whisper.lstrip].
  rewrite Hc. now apply IH.
Qed.

(** A string of white space only is stripped to the empty string. *)
Lemma strip_blank : forall s,
  Forall (fun c => Whisper.isspace c = true) (list_ascii_of_string s) ->
  Whisper.strip s = EmptyString.
Proof.
  intros s H. unfold Whisper.strip. now rewrite (lstrip_blank _ H).
Qed.

End StripFacts.

(** X16. The text the Whisper path records is never blank and carries no
    surrounding white space: a row of [transcribe_video] that has a
    [transcript_text] is marked as having a transcript, and its text is
    non-empty and neither begins nor ends with a white-space character.  When
    the model hears nothing but white space (or nothing at all), the row has
    no text and no error. *)
Theorem X16_whisper_text_is_stripped_and_not_blank :
  forall Env (P : Platform Env),
    (forall vid (s : State Env) row s' text,
       Whisper.transcribe_video vid s = (Ok row, s') ->
       get row "transcript_text" = Some (VStr text) ->
       has_text row /\
       text <> EmptyString /\
       (forall c rest,
          list_ascii_of_string text = c :: rest -> Whisper.isspace c = false) /\
       (forall c init,
          list_ascii_of_string text = init ++ [c] ->
          Whisper.isspace c = false)) /\
    (forall vid (s : State Env) path s1 res s2,
       Whisper.download_audio vid s = (Ok path, s1) ->
       Whisper.model_transcribe path s1 = (Ok res, s2) ->
       Forall (fun c => Whisper.isspace c = true)
         (list_ascii_of_string (Whisper.or_empty (wr_text res))) ->
       exists row,
         Whisper.transcribe_video vid s = (Ok row, s2) /\
         lacks_text row /\ text_absent row /\ error_absent row) /\
    (forall c,
       Whisper.isspace c = true
       <-> In (Ascii.nat_of_ascii c)
             [9; 10; 11; 12; 13; 28; 29; 30; 31; 32; 133; 160]%nat).
Proof.
  intros Env P. split; [|split].
  - intros vid s row s' text.
    unfold Whisper.transcribe_video, bind, now, try_except.
    destruct (Whisper.download_audio vid s) as [[path|e] s1];
      [|intros [= <- _]; discriminate].
    destruct (Whisper.model_transcribe path s1) as [[res|e] s2];
      [|intros [= <- _]; discriminate].
    intros [= <- _]. unfold Whisper.transcribed_row, has_text.
    cbn [get String.eqb Ascii.eqb Bool.eqb].
    set (stripped := Whisper.strip (Whisper.or_empty (wr_text res))).
    destruct (truthy stripped) eqn:Htruthy; [|discriminate].
    intros [= <-]. split; [reflexivity|]. split.
    + intros Hempty. rewrite Hempty in Htruthy. discriminate.
    + apply StripFacts.strip_ends.
  - intros vid s path s1 res s2 Hdown Hmodel Hblank.
    unfold Whisper.transcribe_video, bind, now, try_except.
    rewrite Hdown, Hmodel. rewrite (StripFacts.strip_blank _ Hblank).
    eexists. split; [reflexivity|]. repeat split.
  - apply StripFacts.isspace_codes.
Qed.

(** The model hears " hello world " in the audio of video A, and white space
    only (a space, a no-break space, a next-line control, a tab) in the audio
    of video B. *)
Lemma X16_witness :
  (exists row s',
     Whisper.transcribe_video (P := Sim.platform Sim.studio) "A"
       (mkState Sim.start None None []) = (Ok row, s') /\
     get row "transcript_text" = Some (VStr "hello world") /\
     has_text row) /\
  (exists row s',
     Whisper.transcribe_video (P := Sim.platform Sim.studio) "B"
       (mkState Sim.start None None []) = (Ok row, s') /\
     lacks_text row /\ text_absent row).
Proof.
  split.
  - do 2 eexists. split; [reflexivity|]. split; [reflexivity|].
    eapply (proj1 (@X16_whisper_text_is_stripped_and_not_blank
                     Sim.world (Sim.platform Sim.studio)) "A"
              (mkState Sim.start None None []) _ _ "hello world");
      reflexivity.
  - destruct (proj1 (proj2 (@X16_whisper_text_is_stripped_and_not_blank
                              Sim.world (Sim.platform Sim.studio))) "B"
                (mkState Sim.start None None []) _ _ _ _ eq_refl eq_refl)
      as (row & Hrun & Hlacks & Habsent & _).
    + cbn. repeat constructor.
    + eexists. eexists. split; [exact Hrun|]. now split.
Defined.

Lemma next_five : forall n,
  (if (S n mod 5 =? 0)%nat
   then S n / 5 = n / 5 + 1 /\ 5 * (S n / 5) = S n
   else S n / 5 = n / 5)%nat.
Proof.
  intros n.
  pose proof (Nat.div_mod_eq n 5) as Hn.
  pose proof (Nat.div_mod_eq (S n) 5) as HSn.
  pose proof (Nat.mod_upper_bound n 5) as Hr.
  pose proof (Nat.mod_upper_bound (S n) 5) as Hr'.
  destruct (S n mod 5 =? 0)%nat eqn:Hdue.
  - apply Nat.eqb_eq in Hdue. lia.
  - apply Nat.eqb_neq in Hdue. lia.
Qed.

Section WhisperWrites.

Context {Env : Type} {P : Platform Env} {L : WhisperMain.Loader Env}.

(** The proof rule of the Whisper loop, carried to a whole run in which the
    model and the checkpoint load. *)
Lemma whisper_run_rule :
  forall (e : Env) column checkpoint done
    (I : list string -> list dict -> State Env -> Prop),
    load_done_ids checkpoint = Ok done ->
    (forall gone rows s vid,
       I gone rows s -> mem vid done = true -> I (gone ++ [vid]) rows s) ->
    (forall gone rows s vid row s1,
       I gone rows s -> mem vid done = false ->
       Whisper.transcribe_video vid s = (Ok row, s1) ->
       I (gone ++ [vid]) (rows ++ [row])
         (if WhisperMain.checkpoint_due (rows ++ [row])
          then snd (to_parquet (concat_existing checkpoint (rows ++ [row])) s1)
          else s1)) ->
    (forall e1, I [] [] (mkState e1 (Some column) checkpoint [])) ->
    fst (WhisperMain.load_model Whisper.WHISPER_MODEL e) = Ok tt ->
    exists rows s',
      I (firstn WhisperMain.MAX_VIDEOS (unique (dropna column))) rows s' /\
      WhisperMain.run e (Some column) checkpoint
      = (Ok tt, snd (to_parquet (concat_existing checkpoint rows) s')).
Proof.
  intros e column checkpoint done I Hdone Hskip Hstep Hinit Hload.
  destruct (whisper_loop_rule checkpoint done I Hskip Hstep
              (firstn WhisperMain.MAX_VIDEOS (unique (dropna column))) [] []
              _ (Hinit (snd (WhisperMain.load_model Whisper.WHISPER_MODEL e))))
    as (rows & s' & Hloop & HI).
  exists rows, s'. split; [exact HI|].
  unfold WhisperMain.run, WhisperMain.main, bind,
    WhisperMain.whisper_load_model, lift.
  cbn [videos_file env out_file trace].
  destruct (WhisperMain.load_model Whisper.WHISPER_MODEL e)
    as [[[]|err] e1]; [|discriminate].
  cbn [videos_file env out_file trace snd app] in *.
  rewrite Hdone. now rewrite Hloop.
Qed.

End WhisperWrites.

(** X17. When the model and the checkpoint load, the Whisper driver writes
    its checkpoint after every fifth new row and once more at the end: the
    k-th write of the loop holds the rows of the loaded checkpoint followed
    by the first 5 k new rows, and the final write holds all of them; the new
    rows are those of the videos of the work list.  On a checkpoint file
    without the [video_id] column the run raises [KeyError] and writes
    nothing. *)
Theorem X17_whisper_run_writes_every_five_rows_and_at_the_end :
  forall Env (P : Platform Env) (L : WhisperMain.Loader Env)
    (e : Env) column checkpoint,
    fst (WhisperMain.load_model Whisper.WHISPER_MODEL e) = Ok tt ->
    let s' := snd (WhisperMain.run e (Some column) checkpoint) in
    let first_ten := firstn WhisperMain.MAX_VIDEOS (unique (dropna column)) in
    match load_done_ids checkpoint with
    | Ok done =>
        exists rows,
          video_id_column rows = work_list done first_ten /\
          out_file s' = Some (rows_of checkpoint ++ rows) /\
          writes (trace s')
          = map (fun k => rows_of checkpoint ++ firstn (5 * k) rows)
              (seq 1 (length rows / 5))
            ++ [rows_of checkpoint ++ rows]
    | Raised err =>
        fst (WhisperMain.run e (Some column) checkpoint) = Raised err /\
        writes (trace s') = [] /\
        out_file s' = checkpoint
    end.
Proof.
  intros Env P L e column checkpoint Hload s' first_ten.
  destruct (load_done_ids checkpoint) as [done|err] eqn:Hdone.
  - destruct (@whisper_run_rule _ _ _ e column checkpoint done
                (fun gone rows s =>
                   video_id_column rows = work_list done gone /\
                   writes (trace s)
                   = map (fun k => rows_of checkpoint ++ firstn (5 * k) rows)
                       (seq 1 (length rows / 5))) Hdone)
      as (rows & s1 & [Hids HI] & Hrun); try assumption.
    + intros gone rows s vid [Hids HI] Hmem.
      split; [now rewrite work_list_skip | assumption].
    + intros gone rows s vid row s2 [Hids HI] Hmem Hrow.
      destruct (transcribe_video_facts vid s)
        as (row' & s2' & evs & Hrow' & _ & Hid & _ & _ & Htr & _ & _ & Hw & _).
      rewrite Hrow in Hrow'. injection Hrow' as <- <-.
      assert (Hkeep :
        map (fun k => rows_of checkpoint ++ firstn (5 * k) (rows ++ [row]))
          (seq 1 (length rows / 5))
        = map (fun k => rows_of checkpoint ++ firstn (5 * k) rows)
            (seq 1 (length rows / 5))).
      { apply map_ext_in. intros k Hk. apply in_seq in Hk.
        rewrite firstn_app_short; [reflexivity|].
        pose proof (Nat.div_mod_eq (length rows) 5). lia. }
      assert (Hbefore : writes (trace s2) = writes (trace s)).
      { rewrite Htr, writes_app, Hw. apply app_nil_r. }
      assert (Hcol : video_id_column (rows ++ [row])
                     = work_list done (gone ++ [vid])).
      { rewrite video_id_column_app, Hids, work_list_take by assumption.
        cbn. now rewrite Hid. }
      pose proof (next_five (length rows)) as Hnext.
      unfold WhisperMain.checkpoint_due. rewrite length_app. cbn [length].
      replace (length rows + 1)%nat with (S (length rows)) by lia.
      cbn [Nat.ltb Nat.leb andb].
      destruct (S (length rows) mod 5 =? 0)%nat.
      * split; [exact Hcol|].
        destruct Hnext as [Hq Hfull]. rewrite Hq.
        replace (length rows / 5 + 1)%nat with (S (length rows / 5)) by lia.
        rewrite seq_S, map_app, Hkeep. cbn [map snd to_parquet trace].
        rewrite writes_app, Hbefore, HI, concat_existing_eq.
        cbn [writes]. do 3 f_equal.
        replace (5 * (1 + length rows / 5))%nat with (S (length rows)) by lia.
        rewrite firstn_all2; [reflexivity|].
        rewrite length_app. cbn. lia.
      * split; [exact Hcol|]. rewrite Hnext, Hkeep, Hbefore. exact HI.
    + intros e1. split; reflexivity.
    + exists rows. subst s'. rewrite Hrun. cbn [snd to_parquet trace out_file].
      rewrite concat_existing_eq, writes_app, HI.
      split; [exact Hids|]. split; reflexivity.
  - pose proof (whisper_run_cases e column checkpoint) as Hcases.
    cbv zeta in Hcases.
    destruct (WhisperMain.load_model Whisper.WHISPER_MODEL e)
      as [[[]|err0] e1]; [|discriminate].
    rewrite Hdone in Hcases. subst s'. rewrite Hcases. now cbn.
Qed.

(** Twelve videos and no checkpoint: ten new rows, written after the fifth,
    after the tenth and at the end. *)
Lemma X17_witness :
  fst (WhisperMain.load_model (Loader := Sim_loader) Whisper.WHISPER_MODEL
         Sim.start) = Ok tt /\
  map (@length dict)
    (writes
       (trace (snd (WhisperMain.run (P := Sim.platform Sim.studio)
                      (L := Sim_loader) Sim.start (Some Sim_twelve) None))))
  = [5; 10; 10]%nat.
Proof.
  split; [reflexivity|].
  destruct (@X17_whisper_run_writes_every_five_rows_and_at_the_end
              Sim.world (Sim.platform Sim.studio) Sim_loader
              Sim.start Sim_twelve None eq_refl)
    as (rows & _ & Hfile & Hwrites).
  rewrite Hwrites. vm_compute in Hfile. injection Hfile as <-. reflexivity.
Defined.

(** * The delay of [fetch_one] and the checkpoint of an empty run *)



(** X19. Both drivers leave a checkpoint they cannot resume from when a run
    has no result: started without a checkpoint on a list without any video
    id, a run writes a frame without rows, hence without the [video_id]
    column, and the next run on that file raises [KeyError] when it loads the
    checkpoint, before it attempts or writes anything. *)
Theorem X19_empty_run_leaves_a_checkpoint_that_does_not_load :
  forall Env (P : Platform Env) (L : WhisperMain.Loader Env)
    (e e' : Env) column,
    dropna column = [] ->
    (let s1 := snd (run e (Some column) None) in
     run e (Some column) None
     = (Ok tt, mkState e (Some column) (Some []) [EvToParquet []]) /\
     run e' (Some column) (out_file s1)
     = (Raised (KeyError "video_id"), mkState e' (Some column) (Some []) [])) /\
    (fst (WhisperMain.load_model Whisper.WHISPER_MODEL e) = Ok tt ->
     fst (WhisperMain.load_model Whisper.WHISPER_MODEL e') = Ok tt ->
     let s1 := snd (WhisperMain.run e (Some column) None) in
     fst (WhisperMain.run e (Some column) None) = Ok tt /\
     out_file s1 = Some [] /\
     fst (WhisperMain.run e' (Some column) (out_file s1))
     = Raised (KeyError "video_id") /\
     trace (snd (WhisperMain.run e' (Some column) (out_file s1))) = []).
Proof.
  intros Env P L e e' column Hnone. split.
  - unfold run, main. cbn [videos_file out_file]. rewrite Hnone.
    cbn. split; reflexivity.
  - intros Hload Hload'.
    unfold WhisperMain.run, WhisperMain.main, bind,
      WhisperMain.whisper_load_model, lift.
    cbn [videos_file env out_file trace]. rewrite Hnone.
    destruct (WhisperMain.load_model Whisper.WHISPER_MODEL e)
      as [[[]|err] e1]; [|discriminate].
    destruct (WhisperMain.load_model Whisper.WHISPER_MODEL e')
      as [[[]|err'] e1']; [|discriminate].
    cbn. repeat split.
Qed.

(** A list of videos whose only entry is missing. *)
Lemma X19_witness :
  run (P := Sim.platform Sim.studio) Sim.start (Some [None]) None
  = (Ok tt, mkState Sim.start (Some [None]) (Some []) [EvToParquet []]) /\
  run (P := Sim.platform Sim.studio) Sim.start (Some [None]) (Some [])
  = (Raised (KeyError "video_id"), mkState Sim.start (Some [None]) (Some []) []).
Proof.
  apply (proj1 (@X19_empty_run_leaves_a_checkpoint_that_does_not_load
                  Sim.world (Sim.platform Sim.studio) Sim_loader
                  Sim.start Sim.start [None] eq_refl)).
Defined.
